(** * Pyroscope demo scripts: bottleneck resolver, JVM health check and
      flamegraph decoder

    A shallow embedding of [scripts/lib/bottleneck.py], [scripts/lib/jvm_health.py]
    and [scripts/lib/parse_flamegraph.py], and the properties their
    specification states about them; then further properties of the three
    scripts and of the health section of [scripts/lib/diagnose.py].

    Conventions of the embedding:
    - a Python [float] is an IEEE 754 binary64 number, Rocq's primitive
      [float]; the small integer constants the scripts mix with floats
      (0, 5, 60, 500, 1000) are the floats of the same value, which compare
      and divide exactly as Python's mixed int/float arithmetic does;
    - a Python [str] is a [string], one [ascii] per character;
    - a [dict] is a [gmap]; a subscript [d[k]] raises [KeyError] on a missing
      key, [d.get(k, v)] does not;
    - a Python exception is the [Raise] case of [result]. *)

From Stdlib Require Import ZArith List String Ascii DecimalString Floats Bool Lia.
From Stdlib Require Import Sorting.Sorted Sorting.Permutation.
From stdpp Require Import base option list gmap strings.

Set Warnings "-inexact-float".
Local Open Scope string_scope.
Local Open Scope Z_scope.

(** ** Python values and builtins *)

Module Py.

Inductive exn : Set :=
| ValueError
| OverflowError
| ZeroDivisionError
| IndexError
| KeyError
| SystemExit.

Inductive result (A : Type) : Type :=
| Ok (a : A)
| Raise (e : exn).
Arguments Ok {A} a.
Arguments Raise {A} e.

Definition bind {A B : Type} (m : result A) (k : A -> result B) : result B :=
  match m with
  | Ok a => k a
  | Raise e => Raise e
  end.

(** The result of [f] on what [m] returns, when it returns. *)
Definition fmap {A B : Type} (f : A -> B) (m : result A) : result B :=
  match m with
  | Ok a => Ok (f a)
  | Raise e => Raise e
  end.

Definition is_ok {A : Type} (m : result A) : bool :=
  match m with Ok _ => true | Raise _ => false end.

(** [results = []; for x in l: results.append(body(x))] *)
Fixpoint for_each {A B : Type} (body : A -> result B) (l : list A)
  : result (list B) :=
  match l with
  | [] => Ok []
  | x :: l' =>
      bind (body x) (fun y =>
      bind (for_each body l') (fun ys =>
      Ok (y :: ys)))
  end.

(** [for x in l: acc = body(acc, x)] *)
Fixpoint for_fold {A S : Type} (body : S -> A -> result S) (l : list A) (acc : S)
  : result S :=
  match l with
  | [] => Ok acc
  | x :: l' => bind (body acc x) (for_fold body l')
  end.

(** Comparisons of floats, written the way the source writes them:
    [a >= b] and [a > b]. Both are false as soon as one side is NaN. *)
Definition ge (a b : float) : bool := PrimFloat.leb b a.
Definition gt (a b : float) : bool := PrimFloat.ltb b a.

(** [a / b]: Python raises where IEEE 754 would give an infinity or a NaN. *)
Definition truediv (a b : float) : result float :=
  if PrimFloat.eqb b 0%float then Raise ZeroDivisionError
  else Ok (PrimFloat.div a b).

(** [int(x)] of a float: truncation towards zero; NaN and the infinities
    have no integer value. *)
Definition int_of_float (x : float) : result Z :=
  match Prim2SF x with
  | S754_zero _ => Ok 0
  | S754_infinity _ => Raise OverflowError
  | S754_nan => Raise ValueError
  | S754_finite s m e =>
      let a := Z.shiftl (Z.pos m) e in
      Ok (if s then - a else a)
  end.

(** [d.get(k, v)] *)
Definition get {V : Type} (d : gmap string V) (k : string) (v : V) : V :=
  match d !! k with
  | Some x => x
  | None => v
  end.

(** [d[k]] *)
Definition subscript {V : Type} (d : gmap string V) (k : string) : result V :=
  match d !! k with
  | Some x => Ok x
  | None => Raise KeyError
  end.

(** [k in d] *)
Definition contains_key {V : Type} (k : string) (d : gmap string V) : bool :=
  match d !! k with
  | Some _ => true
  | None => false
  end.

(** [not l] for a list *)
Definition is_empty {A : Type} (l : list A) : bool :=
  match l with
  | [] => true
  | _ :: _ => false
  end.

(** [l.append(x)] *)
Definition append {A : Type} (l : list A) (x : A) : list A := (l ++ [x])%list.

(** [str(n)] of an int *)
Definition str_of_int (n : Z) : string := NilZero.string_of_int (Z.to_int n).

(** [str.isspace] on one character: the whitespace code points below 256. *)
Definition isspace (c : ascii) : bool :=
  let n := N_of_ascii c in
  ((9 <=? n) && (n <=? 13) || (28 <=? n) && (n <=? 32)
   || (n =? 133) || (n =? 160))%N.

(** [s.split()]: the maximal runs of characters that are not whitespace.
    [cur] is the run being read. *)
Fixpoint split_from (cur : string) (s : string) : list string :=
  match s with
  | EmptyString => if String.eqb cur "" then [] else [cur]
  | String c s' =>
      if isspace c
      then (if String.eqb cur "" then split_from "" s'
            else cur :: split_from "" s')
      else split_from (cur ++ String c "") s'
  end.

Definition split (s : string) : list string := split_from "" s.

Fixpoint lstrip (s : string) : string :=
  match s with
  | String c s' => if isspace c then lstrip s' else s
  | EmptyString => EmptyString
  end.

Fixpoint rstrip (s : string) : string :=
  match s with
  | EmptyString => EmptyString
  | String c s' =>
      match rstrip s' with
      | EmptyString => if isspace c then EmptyString else String c EmptyString
      | r => String c r
      end
  end.

(** [s.strip()] *)
Definition strip (s : string) : string := rstrip (lstrip s).

(** [c in s] for a one-character string [c] *)
Fixpoint contains_char (c : ascii) (s : string) : bool :=
  match s with
  | EmptyString => false
  | String d s' => Ascii.eqb c d || contains_char c s'
  end.

(** [s.split(c, 1)]: at most one cut, at the first [c]. *)
Fixpoint split1 (c : ascii) (s : string) : list string :=
  match s with
  | EmptyString => [EmptyString]
  | String d s' =>
      if Ascii.eqb c d then [EmptyString; s']
      else match split1 c s' with
           | k :: rest => String d k :: rest
           | [] => []
           end
  end.

(** [s.replace(a, b)] for one-character strings [a] and [b] *)
Fixpoint replace_char (a b : ascii) (s : string) : string :=
  match s with
  | EmptyString => EmptyString
  | String d s' => String (if Ascii.eqb a d then b else d) (replace_char a b s')
  end.

(** [s.startswith(p)] *)
Definition startswith (s p : string) : bool := String.prefix p s.

(** [s.rsplit(c, 1)]: at most one cut, at the last [c]. *)
Fixpoint rsplit1 (c : ascii) (s : string) : list string :=
  match s with
  | EmptyString => [EmptyString]
  | String d s' =>
      match rsplit1 c s' with
      | [a; b] => [String d a; b]
      | _ => if Ascii.eqb c d then [EmptyString; s'] else [String d s']
      end
  end.

(** [(i, s) < (j, t)] on tuples of an int and a str *)
Definition key_lt (x y : Z * string) : bool :=
  (x.1 <? y.1)%Z || ((x.1 =? y.1)%Z && String.ltb x.2 y.2).

(** [l.sort(key=key)] and [sorted(l, key=key)]: a stable sort that only asks
    whether one key is less than another; [x] stands before the sorted [l]. *)
Fixpoint insert_by {A K : Type} (lt : K -> K -> bool) (key : A -> K)
    (x : A) (l : list A) : list A :=
  match l with
  | [] => [x]
  | y :: l' =>
      if lt (key y) (key x) then y :: insert_by lt key x l'
      else x :: y :: l'
  end.

Definition sort_by {A K : Type} (lt : K -> K -> bool) (key : A -> K)
    (l : list A) : list A :=
  foldr (insert_by lt key) [] l.

(** [a <= b] on keys, in terms of the comparison a sort asks for: [b] is not
    less than [a]. *)
Definition key_le {K : Type} (lt : K -> K -> bool) (a b : K) : Prop :=
  lt b a = false.

(** [x] stands no later than [y] in the order of their keys. *)
Definition ascending {A K : Type} (lt : K -> K -> bool) (key : A -> K)
    (x y : A) : Prop :=
  key_le lt (key x) (key y).

(** The builtins whose result is a matter of decimal notation: [float(s)] of
    a string ([None] where Python raises [ValueError]), [round(x, n)], and
    [format(x, spec)], which is what a replacement field with a format
    specification of [str.format] produces. *)
Class Builtins : Type := {
  float_of_str : string -> option float;
  round : float -> Z -> float;
  format : float -> string -> string;
}.

End Py.

Notation "x <- m ;; k" := (Py.bind m (fun x => k))
  (at level 100, m at next level, right associativity, only parsing).

(** ** The query layer ([api.py])

    [api.py] is imported by every script and is not part of the sources
    verified here. What the scripts use of it is taken as a parameter: the
    two service-name tables, the instant query against Prometheus (a dict
    from entity to float, empty when nothing is found) and the top-N
    self-time functions of a profile. The PromQL text of a query does not
    matter to the scripts, so a query is named by what it measures. *)

Module Api.

Inductive PromQuery : Set :=
| process_cpu_rate      (* rate(process_cpu_seconds_total[2m]) *)
| heap_used_bytes       (* jvm_memory_used_bytes, area heap *)
| heap_max_bytes        (* jvm_memory_max_bytes, area heap *)
| gc_seconds_rate       (* rate(jvm_gc_collection_seconds_sum[2m]) *)
| threads_current       (* jvm_threads_current *)
| requests_rate         (* by instance: rate(vertx_http_server_requests_total[2m]) *)
| errors_rate           (* the same, restricted to the codes 5xx *)
| response_time_sum     (* by instance: rate(..._response_time_seconds_sum[2m]) *)
| response_time_count.  (* by instance: rate(..._response_time_seconds_count[2m]) *)

(** One entry of [pyro_top_functions]: a dict with the keys [function] and [pct]. *)
Record TopFunction : Type := {
  function : string;
  pct : float;
}.

Class Api : Type := {
  SVC_MAP : gmap string string;
  REVERSE_MAP : gmap string string;
  prom_instant : string -> PromQuery -> gmap string float;
  pyro_top_functions : string -> string -> string -> Z -> list TopFunction;
}.

End Api.

(** ** [bottleneck.py] *)

Module Bottleneck.
Import Py.
Export Api(Api, SVC_MAP, REVERSE_MAP, prom_instant, pyro_top_functions).

Definition CPU_PROFILE : string := "process_cpu:cpu:nanoseconds:cpu:nanoseconds".
Definition MEM_PROFILE : string := "memory:alloc_in_new_tlab_bytes:bytes:space:bytes".
Definition MUTEX_PROFILE : string := "mutex:contentions:count:mutex:count".

Definition DEFAULT_THRESHOLDS : gmap string float :=
  list_to_map
    [ ("cpu", 0.3%float);
      ("heap_pct", 0.75%float);
      ("gc", 0.03%float);
      ("threads", 60%float);
      ("err_pct", 2.0%float);
      ("latency_ms", 500%float) ].

(** A hotspot as [_pyro_top] returns it: a dict with the keys [function]
    and [self_pct]. *)
Record Hotspot : Type := {
  function : string;
  self_pct : float;
}.

(** A recorded signal: the tuple (kind, magnitude, supporting hotspots). *)
Definition Signal : Type := string * float * list Hotspot.

(** [s[0]], [s[1]] and [s[2]] of a signal *)
Definition kind (s : Signal) : string := s.1.1.
Definition magnitude (s : Signal) : float := s.1.2.
Definition hotspots (s : Signal) : list Hotspot := s.2.

(** The nine dicts [analyze] gets from its instant queries, under the names
    of its local variables. *)
Record Snapshots : Type := {
  cpu : gmap string float;
  heap_used : gmap string float;
  heap_max : gmap string float;
  gc : gmap string float;
  threads : gmap string float;
  req_rate : gmap string float;
  err_rate : gmap string float;
  lat_sum : gmap string float;
  lat_count : gmap string float;
}.

(** The numbers of one service, lines 69 to 82 of [analyze], under the names
    of its local variables: cpu rate [c], heap ratio [hp], GC rate [g],
    thread count [t], request rate [rr], average latency [avg_lat] in
    milliseconds and error percentage [err_pct]. *)
Record Locals : Type := {
  c : float;
  hp : float;
  g : float;
  t : Z;
  rr : float;
  avg_lat : float;
  err_pct : float;
}.

(** The dict under the key [metrics] of a result. *)
Record Metrics : Type := {
  m_cpu_rate : float;
  m_heap_pct : float;
  m_gc_rate : float;
  m_threads : Z;
  m_req_per_sec : float;
  m_err_pct : float;
  m_avg_latency_ms : float;
}.

(** One entry of the list [analyze] returns. *)
Record Result : Type := {
  service : string;
  pyroscope_name : string;
  verdict : string;
  severity : string;
  metrics : Metrics;
  top_cpu : list Hotspot;
  top_alloc : list Hotspot;
  top_mutex : list Hotspot;
  primary_function : option string;
  action : string;
}.

(** The dict [report] of [main], without its timestamp. *)
Record Summary : Type := {
  total : Z;
  critical : Z;
  warning : Z;
  healthy : Z;
}.

Record Report : Type := {
  report_thresholds : gmap string float;
  services : list Result;
  summary : Summary;
}.

Section Resolver.
Context `{Builtins} `{Api}.

(** [float(v)] *)
Definition float_ (v : string) : result float :=
  match float_of_str v with
  | Some x => Ok x
  | None => Raise ValueError
  end.

(** The body of the loop of [parse_thresholds]. The unpacking [k, v = ...]
    raises [ValueError] unless the split has exactly two parts. *)
Definition parse_token (thresholds : gmap string float) (tok : string)
  : result (gmap string float) :=
  if contains_char "=" tok then
    match split1 "=" tok with
    | [k; v] =>
        if contains_key k thresholds then
          x <- float_ v ;;
          Ok (<[k := x]> thresholds)
        else Ok thresholds
    | _ => Raise ValueError
    end
  else Ok thresholds.

Fixpoint parse_tokens (toks : list string) (thresholds : gmap string float)
  : result (gmap string float) :=
  match toks with
  | [] => Ok thresholds
  | tok :: toks' =>
      thresholds' <- parse_token thresholds tok ;;
      parse_tokens toks' thresholds'
  end.

Definition parse_thresholds (threshold_str : string) : result (gmap string float) :=
  parse_tokens (split (strip threshold_str)) DEFAULT_THRESHOLDS.

Definition _pyro_top (pyroscope : string) (pyro_ok : bool)
    (service profile_id : string) (n : Z) : list Hotspot :=
  if pyro_ok then
    map (fun f => {| function := replace_char "/" "." (Api.function f);
                     self_pct := Api.pct f |})
        (pyro_top_functions pyroscope service profile_id n)
  else [].

(** [hu / hm if hm > 0 else 0] *)
Definition heap_ratio (hu hm : float) : result float :=
  if gt hm 0%float then truediv hu hm else Ok 0%float.

(** [(ls / lc * 1000) if lc > 0 else 0] *)
Definition average_latency_ms (ls lc : float) : result float :=
  if gt lc 0%float then q <- truediv ls lc ;; Ok (PrimFloat.mul q 1000%float)
  else Ok 0%float.

(** [(er / rr * 100) if rr > 0 else 0] *)
Definition error_percent (er rr : float) : result float :=
  if gt rr 0%float then q <- truediv er rr ;; Ok (PrimFloat.mul q 100%float)
  else Ok 0%float.

(** Lines 90 to 100 of [analyze]: the signals of one service, in the order
    they are appended. *)
Definition detect_signals (thresholds : gmap string float)
    (c g hp avg_lat : float) (cpu_top mem_top mutex_top : list Hotspot)
  : result (list Signal) :=
  let signals : list Signal := [] in
  t_cpu <- subscript thresholds "cpu" ;;
  let signals :=
    if ge c t_cpu then append signals ("cpu-bound", c, cpu_top) else signals in
  t_gc <- subscript thresholds "gc" ;;
  let signals :=
    if ge g t_gc then append signals ("gc-bound", g, mem_top) else signals in
  t_heap <- subscript thresholds "heap_pct" ;;
  let signals :=
    if ge hp t_heap then append signals ("memory-pressure", hp, mem_top)
    else signals in
  let signals :=
    match mutex_top with
    | f :: _ =>
        if gt (self_pct f) 5%float
        then append signals ("lock-bound", self_pct f, mutex_top)
        else signals
    | [] => signals
    end in
  t_lat <- subscript thresholds "latency_ms" ;;
  let signals :=
    if gt avg_lat t_lat && is_empty signals
    then append signals ("io-bound", avg_lat, [])
    else signals in
  Ok signals.

(** [x or d] for an optional string [x]: [None] and the empty string are false. *)
Definition or_else (x : option string) (d : string) : string :=
  match x with
  | Some s => if String.eqb s "" then d else s
  | None => d
  end.

(** [funcs[0][function] if funcs else d] *)
Definition first_function {A : Type} (some : string -> A) (d : A)
    (funcs : list Hotspot) : A :=
  match funcs with
  | f :: _ => some (function f)
  | [] => d
  end.

(** Lines 69 to 82 of [analyze]: the numbers of the service [svc]. *)
Definition service_metrics (q : Snapshots) (svc : string) : result Locals :=
  let c := get (cpu q) svc 0%float in
  let hu := get (heap_used q) svc 0%float in
  let hm := get (heap_max q) svc 0%float in
  hp <- heap_ratio hu hm ;;
  let g := get (gc q) svc 0%float in
  t <- int_of_float (get (threads q) svc 0%float) ;;
  let inst := svc ++ ":8080" in
  let rr := get (req_rate q) inst (get (req_rate q) svc 0%float) in
  let er := get (err_rate q) inst (get (err_rate q) svc 0%float) in
  let ls := get (lat_sum q) inst (get (lat_sum q) svc 0%float) in
  let lc := get (lat_count q) inst (get (lat_count q) svc 0%float) in
  avg_lat <- average_latency_ms ls lc ;;
  err_pct <- error_percent er rr ;;
  Ok {| c := c; hp := hp; g := g; t := t; rr := rr;
        avg_lat := avg_lat; err_pct := err_pct |}.

(** Lines 102 to 145 of [analyze]: the entry appended to [results]. *)
Definition make_result (svc pyro_name : string) (v : Locals)
    (cpu_top mem_top mutex_top : list Hotspot) (signals : list Signal) : Result :=
  let '(verdict, severity, primary_function, action) :=
    match signals with
    | [] => ("healthy", "ok", None, "No action needed")
    | primary :: _ =>
        let verdict := kind primary in
        let severity :=
          if ge (c v) 0.8%float || ge (hp v) 0.85%float || ge (g v) 0.1%float
          then "critical" else "warning" in
        let funcs := hotspots primary in
        let primary_function := first_function Some None funcs in
        let actions : gmap string string :=
          list_to_map
            [ ("cpu-bound",
               "Optimize " ++ or_else primary_function "top CPU function"
               ++ " — see CPU flame graph in Pyroscope");
              ("gc-bound",
               "Reduce allocations in "
               ++ first_function (fun s => s) "top allocator" mem_top
               ++ " — GC rate " ++ format (g v) ".3f" ++ " s/s");
              ("memory-pressure",
               "Heap at " ++ format (hp v) ".0%"
               ++ " — check for leaks in allocation flame graph, consider increasing heap");
              ("lock-bound",
               "Reduce lock scope in "
               ++ or_else primary_function "contended method"
               ++ " — see mutex flame graph");
              ("io-bound",
               "Avg latency " ++ format (avg_lat v) ".0f"
               ++ "ms with low CPU — check downstream dependencies, connection pools, timeouts") ] in
        let action :=
          get actions verdict
            ("Investigate with: bash scripts/diagnose.sh --service " ++ pyro_name) in
        (verdict, severity, primary_function, action)
    end in
  {| service := svc;
     pyroscope_name := pyro_name;
     verdict := verdict;
     severity := severity;
     metrics := {| m_cpu_rate := round (c v) 3;
                   m_heap_pct := round (hp v) 3;
                   m_gc_rate := round (g v) 4;
                   m_threads := t v;
                   m_req_per_sec := round (rr v) 1;
                   m_err_pct := round (err_pct v) 1;
                   m_avg_latency_ms := round (avg_lat v) 1 |};
     top_cpu := take 1 cpu_top;
     top_alloc := take 1 mem_top;
     top_mutex := take 1 mutex_top;
     primary_function := primary_function;
     action := action |}.

(** The body of the loop of [analyze], for the service [svc]. *)
Definition analyze_service (q : Snapshots) (pyroscope : string) (pyro_ok : bool)
    (thresholds : gmap string float) (svc : string) : result Result :=
  let pyro_name := get SVC_MAP svc svc in
  v <- service_metrics q svc ;;
  let cpu_top := _pyro_top pyroscope pyro_ok pyro_name CPU_PROFILE 3 in
  let mem_top := _pyro_top pyroscope pyro_ok pyro_name MEM_PROFILE 3 in
  let mutex_top := _pyro_top pyroscope pyro_ok pyro_name MUTEX_PROFILE 3 in
  signals <- detect_signals thresholds (c v) (g v) (hp v) (avg_lat v)
               cpu_top mem_top mutex_top ;;
  Ok (make_result svc pyro_name v cpu_top mem_top mutex_top signals).

(** [order.get(severity, 9)] for the dict [order] of [analyze] *)
Definition order : gmap string Z :=
  list_to_map [ ("critical", 0); ("warning", 1); ("ok", 2) ].

Definition sort_key (r : Result) : Z * string :=
  (get order (severity r) 9, service r).

(** [sorted(set(d.keys()))] *)
Definition sorted_keys {V : Type} (d : gmap string V) : list string :=
  sort_by String.ltb (fun s => s) (elements (dom d)).

(** The nine instant queries at the head of [analyze]. *)
Definition snapshots (prometheus : string) (prom_ok : bool) : Snapshots :=
  let query x := if prom_ok then prom_instant prometheus x else ∅ in
  {| cpu := query Api.process_cpu_rate;
     heap_used := query Api.heap_used_bytes;
     heap_max := query Api.heap_max_bytes;
     gc := query Api.gc_seconds_rate;
     threads := query Api.threads_current;
     req_rate := query Api.requests_rate;
     err_rate := query Api.errors_rate;
     lat_sum := query Api.response_time_sum;
     lat_count := query Api.response_time_count |}.

Definition analyze (prometheus pyroscope : string) (prom_ok pyro_ok : bool)
    (service_filter : string) (thresholds : gmap string float)
  : result (list Result) :=
  let q := snapshots prometheus prom_ok in
  let services := sorted_keys (cpu q) in
  let services :=
    if String.eqb service_filter "" then services
    else
      let container := get REVERSE_MAP service_filter service_filter in
      filter (fun s => s = container) services in
  results <- for_each (analyze_service q pyroscope pyro_ok thresholds) services ;;
  Ok (sort_by key_lt sort_key results).

(** [sum(1 for r in results if p(r))] *)
Definition count_if {A : Type} (p : A -> bool) (l : list A) : Z :=
  Z.of_nat (length (List.filter p l)).

(** The command line of [main], parsed. *)
Record Args : Type := {
  prometheus_url : string;
  pyroscope_url : string;
  prom_ok : bool;
  pyro_ok : bool;
  json_mode : bool;
  service_filter : string;
  threshold_str : string;
}.

(** [main], up to the report it prints. *)
Definition main (args : Args) : result Report :=
  thresholds <- parse_thresholds (threshold_str args) ;;
  results <- analyze (prometheus_url args) (pyroscope_url args)
               (prom_ok args) (pyro_ok args) (service_filter args) thresholds ;;
  Ok {| report_thresholds := thresholds;
        services := results;
        summary :=
          {| total := Z.of_nat (length results);
             critical := count_if (fun r => String.eqb (severity r) "critical") results;
             warning := count_if (fun r => String.eqb (severity r) "warning") results;
             healthy := count_if (fun r => String.eqb (verdict r) "healthy") results |} |}.

End Resolver.
End Bottleneck.

(** ** [jvm_health.py] *)

Module JvmHealth.
Import Py.
Export Api(Api, SVC_MAP, REVERSE_MAP, prom_instant, pyro_top_functions).

(** One entry of [THRESHOLDS]: a dict with the keys [warn] and [crit]. *)
Record Cutoffs : Type := {
  warn : float;
  crit : float;
}.

(** The table [THRESHOLDS], one field per key. *)
Record Table : Type := {
  cpu_rate : Cutoffs;
  heap_pct : Cutoffs;
  gc_rate : Cutoffs;
  threads : Cutoffs;
}.

Definition THRESHOLDS : Table :=
  {| cpu_rate := {| warn := 0.5%float; crit := 0.8%float |};
     heap_pct := {| warn := 0.70%float; crit := 0.85%float |};
     gc_rate := {| warn := 0.03%float; crit := 0.10%float |};
     threads := {| warn := 50%float; crit := 100%float |} |}.

(** An issue: the tuple (level, message). *)
Definition Issue : Type := string * string.

Record Metrics : Type := {
  m_cpu_rate : float;
  m_heap_pct : float;
  m_heap_used_mb : float;
  m_heap_max_mb : float;
  m_gc_rate : float;
  m_threads : Z;
}.

(** One entry of the list [main] sorts and prints. *)
Record Result : Type := {
  service : string;
  pyroscope_name : string;
  severity : string;
  metrics : Metrics;
  issues : list Issue;
}.

Section Health.
Context `{Builtins} `{Api}.

(** The body of the loop that fills [heap_pct]. *)
Definition heap_pct_step (heap_max : gmap string float)
    (heap_pct : gmap string float) (entry : string * float)
  : result (gmap string float) :=
  let svc := entry.1 in
  let used := entry.2 in
  if contains_key svc heap_max then
    hm <- subscript heap_max svc ;;
    if gt hm 0%float then
      q <- truediv used hm ;;
      Ok (<[svc := q]> heap_pct)
    else Ok heap_pct
  else Ok heap_pct.

Definition build_heap_pct (heap_used heap_max : gmap string float)
  : result (gmap string float) :=
  for_fold (heap_pct_step heap_max) (map_to_list heap_used) ∅.

(** One block [if v >= t[crit]: ... elif v >= t[warn]: ...] of the loop:
    the issues it appends to [issues]. [text] formats the value, [limit] the
    cutoff. *)
Definition check (label : string) (v : float) (t : Cutoffs)
    (text limit : float -> string) (issues : list Issue) : list Issue :=
  if ge v (crit t) then
    append issues ("CRITICAL", label ++ " " ++ text v ++ " >= " ++ limit (crit t))
  else if ge v (warn t) then
    append issues ("WARNING", label ++ " " ++ text v ++ " >= " ++ limit (warn t))
  else issues.

(** [any(s == level for s, _ in issues)] *)
Definition any_level (level : string) (issues : list Issue) : bool :=
  existsb (fun i => String.eqb i.1 level) issues.

(** The body of the loop of [main], for the service [svc]. *)
Definition evaluate_service
    (cpu_rate_ heap_used heap_max heap_pct_ gc_rate_ threads_ : gmap string float)
    (svc : string) : result Result :=
  let issues : list Issue := [] in
  let cpu := get cpu_rate_ svc 0%float in
  let issues :=
    check "CPU" cpu (cpu_rate THRESHOLDS)
      (fun x => format x ".1%") (fun x => format x ".0%") issues in
  let hp := get heap_pct_ svc 0%float in
  let used_mb :=
    round (PrimFloat.div (PrimFloat.div (get heap_used svc 0%float) 1024%float)
             1024%float) 1 in
  let max_mb :=
    round (PrimFloat.div (PrimFloat.div (get heap_max svc 0%float) 1024%float)
             1024%float) 1 in
  let issues :=
    check "Heap" hp (heap_pct THRESHOLDS)
      (fun x => format x ".1%") (fun x => format x ".0%") issues in
  let gc := get gc_rate_ svc 0%float in
  let issues :=
    check "GC" gc (gc_rate THRESHOLDS)
      (fun x => format x ".3f" ++ "s/s") (fun x => format x "" ++ "s/s") issues in
  let th := get threads_ svc 0%float in
  n <- int_of_float th ;;
  let issues :=
    check "Threads" th (threads THRESHOLDS)
      (fun _ => str_of_int n) (fun x => format x "") issues in
  let severity :=
    if any_level "CRITICAL" issues then "CRITICAL"
    else if any_level "WARNING" issues then "WARNING"
    else "OK" in
  Ok {| service := svc;
        pyroscope_name := get SVC_MAP svc svc;
        severity := severity;
        metrics := {| m_cpu_rate := round cpu 3;
                      m_heap_pct := round hp 3;
                      m_heap_used_mb := used_mb;
                      m_heap_max_mb := max_mb;
                      m_gc_rate := round gc 4;
                      m_threads := n |};
        issues := issues |}.

(** [order.get(severity, 9)] for the dict [order] of [main] *)
Definition order : gmap string Z :=
  list_to_map [ ("CRITICAL", 0); ("WARNING", 1); ("OK", 2) ].

Definition sort_key (r : Result) : Z * string :=
  (get order (severity r) 9, service r).

(** [main], up to the sorted list it prints; leaving through [sys.exit(1)]
    is [Raise SystemExit]. *)
Definition main (prometheus pyroscope : string) (json_mode : bool)
  : result (list Result) :=
  let cpu_rate_ := prom_instant prometheus Api.process_cpu_rate in
  let heap_used := prom_instant prometheus Api.heap_used_bytes in
  let heap_max := prom_instant prometheus Api.heap_max_bytes in
  let gc_rate_ := prom_instant prometheus Api.gc_seconds_rate in
  let threads_ := prom_instant prometheus Api.threads_current in
  heap_pct_ <- build_heap_pct heap_used heap_max ;;
  let all_svcs :=
    sort_by String.ltb (fun s => s)
      (elements (dom cpu_rate_ ∪ dom heap_pct_ ∪ dom gc_rate_ ∪ dom threads_)) in
  if is_empty all_svcs then Raise SystemExit
  else
    results <- for_each
                 (evaluate_service cpu_rate_ heap_used heap_max heap_pct_
                    gc_rate_ threads_)
                 all_svcs ;;
    Ok (sort_by key_lt sort_key results).

(** The three counts of the summary line of [main]: critical, warning and
    healthy services. *)
Definition summary (results : list Result) : Z * Z * Z :=
  (Bottleneck.count_if (fun r => String.eqb (severity r) "CRITICAL") results,
   Bottleneck.count_if (fun r => String.eqb (severity r) "WARNING") results,
   Bottleneck.count_if (fun r => String.eqb (severity r) "OK") results).

End Health.
End JvmHealth.

(** ** [parse_flamegraph.py] *)

Module ParseFlamegraph.
Import Py.

Definition JVM_PREFIXES : list string :=
  [ "java."; "javax."; "jdk."; "sun."; "com.sun."; "org.graalvm."; "jdk.internal." ].

Definition LIB_PREFIXES : list string :=
  [ "io.vertx."; "io.netty."; "io.pyroscope.";
    "org.apache."; "org.slf4j."; "ch.qos.";
    "com.fasterxml."; "org.jboss.";
    "one.profiler." ].

Definition normalize (name : string) : string := replace_char "/" "." name.

(** The two loops return at the first prefix that matches; which one
    matched does not show in the result. *)
Definition classify (name app_prefix : string) : string :=
  let n := normalize name in
  if startswith n app_prefix then "app"
  else if existsb (startswith n) JVM_PREFIXES then "jvm"
  else if existsb (startswith n) LIB_PREFIXES then "lib"
  else "other".

(** The name [print_ranked] shows: the name cut at its last dot and put
    together again. *)
Definition display (name : string) : string :=
  match rsplit1 "." name with
  | [a; b] => a ++ "." ++ b
  | _ => name
  end.

(** The object [flamebearer] of the profile read from standard input. *)
Record Flamebearer : Type := {
  names : list string;
  levels : list (list Z);
  numTicks : Z;
}.

(** [len(l)] *)
Definition len {A : Type} (l : list A) : Z := Z.of_nat (length l).

(** [l[i]]: a negative index counts from the end; out of range raises. *)
Definition item {A : Type} (l : list A) (i : Z) : result A :=
  let j := if i <? 0 then i + len l else i in
  if (0 <=? j) && (j <? len l) then
    match l !! Z.to_nat j with
    | Some x => Ok x
    | None => Raise IndexError
    end
  else Raise IndexError.

(** The [if] of the loop body: the self value of one frame added to the
    total of its function. *)
Definition credit (names : list string) (name_idx self_val : Z)
    (self_map : gmap string Z) : result (gmap string Z) :=
  if (name_idx <? len names) && (self_val >? 0) then
    name <- item names name_idx ;;
    Ok (<[name := get self_map name 0 + self_val]> self_map)
  else Ok self_map.

(** The body of the [while] loop: one frame read at [i]. *)
Definition add_frame (names : list string) (level : list Z) (i : Z)
    (self_map : gmap string Z) : result (gmap string Z) :=
  name_idx <- item level (i + 3) ;;
  self_val <- item level (i + 2) ;;
  credit names name_idx self_val self_map.

(** [while i + 3 < len(level): ...; i += 4]. The loop runs at most
    [len(level)] times; [fuel] bounds the number of iterations. *)
Fixpoint while_frames (fuel : nat) (names : list string) (level : list Z)
    (i : Z) (self_map : gmap string Z) : result (gmap string Z) :=
  match fuel with
  | O => Ok self_map
  | S fuel' =>
      if i + 3 <? len level then
        self_map' <- add_frame names level i self_map ;;
        while_frames fuel' names level (i + 4) self_map'
      else Ok self_map
  end.

(** The body of [for level in levels] *)
Definition walk_level (names : list string) (self_map : gmap string Z)
    (level : list Z) : result (gmap string Z) :=
  while_frames (length level) names level 0 self_map.

(** Lines 97 to 105 of [main]: the self-time of every function. *)
Definition self_times (names : list string) (levels : list (list Z))
  : result (gmap string Z) :=
  for_fold (walk_level names) levels ∅.

(** [main] up to [self_map]; [None] is the return after the message that
    there is no data. *)
Definition decode (fb : Flamebearer) : result (option (gmap string Z)) :=
  if numTicks fb =? 0 then Ok None
  else
    self_map <- self_times (names fb) (levels fb) ;;
    Ok (Some self_map).

(** [format(n, spec)] of an int: decimal notation, as for [Builtins]. From
    Python 3.11 on it raises ValueError for an int of more than 4300
    digits, hence the [result]. *)
Class IntFormat : Type := {
  format_int : Z -> string -> result string;
}.

(** The command line of [main]. *)
Record Args : Type := {
  top : Z;
  unit : string;
  app_prefix : string;
  user_code : bool;
  filter_prefix : string;
}.

(** An int as a float with exponent 0, whatever its size. *)
Definition of_int (n : Z) : spec_float :=
  match n with
  | Z0 => S754_zero false
  | Zpos p => S754_finite false p 0
  | Zneg p => S754_finite true p 0
  end.

(** [a / b] of two ints: the quotient rounded to the nearest float, ties to
    even; Python raises where the quotient is too large for a float. *)
Definition int_truediv (a b : Z) : result float :=
  if b =? 0 then Raise ZeroDivisionError
  else
    match SFdiv prec emax (of_int a) (of_int b) with
    | S754_infinity _ => Raise OverflowError
    | q => Ok (SF2Prim q)
    end.

(** [l[:n]]: the first [n] elements; a negative [n] counts from the end. *)
Definition slice_to {A : Type} (l : list A) (n : Z) : list A :=
  take (Z.to_nat (if n <? 0 then len l + n else n)) l.

(** [enumerate(l, 1)] *)
Definition enumerate1 {A : Type} (l : list A) : list (Z * A) :=
  imap (fun i x => (Z.of_nat i + 1, x)) l.

(** A line of [print_ranked]: the arguments of its format string; [tag] is
    the category that the source pads and puts between brackets. *)
Record Row : Type := {
  rank : Z;
  pct : float;
  amount : string;
  tag : string;
  shown : string;
}.

(** A line of the category summary: the arguments of its format string. *)
Record CatRow : Type := {
  cat : string;
  cat_amount : string;
  cat_pct : float;
  count : Z;
}.

(** The lines [main] prints after the decoding. *)
Inductive Line : Type :=
  | Blank
  | NoApplicationCode (app_prefix : string)
  | NoMatch (filter_prefix : string)
  | SummaryHeading
  | SummaryRule
  | CategoryLine (row : CatRow)
  | AllHeading (top : Z)
  | AppHeading (app_top : Z)
  | RankedLine (row : Row).

(** What a piece of code has printed, and the exception that ended it, if
    any. *)
Record Run : Type := {
  printed : list Line;
  raised : option exn;
}.

(** [pass] *)
Definition skip : Run := {| printed := []; raised := None |}.

(** [print(line)] *)
Definition print (line : Line) : Run := {| printed := [line]; raised := None |}.

(** [print(...)] with arguments that may raise before anything is printed *)
Definition print_or_raise (line : result Line) : Run :=
  match line with
  | Ok l => print l
  | Raise e => {| printed := []; raised := Some e |}
  end.

(** [a; b]: [b] runs unless [a] raised. *)
Definition then_ (a b : Run) : Run :=
  match raised a with
  | Some _ => a
  | None => {| printed := (printed a ++ printed b)%list; raised := raised b |}
  end.

Notation "a ;;; b" := (then_ a b) (at level 62, right associativity, only parsing).

(** [for x in l: body(x)] *)
Fixpoint for_print {A : Type} (body : A -> Run) (l : list A) : Run :=
  match l with
  | [] => skip
  | x :: l' => body x ;;; for_print body l'
  end.

(** [sorted(self_map.items(), key=lambda x: -x[1])] *)
Definition all_sorted (items : list (string * Z)) : list (string * Z) :=
  sort_by Z.ltb (fun x => - x.2) items.

(** [[(n, v) for n, v in all_sorted if normalize(n).startswith(prefix)]] *)
Definition matching (prefix : string) (items : list (string * Z))
  : list (string * Z) :=
  List.filter (fun x => startswith (normalize x.1) prefix) items.

(** The dict [cat_totals]: the self-time of each category that has a
    function. *)
Definition cat_totals (items : list (string * Z)) (app_prefix : string)
  : gmap string Z :=
  fold_left (fun cat_totals x =>
               let cat := classify x.1 app_prefix in
               <[cat := get cat_totals cat 0 + x.2]> cat_totals)
    items ∅.

(** [sum(d.values())] *)
Definition sum_values (d : gmap string Z) : Z :=
  foldr Z.add 0 (map snd (map_to_list d)).

Section Report.
Context `{Builtins} `{IntFormat}.

Definition format_val (val : Z) (unit : string) : result string :=
  if String.eqb unit "bytes" then
    q <- int_truediv val 1024 ;;
    Ok (format (PrimFloat.div q 1024%float) ",.1f" ++ " MB")
  else if String.eqb unit "count" then
    s <- format_int val "," ;;
    Ok (s ++ " events")
  else
    q <- int_truediv val 1000000000 ;;
    Ok (format q ".2f" ++ "s").

(** The body of the loop of [print_ranked]: the arguments of the line, in
    the order they are computed. *)
Definition ranked_line (total : Z) (unit app_prefix : string) (entry : Z * (string * Z))
  : result Line :=
  let rank := entry.1 in
  let name := entry.2.1 in
  let val := entry.2.2 in
  q <- int_truediv val total ;;
  let pct := PrimFloat.mul q 100%float in
  let cat := classify name app_prefix in
  amount <- format_val val unit ;;
  Ok (RankedLine {| rank := rank; pct := pct; amount := amount; tag := cat;
                    shown := display name |}).

Definition print_ranked (items : list (string * Z)) (top_n total : Z)
    (unit app_prefix : string) : Run :=
  for_print (fun entry => print_or_raise (ranked_line total unit app_prefix entry))
    (enumerate1 (slice_to items top_n)).

(** The body of the loop over the four categories. *)
Definition category_line (items : list (string * Z)) (total : Z)
    (unit app_prefix : string) (cat_totals : gmap string Z) (cat : string) : Run :=
  if contains_key cat cat_totals then
    print_or_raise
      (v <- subscript cat_totals cat ;;
       q <- int_truediv v total ;;
       let pct := PrimFloat.mul q 100%float in
       let count :=
         len (List.filter (fun x => String.eqb (classify x.1 app_prefix) cat) items) in
       amount <- format_val v unit ;;
       Ok (CategoryLine {| cat := cat; cat_amount := amount; cat_pct := pct;
                           count := count |}))
  else skip.

(** Lines 131 to 149 of [main]: the category summary. *)
Definition category_summary (items : list (string * Z)) (total : Z)
    (unit app_prefix : string) : Run :=
  let cat_totals := cat_totals items app_prefix in
  if sum_values cat_totals >? 0 then
    print Blank ;;; print SummaryHeading ;;; print SummaryRule ;;;
    for_print (category_line items total unit app_prefix cat_totals)
      [ "app"; "lib"; "jvm"; "other" ] ;;;
    print Blank
  else skip.

(** Lines 107 to 162 of [main]; [total] is [numTicks], which is not 0 here,
    and [items] is [self_map.items()], in the order of the dict. *)
Definition report (args : Args) (total : Z) (items : list (string * Z)) : Run :=
  let all_sorted := all_sorted items in
  if user_code args then
    let filtered := matching (app_prefix args) all_sorted in
    if is_empty filtered then print (NoApplicationCode (app_prefix args))
    else print_ranked filtered (top args) total (unit args) (app_prefix args)
  else if negb (String.eqb (filter_prefix args) "") then
    let filtered := matching (filter_prefix args) all_sorted in
    if is_empty filtered then print (NoMatch (filter_prefix args))
    else print_ranked filtered (top args) total (unit args) (app_prefix args)
  else
    category_summary items total (unit args) (app_prefix args) ;;;
    print (AllHeading (top args)) ;;;
    print_ranked all_sorted (top args) total (unit args) (app_prefix args) ;;;
    (let app_sorted := matching (app_prefix args) all_sorted in
     if is_empty app_sorted then skip
     else
       let app_top := Z.min (top args) (len app_sorted) in
       print Blank ;;; print (AppHeading app_top) ;;;
       print_ranked app_sorted app_top total (unit args) (app_prefix args)).

End Report.

End ParseFlamegraph.

(** ** [diagnose.py]: the health section *)

Module Diagnose.
Import Py.
Export Api(Api, SVC_MAP, REVERSE_MAP, prom_instant, pyro_top_functions).

(** One entry of the list [collect_health] returns. *)
Record Health : Type := {
  service : string;
  pyroscope_name : string;
  status : string;
  cpu_rate : float;
  heap_used_mb : float;
  heap_max_mb : float;
  heap_pct : float;
  gc_rate : float;
  threads : Z;
  issues : list string;
}.

Definition severity_rank : gmap string Z :=
  list_to_map [ ("OK", 0); ("WARNING", 1); ("CRITICAL", 2) ].

(** [max(a, b, key=lambda x: severity_rank[x])]: the first of the two
    unless the second ranks strictly higher. *)
Definition max_by_rank (a b : string) : result string :=
  ra <- subscript severity_rank a ;;
  rb <- subscript severity_rank b ;;
  Ok (if rb >? ra then b else a).

Section Collect.
Context `{Builtins} `{Api}.

(** The body of the loop of [collect_health], for the service [svc]; the
    five dicts are the results of the instant queries. *)
Definition collect_service (cpu heap_used heap_max gc threads_ : gmap string float)
    (svc : string) : result Health :=
  let hp_used := get heap_used svc 0%float in
  let hp_max := get heap_max svc 0%float in
  hp_pct <- (if gt hp_max 0%float then truediv hp_used hp_max else Ok 0%float) ;;
  let c := get cpu svc 0%float in
  let g := get gc svc 0%float in
  t <- int_of_float (get threads_ svc 0%float) ;;
  let status := "OK" in
  let issues : list string := [] in
  let '(issues, status) :=
    if ge c 0.8%float then (append issues "CPU critical", "CRITICAL")
    else if ge c 0.5%float then (append issues "CPU warning", "WARNING")
    else (issues, status) in
  st <- (if ge hp_pct 0.85%float then Ok (append issues "Heap critical", "CRITICAL")
         else if ge hp_pct 0.7%float then
           status' <- max_by_rank status "WARNING" ;;
           Ok (append issues "Heap warning", status')
         else Ok (issues, status)) ;;
  let '(issues, status) := st in
  st <- (if ge g 0.1%float then Ok (append issues "GC critical", "CRITICAL")
         else if ge g 0.03%float then
           status' <- max_by_rank status "WARNING" ;;
           Ok (append issues "GC warning", status')
         else Ok (issues, status)) ;;
  let '(issues, status) := st in
  Ok {| service := svc;
        pyroscope_name := get SVC_MAP svc svc;
        status := status;
        cpu_rate := round c 3;
        heap_used_mb :=
          round (PrimFloat.div (PrimFloat.div hp_used 1024%float) 1024%float) 1;
        heap_max_mb :=
          round (PrimFloat.div (PrimFloat.div hp_max 1024%float) 1024%float) 1;
        heap_pct := round hp_pct 3;
        gc_rate := round g 4;
        threads := t;
        issues := issues |}.

(** [order.get(status, 9)] for the dict [order] of [collect_health] *)
Definition order : gmap string Z :=
  list_to_map [ ("CRITICAL", 0); ("WARNING", 1); ("OK", 2) ].

Definition sort_key (s : Health) : Z * string :=
  (get order (status s) 9, service s).

Definition collect_health (prometheus : string) (prom_services : list string)
  : result (list Health) :=
  let cpu := prom_instant prometheus Api.process_cpu_rate in
  let heap_used := prom_instant prometheus Api.heap_used_bytes in
  let heap_max := prom_instant prometheus Api.heap_max_bytes in
  let gc := prom_instant prometheus Api.gc_seconds_rate in
  let threads_ := prom_instant prometheus Api.threads_current in
  services <- for_each (collect_service cpu heap_used heap_max gc threads_)
                prom_services ;;
  Ok (sort_by key_lt sort_key services).

End Collect.
End Diagnose.

(** ** The specification's vocabulary

    What the specification says in words, as definitions of their own, for
    the statements below to compare the scripts with. *)

Module Spec.
Import Py.

(** Section 4.4: the fixed priority order of the signal kinds. *)
Definition priority : list string :=
  [ "cpu-bound"; "gc-bound"; "memory-pressure"; "lock-bound"; "io-bound" ].

(** Section 4.4, item 4: the top mutex hotspot's self-percent exceeds 5. *)
Definition lock_fires (mutex_top : list Bottleneck.Hotspot) : bool :=
  match mutex_top with
  | f :: _ => gt (Bottleneck.self_pct f) 5%float
  | [] => false
  end.

(** Section 4.4, items 1 to 4: the signals other than io-bound, each
    recorded whenever its condition holds, in priority order. *)
Definition prior_signals (cpuCutoff gcCutoff heapCutoff : float)
    (v : Bottleneck.Locals) (cpu_top mem_top mutex_top : list Bottleneck.Hotspot)
  : list Bottleneck.Signal :=
  ((if ge (Bottleneck.c v) cpuCutoff
    then [("cpu-bound", Bottleneck.c v, cpu_top)] else [])
   ++ (if ge (Bottleneck.g v) gcCutoff
       then [("gc-bound", Bottleneck.g v, mem_top)] else [])
   ++ (if ge (Bottleneck.hp v) heapCutoff
       then [("memory-pressure", Bottleneck.hp v, mem_top)] else [])
   ++ (match mutex_top with
       | f :: _ =>
           if lock_fires mutex_top
           then [("lock-bound", Bottleneck.self_pct f, mutex_top)] else []
       | [] => []
       end))%list.

(** Section 4.4, item 5: io-bound only if no prior signal fired and the
    average latency exceeds its cutoff. *)
Definition recorded_signals (cpuCutoff gcCutoff heapCutoff latencyCutoff : float)
    (v : Bottleneck.Locals) (cpu_top mem_top mutex_top : list Bottleneck.Hotspot)
  : list Bottleneck.Signal :=
  let prior := prior_signals cpuCutoff gcCutoff heapCutoff v cpu_top mem_top mutex_top in
  (prior
   ++ (if gt (Bottleneck.avg_lat v) latencyCutoff && is_empty prior
       then [("io-bound", Bottleneck.avg_lat v, [])] else []))%list.

(** Section 4.4: critical if cpuRate >= 0.8 or heapPct >= 0.85 or
    gcRate >= 0.1, else warning. *)
Definition severity (v : Bottleneck.Locals) : string :=
  if ge (Bottleneck.c v) 0.8%float || ge (Bottleneck.hp v) 0.85%float
     || ge (Bottleneck.g v) 0.1%float
  then "critical" else "warning".

(** A result is either healthy and ok, or carries a verdict other than
    healthy with a severity other than ok. *)
Definition healthy_xor_alarm (r : Bottleneck.Result) : Prop :=
  (Bottleneck.verdict r = "healthy" /\ Bottleneck.severity r = "ok")
  \/ (Bottleneck.verdict r <> "healthy"
      /\ (Bottleneck.severity r = "critical"
          \/ Bottleneck.severity r = "warning")).

(** Section 4.3, mode A: the level at which a value crosses a pair of
    cutoffs, the critical one being checked first. *)
Definition crossing (v : float) (t : JvmHealth.Cutoffs) : option string :=
  if ge v (JvmHealth.crit t) then Some "CRITICAL"
  else if ge v (JvmHealth.warn t) then Some "WARNING"
  else None.

(** The issue a metric contributes, if any: its level and a message that
    starts with the name of the metric. *)
Definition issue (label : string) (v : float) (t : JvmHealth.Cutoffs)
    (text limit : float -> string) : option JvmHealth.Issue :=
  match crossing v t with
  | Some level =>
      let cutoff :=
        if String.eqb level "CRITICAL" then JvmHealth.crit t
        else JvmHealth.warn t in
      Some (level, label ++ " " ++ text v ++ " >= " ++ limit cutoff)
  | None => None
  end.

(** Section 4.3, mode A: CRITICAL if any issue is CRITICAL, else WARNING if
    any issue is WARNING, else OK. *)
Definition status (levels : list string) : string :=
  if existsb (String.eqb "CRITICAL") levels then "CRITICAL"
  else if existsb (String.eqb "WARNING") levels then "WARNING"
  else "OK".

(** Section 4.3, mode B: the six keys a threshold override may name. *)
Definition known_keys : list string :=
  [ "cpu"; "heap_pct"; "gc"; "threads"; "err_pct"; "latency_ms" ].

Definition known (k : string) : bool := existsb (String.eqb k) known_keys.

(** A token read as [key=value]: the key ends at the first [=]; a token
    without [=] is no such pair. *)
Fixpoint key_value (tok : string) : option (string * string) :=
  match tok with
  | EmptyString => None
  | String ch tok' =>
      if Ascii.eqb ch "=" then Some (EmptyString, tok')
      else match key_value tok' with
           | Some (k, v) => Some (String ch k, v)
           | None => None
           end
  end.

(** The override a token carries: a [key=value] pair with a known key.
    Everything else is ignored. *)
Definition override (tok : string) : option (string * string) :=
  match key_value tok with
  | Some (k, v) => if known k then Some (k, v) else None
  | None => None
  end.

(** The text of the last override of the key [k] among the tokens. *)
Fixpoint last_override (k : string) (toks : list string) : option string :=
  match toks with
  | [] => None
  | tok :: toks' =>
      match last_override k toks' with
      | Some v => Some v
      | None =>
          match override tok with
          | Some (k', v) => if String.eqb k' k then Some v else None
          | None => None
          end
      end
  end.

(** A thresholds dict with exactly the known keys. The overrides keep it so:
    they only replace the value of a key that is there. *)
Definition same_keys (thresholds : gmap string float) : Prop :=
  forall k, contains_key k thresholds = known k.

(** A token that fails the run: an override whose value is no number. *)
Definition fatal `{Builtins} (tok : string) : Prop :=
  exists k v, override tok = Some (k, v) /\ float_of_str v = None.

(** A token has at least one character and no whitespace in it. *)
Definition is_token (tok : string) : Prop :=
  tok <> EmptyString /\ forall ch, contains_char ch tok = true -> isspace ch = false.

(** Section 3: a stack level is a flat sequence of 4-tuples
    (offset, total, self, nameIndex). *)
Record Frame : Type := {
  offset : Z;
  total : Z;
  self : Z;
  nameIndex : Z;
}.

(** Section 4.1: the complete groups of 4 of a level, from index 0 on; a
    trailing partial group is dropped. *)
Fixpoint frames (level : list Z) : list Frame :=
  match level with
  | o :: t :: s :: n :: rest =>
      {| offset := o; total := t; self := s; nameIndex := n |} :: frames rest
  | _ => []
  end.

(** Section 4.1: the function a frame adds its self value to, when
    [self > 0] and [nameIndex] is a valid index into [names]. *)
Definition credited (names : list string) (f : Frame) : option string :=
  if (0 <=? nameIndex f) && (nameIndex f <? Z.of_nat (length names))
     && (self f >? 0)
  then names !! Z.to_nat (nameIndex f)
  else None.

(** The self values a list of frames adds to the function [name]. *)
Fixpoint self_sum (names : list string) (name : string) (fs : list Frame) : Z :=
  match fs with
  | [] => 0
  | f :: fs' =>
      (if bool_decide (credited names f = Some name) then self f else 0)
      + self_sum names name fs'
  end.

(** Section 3: the self-time of a function is the sum of the self values of
    every frame of every level that names it. *)
Definition self_time (names : list string) (levels : list (list Z))
    (name : string) : Z :=
  self_sum names name (concat (map frames levels)).

(** The decoder's step, frame after frame, over a list of frames. *)
Fixpoint credit_all (names : list string) (fs : list Frame)
    (self_map : gmap string Z) : result (gmap string Z) :=
  match fs with
  | [] => Ok self_map
  | f :: fs' =>
      bind (ParseFlamegraph.credit names (nameIndex f) (self f) self_map)
        (credit_all names fs')
  end.

(** The services [analyze] reports on: those with a cpu sample, and under
    a service filter the one container the filter names. *)
Definition listed `{Api.Api} (q : Bottleneck.Snapshots) (service_filter : string)
    (svc : string) : Prop :=
  is_Some (Bottleneck.cpu q !! svc)
  /\ (service_filter = ""
      \/ svc = get Api.REVERSE_MAP service_filter service_filter).

(** The services the health check reports on: those with a cpu, GC or
    thread sample, and those with a used-heap sample and a heap maximum
    greater than zero. *)
Definition monitored `{Api.Api} (prometheus svc : string) : Prop :=
  is_Some (Api.prom_instant prometheus Api.process_cpu_rate !! svc)
  \/ (is_Some (Api.prom_instant prometheus Api.heap_used_bytes !! svc)
      /\ exists hm, Api.prom_instant prometheus Api.heap_max_bytes !! svc = Some hm
                    /\ gt hm 0%float = true)
  \/ is_Some (Api.prom_instant prometheus Api.gc_seconds_rate !! svc)
  \/ is_Some (Api.prom_instant prometheus Api.threads_current !! svc).

(** A frame the decoder cannot survive: a positive self value with a name
    index below [-len(names)]. *)
Definition breaks (names : list string) (f : Frame) : Prop :=
  0 < self f /\ nameIndex f < - Z.of_nat (length names).

(** The levels at which the cpu rate, the heap ratio and the GC rate of a
    service cross the cutoffs of the health check. *)
Definition three_levels (c hp g : float) : list string :=
  (option_list (crossing c (JvmHealth.cpu_rate JvmHealth.THRESHOLDS))
   ++ option_list (crossing hp (JvmHealth.heap_pct JvmHealth.THRESHOLDS))
   ++ option_list (crossing g (JvmHealth.gc_rate JvmHealth.THRESHOLDS)))%list.

(** Section 4.5: the rank of a severity, in either vocabulary. *)
Definition severityRank (s : string) : option Z :=
  if String.eqb s "critical" || String.eqb s "CRITICAL" then Some 0
  else if String.eqb s "warning" || String.eqb s "WARNING" then Some 1
  else if String.eqb s "ok" || String.eqb s "OK" then Some 2
  else None.

(** Section 4.5: the pair (severityRank, serviceIdentity) is the sort key. *)
Definition is_sort_key (severity service : string) (k : Z * string) : Prop :=
  severityRank severity = Some k.1 /\ k.2 = service.

End Spec.

(** ** Sample data

    A small fleet and stand-ins for the builtins, for the examples that
    accompany the statements below. *)

Module Fixture.
Import Py.

(** [float] on the decimal strings the examples use (the nearest binary64
    number, as Python reads them); any other string counts as unparsable. *)
Definition float_of_str (s : string) : option float :=
  if String.eqb s "0.5" then Some 0.5%float
  else if String.eqb s "0.95" then Some 0.95%float
  else if String.eqb s "0.05" then Some 0.05%float
  else if String.eqb s "250" then Some 250%float
  else None.

#[global] Instance builtins : Builtins :=
  {| Py.float_of_str := float_of_str;
     Py.round := fun x _ => x;
     Py.format := fun _ spec => "{:" ++ spec ++ "}" |}.

Definition top_functions (profile_id : string) : list Api.TopFunction :=
  if String.eqb profile_id Bottleneck.CPU_PROFILE then
    [ {| Api.function := "com/example/Ledger.post"; Api.pct := 41.5%float |};
      {| Api.function := "java/util/HashMap.get"; Api.pct := 12%float |} ]
  else if String.eqb profile_id Bottleneck.MEM_PROFILE then
    [ {| Api.function := "com/example/Report.render"; Api.pct := 33%float |} ]
  else
    [ {| Api.function := "com/example/Cache.lock"; Api.pct := 2%float |} ].

(** Three services: [a] burns CPU and collects garbage, [b] is above the CPU
    cutoff only, [c] has a full heap. *)
Definition fleet (x : Api.PromQuery) : gmap string float :=
  match x with
  | Api.process_cpu_rate =>
      list_to_map [("a", 0.9%float); ("b", 0.35%float); ("c", 0.1%float)]
  | Api.heap_used_bytes =>
      list_to_map [("a", 100%float); ("b", 100%float); ("c", 900%float)]
  | Api.heap_max_bytes =>
      list_to_map [("a", 1000%float); ("b", 1000%float); ("c", 1000%float)]
  | Api.gc_seconds_rate =>
      list_to_map [("a", 0.95%float); ("b", 0.01%float); ("c", 0.01%float)]
  | Api.threads_current =>
      list_to_map [("a", 40%float); ("b", 40%float); ("c", 40%float)]
  | Api.requests_rate => list_to_map [("a:8080", 10%float)]
  | Api.errors_rate => list_to_map [("a:8080", 1%float)]
  | Api.response_time_sum => list_to_map [("a:8080", 2%float)]
  | Api.response_time_count => list_to_map [("a:8080", 10%float)]
  end.

(** A stand-in for the formatting of an int: its plain decimal notation. *)
#[global] Instance int_format : ParseFlamegraph.IntFormat :=
  {| ParseFlamegraph.format_int := fun n _ => Ok (str_of_int n) |}.

#[global] Instance api : Api.Api :=
  {| Api.SVC_MAP := list_to_map [("a", "service-a")];
     Api.REVERSE_MAP := list_to_map [("service-a", "a")];
     Api.prom_instant := fun _ x => fleet x;
     Api.pyro_top_functions := fun _ _ profile_id _ => top_functions profile_id |}.

(** The fleet as [analyze] queries it. *)
Definition snapshots : Bottleneck.Snapshots := Bottleneck.snapshots "prometheus" true.

(** One service [e] for the health check: cpu rate 0.85, heap 720 of 1000
    bytes, GC rate 0.01 and 60 threads. *)
Definition mixed_cpu_rate : gmap string float := list_to_map [("e", 0.85%float)].
Definition mixed_heap_used : gmap string float := list_to_map [("e", 720%float)].
Definition mixed_heap_max : gmap string float := list_to_map [("e", 1000%float)].
Definition mixed_gc_rate : gmap string float := list_to_map [("e", 0.01%float)].
Definition mixed_threads : gmap string float := list_to_map [("e", 60%float)].

(** A result of the resolver of which only the service and the severity
    matter. *)
Definition entry (service severity : string) : Bottleneck.Result :=
  {| Bottleneck.service := service;
     Bottleneck.pyroscope_name := service;
     Bottleneck.verdict := "";
     Bottleneck.severity := severity;
     Bottleneck.metrics :=
       {| Bottleneck.m_cpu_rate := 0%float;
          Bottleneck.m_heap_pct := 0%float;
          Bottleneck.m_gc_rate := 0%float;
          Bottleneck.m_threads := 0;
          Bottleneck.m_req_per_sec := 0%float;
          Bottleneck.m_err_pct := 0%float;
          Bottleneck.m_avg_latency_ms := 0%float |};
     Bottleneck.top_cpu := [];
     Bottleneck.top_alloc := [];
     Bottleneck.top_mutex := [];
     Bottleneck.primary_function := None;
     Bottleneck.action := "" |}.

(** One service [d] with a busy CPU, no traffic recorded under its instance
    name, and slow answers: 0.9 s per request. *)
Definition slow : Bottleneck.Snapshots :=
  {| Bottleneck.cpu := list_to_map [("d", 0.9%float)];
     Bottleneck.heap_used := list_to_map [("d", 100%float)];
     Bottleneck.heap_max := ∅;
     Bottleneck.gc := ∅;
     Bottleneck.threads := ∅;
     Bottleneck.req_rate := ∅;
     Bottleneck.err_rate := ∅;
     Bottleneck.lat_sum := list_to_map [("d", 9%float)];
     Bottleneck.lat_count := list_to_map [("d", 10%float)] |}.

End Fixture.

(** * Properties *)

(** ** Exceptions, floats and loops *)

Section PyFacts.
Import Py.

Lemma bind_Ok {A B : Type} (m : result A) (k : A -> result B) (b : B) :
  bind m k = Ok b <-> exists a, m = Ok a /\ k a = Ok b.
Proof.
  split.
  - destruct m as [a|e]; simpl; [eauto | discriminate].
  - intros (a & -> & Hk). exact Hk.
Qed.

(** A float greater than zero is not equal to zero, so a division guarded
    by [x > 0] never divides by zero. *)
Lemma gt_zero_not_zero (x : float) :
  gt x 0%float = true -> PrimFloat.eqb x 0%float = false.
Proof.
  unfold gt. intros Hlt.
  rewrite FloatAxioms.ltb_spec in Hlt. rewrite FloatAxioms.eqb_spec.
  change (Prim2SF 0%float) with (S754_zero false) in *.
  destruct (Prim2SF x) as [[]|[]| |[] m e]; cbv in Hlt |- *; congruence.
Qed.

Lemma truediv_guarded (a b : float) :
  gt b 0%float = true -> truediv a b = Ok (PrimFloat.div a b).
Proof.
  intros Hb. unfold truediv. now rewrite (gt_zero_not_zero b Hb).
Qed.

Lemma for_each_Ok {A B : Type} (body : A -> result B) (l : list A) (ys : list B) :
  for_each body l = Ok ys <-> Forall2 (fun x y => body x = Ok y) l ys.
Proof.
  revert ys. induction l as [|x l IH]; intros ys; simpl.
  - split; [intros [= <-]; constructor | intros Hf; inversion Hf; reflexivity].
  - rewrite bind_Ok. split.
    + intros (y & Hy & Hrest). apply bind_Ok in Hrest as (ys' & Hys & [= <-]).
      constructor; [exact Hy | now apply IH].
    + intros Hf. inversion Hf as [|x' y l' ys' Hy Hrest]; subst.
      exists y. split; [exact Hy |]. apply bind_Ok. exists ys'.
      split; [now apply IH | reflexivity].
Qed.

Lemma for_each_elem {A B : Type} (body : A -> result B) (l : list A) (ys : list B) (y : B) :
  for_each body l = Ok ys -> In y ys -> exists x, In x l /\ body x = Ok y.
Proof.
  intros Hf. apply for_each_Ok in Hf. induction Hf as [|x y' l ys Hy _ IH].
  - intros [].
  - intros [<- | Hin].
    + exists x. split; [now left | exact Hy].
    + destruct (IH Hin) as (x' & Hx' & Hb). exists x'. split; [now right | exact Hb].
Qed.

Lemma for_each_total {A B : Type} (body : A -> result B) (l : list A) :
  (forall x, In x l -> exists y, body x = Ok y) -> exists ys, for_each body l = Ok ys.
Proof.
  induction l as [|x l IH]; intros Hall; simpl.
  - eauto.
  - destruct (Hall x (or_introl eq_refl)) as (y & ->).
    destruct IH as (ys & ->); [intros x' Hx'; apply Hall; now right |].
    simpl. eauto.
Qed.

Lemma gt_irrefl (x : float) : gt x x = false.
Proof.
  unfold gt. rewrite FloatAxioms.ltb_spec. unfold SFltb.
  destruct (Prim2SF x) as [[]|[]| |[] m e]; simpl; try reflexivity;
    rewrite Z.compare_refl, Pos.compare_cont_refl; reflexivity.
Qed.

Lemma insert_by_Permutation {A K : Type} (lt : K -> K -> bool) (key : A -> K)
    (x : A) (l : list A) :
  Permutation (insert_by lt key x l) (x :: l).
Proof.
  induction l as [|y l IH]; simpl.
  - reflexivity.
  - destruct (lt (key y) (key x)).
    + rewrite IH. apply perm_swap.
    + reflexivity.
Qed.

Lemma sort_by_Permutation {A K : Type} (lt : K -> K -> bool) (key : A -> K)
    (l : list A) :
  Permutation (sort_by lt key l) l.
Proof.
  induction l as [|x l IH]; simpl.
  - reflexivity.
  - rewrite insert_by_Permutation. now constructor.
Qed.

Lemma sort_by_In {A K : Type} (lt : K -> K -> bool) (key : A -> K)
    (l : list A) (x : A) :
  In x (sort_by lt key l) <-> In x l.
Proof.
  split; apply Permutation_in;
    [apply sort_by_Permutation | symmetry; apply sort_by_Permutation].
Qed.

Lemma sort_by_length {A K : Type} (lt : K -> K -> bool) (key : A -> K)
    (l : list A) :
  length (sort_by lt key l) = length l.
Proof. apply Permutation_length, sort_by_Permutation. Qed.

End PyFacts.

(** ** Sorting by a key

    [sort_by] returns the one list that is a permutation of its argument, in
    ascending order of keys, with the elements of equal key in their
    original order; this is what Python promises of [list.sort] and [sorted]
    whatever the algorithm behind them. *)

Section SortBy.
Import Py.
Context {A K : Type} `{EqDecision K} (lt : K -> K -> bool) (key : A -> K).
Hypothesis lt_irrefl : forall a, lt a a = false.
Hypothesis lt_trans : forall a b c, lt a b = true -> lt b c = true -> lt a c = true.
Hypothesis lt_total : forall a b, lt a b = false -> lt b a = false -> a = b.

Local Abbreviation key_le := (Py.key_le lt).
Local Abbreviation ascending := (Py.ascending lt key).

Lemma lt_asym (a b : K) : lt a b = true -> lt b a = false.
Proof.
  intros Hab. destruct (lt b a) eqn:Hba; [| reflexivity].
  now rewrite <- (lt_irrefl a), (lt_trans a b a Hab Hba).
Qed.

Lemma key_le_trans (a b c : K) : key_le a b -> key_le b c -> key_le a c.
Proof.
  unfold key_le. intros Hab Hbc. destruct (lt c a) eqn:Hca; [| reflexivity].
  destruct (lt a b) eqn:Hlt.
  - now rewrite <- Hbc, (lt_trans c a b Hca Hlt).
  - rewrite (lt_total a b Hlt Hab) in Hca. congruence.
Qed.

Lemma insert_by_sorted (x : A) (l : list A) :
  StronglySorted ascending l -> StronglySorted ascending (insert_by lt key x l).
Proof.
  induction 1 as [|y l Hs IH Hy]; simpl.
  - repeat constructor.
  - destruct (lt (key y) (key x)) eqn:Hyx.
    + constructor; [exact IH |].
      eapply Permutation_Forall; [symmetry; apply insert_by_Permutation |].
      constructor; [| exact Hy]. apply lt_asym, Hyx.
    + constructor; [now constructor |]. constructor; [exact Hyx |].
      eapply Forall_impl; [exact Hy |]. intros z Hz.
      eapply key_le_trans; [exact Hyx | exact Hz].
Qed.

Lemma sort_by_sorted (l : list A) : StronglySorted ascending (sort_by lt key l).
Proof.
  induction l as [|x l IH]; simpl.
  - constructor.
  - apply insert_by_sorted, IH.
Qed.

Lemma insert_by_stable (k : K) (x : A) (l : list A) :
  filter (fun y => key y = k) (insert_by lt key x l)
  = filter (fun y => key y = k) (x :: l).
Proof.
  induction l as [|y l IH]; simpl; [reflexivity |].
  destruct (lt (key y) (key x)) eqn:Hyx; [| reflexivity].
  rewrite (filter_cons _ y), IH, !filter_cons.
  destruct (decide (key y = k)) as [Hy|Hy], (decide (key x = k)) as [Hx|Hx];
    try reflexivity.
  rewrite Hy, Hx, lt_irrefl in Hyx. discriminate.
Qed.

Lemma sort_by_stable (k : K) (l : list A) :
  filter (fun y => key y = k) (sort_by lt key l) = filter (fun y => key y = k) l.
Proof.
  induction l as [|x l IH]; simpl; [reflexivity |].
  now rewrite insert_by_stable, !filter_cons, IH.
Qed.

(** Two lists in ascending order that hold the same elements of every key,
    in the same order, are equal. *)
Lemma ascending_stable_unique (l1 l2 : list A) :
  StronglySorted ascending l1 -> StronglySorted ascending l2 ->
  (forall k, filter (fun y => key y = k) l1 = filter (fun y => key y = k) l2) ->
  l1 = l2.
Proof.
  intros Hs1. revert l2. induction Hs1 as [|x l1 Hs1 IH Hx]; intros l2 Hs2 Hf.
  - destruct l2 as [|y l2]; [reflexivity |].
    specialize (Hf (key y)). rewrite filter_cons in Hf.
    destruct (decide (key y = key y)); [discriminate | congruence].
  - destruct Hs2 as [|y l2 Hs2 Hy].
    + specialize (Hf (key x)). rewrite filter_cons in Hf.
      destruct (decide (key x = key x)); [discriminate | congruence].
    + assert (Hin1 : forall z, z ∈ x :: l1 -> key_le (key x) (key z)).
      { intros z Hz. apply elem_of_cons in Hz as [-> | Hz]; [apply lt_irrefl |].
        eapply Forall_forall in Hx; [exact Hx | exact Hz]. }
      assert (Hin2 : forall z, z ∈ y :: l2 -> key_le (key y) (key z)).
      { intros z Hz. apply elem_of_cons in Hz as [-> | Hz]; [apply lt_irrefl |].
        eapply Forall_forall in Hy; [exact Hy | exact Hz]. }
      assert (Hmem : forall z, z ∈ x :: l1 <-> z ∈ y :: l2).
      { intros z. split; intros Hz.
        - assert (Hz' : z ∈ filter (fun y0 => key y0 = key z) (x :: l1))
            by (apply list_elem_of_filter; auto).
          rewrite Hf in Hz'. now apply list_elem_of_filter in Hz'.
        - assert (Hz' : z ∈ filter (fun y0 => key y0 = key z) (y :: l2))
            by (apply list_elem_of_filter; auto).
          rewrite <- Hf in Hz'. now apply list_elem_of_filter in Hz'. }
      assert (Hk : key x = key y).
      { apply lt_total.
        - apply (Hin2 x), Hmem. left.
        - apply (Hin1 y), Hmem. left. }
      assert (Hxy : x = y).
      { specialize (Hf (key x)). rewrite !filter_cons in Hf.
        destruct (decide (key x = key x)); [| congruence].
        destruct (decide (key y = key x)); [| congruence].
        congruence. }
      subst y. f_equal. apply IH; [exact Hs2 |].
      intros k. specialize (Hf k). rewrite !filter_cons in Hf.
      destruct (decide (key x = k)); congruence.
Qed.

(** Whatever sorts stably by [key] returns [sort_by lt key l]. *)
Lemma sort_by_unique (l l' : list A) :
  StronglySorted ascending l' ->
  (forall k, filter (fun y => key y = k) l' = filter (fun y => key y = k) l) ->
  l' = sort_by lt key l.
Proof.
  intros Hs Hf. apply ascending_stable_unique; [exact Hs | apply sort_by_sorted |].
  intros k. now rewrite sort_by_stable.
Qed.

End SortBy.

(** ** The order of strings and of sort keys *)

Section KeyOrder.
Import Py.

Lemma string_compare_refl (s : string) : String.compare s s = Eq.
Proof.
  induction s as [|a s IH]; simpl; [reflexivity |].
  unfold Ascii.compare. now rewrite N.compare_refl.
Qed.

Lemma string_compare_lt_trans (s1 s2 s3 : string) :
  String.compare s1 s2 = Lt -> String.compare s2 s3 = Lt -> String.compare s1 s3 = Lt.
Proof.
  revert s2 s3. induction s1 as [|a s1 IH]; intros [|b s2] [|d s3]; simpl;
    try discriminate; try reflexivity.
  unfold Ascii.compare.
  destruct (N.compare_spec (N_of_ascii a) (N_of_ascii b)) as [Hab|Hab|Hab];
    try discriminate;
    destruct (N.compare_spec (N_of_ascii b) (N_of_ascii d)) as [Hbd|Hbd|Hbd];
    try discriminate; intros H12 H23.
  - rewrite Hab, Hbd, N.compare_refl. eapply IH; eassumption.
  - rewrite Hab. now apply N.compare_lt_iff in Hbd as ->.
  - rewrite <- Hbd. now apply N.compare_lt_iff in Hab as ->.
  - assert (Had : (N_of_ascii a < N_of_ascii d)%N) by lia.
    now apply N.compare_lt_iff in Had as ->.
Qed.

Lemma string_ltb_irrefl (s : string) : String.ltb s s = false.
Proof. unfold String.ltb. now rewrite string_compare_refl. Qed.

Lemma string_ltb_trans (s1 s2 s3 : string) :
  String.ltb s1 s2 = true -> String.ltb s2 s3 = true -> String.ltb s1 s3 = true.
Proof.
  unfold String.ltb. intros H12 H23.
  rewrite (string_compare_lt_trans s1 s2 s3); [reflexivity | |].
  - destruct (String.compare s1 s2); congruence.
  - destruct (String.compare s2 s3); congruence.
Qed.

Lemma string_ltb_total (s1 s2 : string) :
  String.ltb s1 s2 = false -> String.ltb s2 s1 = false -> s1 = s2.
Proof.
  unfold String.ltb. rewrite (String.compare_antisym s2 s1).
  destruct (String.compare s1 s2) eqn:Hc; simpl; try discriminate.
  intros _ _. now apply String.compare_eq_iff.
Qed.

Lemma key_lt_irrefl (x : Z * string) : key_lt x x = false.
Proof.
  unfold key_lt. rewrite Z.ltb_irrefl, Z.eqb_refl, string_ltb_irrefl. reflexivity.
Qed.

Lemma key_lt_spec (x y : Z * string) :
  key_lt x y = true <-> x.1 < y.1 \/ (x.1 = y.1 /\ String.ltb x.2 y.2 = true).
Proof.
  unfold key_lt. rewrite orb_true_iff, andb_true_iff, Z.ltb_lt, Z.eqb_eq.
  reflexivity.
Qed.

Lemma key_lt_trans (x y z : Z * string) :
  key_lt x y = true -> key_lt y z = true -> key_lt x z = true.
Proof.
  rewrite !key_lt_spec. intros [Hxy | [Hxy Hs1]] [Hyz | [Hyz Hs2]].
  - left. lia.
  - left. lia.
  - left. lia.
  - right. split; [lia |]. eapply string_ltb_trans; eassumption.
Qed.

Lemma key_lt_total (x y : Z * string) :
  key_lt x y = false -> key_lt y x = false -> x = y.
Proof.
  destruct x as [i s], y as [j u]. unfold key_lt. simpl.
  rewrite !orb_false_iff, !andb_false_iff, !Z.ltb_ge, !Z.eqb_neq.
  intros [Hij Hs1] [Hji Hs2].
  assert (i = j) by lia. subst j. f_equal.
  apply string_ltb_total; [destruct Hs1 | destruct Hs2]; congruence.
Qed.

End KeyOrder.

(** ** The bottleneck resolver *)

Section ResolverFacts.
Import Py Bottleneck.
Context `{Builtins} `{Api}.

Lemma heap_ratio_Ok (hu hm : float) :
  heap_ratio hu hm = Ok (if gt hm 0%float then PrimFloat.div hu hm else 0%float).
Proof.
  unfold heap_ratio. destruct (gt hm 0%float) eqn:Hm; [|reflexivity].
  now apply truediv_guarded.
Qed.

Lemma average_latency_ms_Ok (ls lc : float) :
  average_latency_ms ls lc
  = Ok (if gt lc 0%float then PrimFloat.mul (PrimFloat.div ls lc) 1000%float
        else 0%float).
Proof.
  unfold average_latency_ms. destruct (gt lc 0%float) eqn:Hc; [|reflexivity].
  now rewrite truediv_guarded.
Qed.

Lemma error_percent_Ok (er rr : float) :
  error_percent er rr
  = Ok (if gt rr 0%float then PrimFloat.mul (PrimFloat.div er rr) 100%float
        else 0%float).
Proof.
  unfold error_percent. destruct (gt rr 0%float) eqn:Hr; [|reflexivity].
  now rewrite truediv_guarded.
Qed.

(** Only [int(threads)] can fail among the numbers of a service. *)
Lemma service_metrics_Ok (q : Snapshots) (svc : string) (v : Locals) :
  service_metrics q svc = Ok v <->
  exists n, int_of_float (get (threads q) svc 0%float) = Ok n /\
    v = {| c := get (cpu q) svc 0%float;
           hp := (let hm := get (heap_max q) svc 0%float in
                  if gt hm 0%float
                  then PrimFloat.div (get (heap_used q) svc 0%float) hm
                  else 0%float);
           g := get (gc q) svc 0%float;
           t := n;
           rr := get (req_rate q) (svc ++ ":8080") (get (req_rate q) svc 0%float);
           avg_lat :=
             (let lc := get (lat_count q) (svc ++ ":8080")
                          (get (lat_count q) svc 0%float) in
              let ls := get (lat_sum q) (svc ++ ":8080")
                          (get (lat_sum q) svc 0%float) in
              if gt lc 0%float
              then PrimFloat.mul (PrimFloat.div ls lc) 1000%float else 0%float);
           err_pct :=
             (let rr := get (req_rate q) (svc ++ ":8080")
                          (get (req_rate q) svc 0%float) in
              let er := get (err_rate q) (svc ++ ":8080")
                          (get (err_rate q) svc 0%float) in
              if gt rr 0%float
              then PrimFloat.mul (PrimFloat.div er rr) 100%float else 0%float) |}.
Proof.
  unfold service_metrics.
  rewrite heap_ratio_Ok, average_latency_ms_Ok, error_percent_Ok. simpl.
  destruct (int_of_float _) as [n|e]; simpl.
  - split.
    + intros [= <-]. exists n. split; reflexivity.
    + intros (n' & [= <-] & ->). reflexivity.
  - split; [discriminate | intros (n' & Hn & _); discriminate].
Qed.

Lemma detect_signals_Ok (thresholds : gmap string float) (v : Locals)
    (cpu_top mem_top mutex_top : list Hotspot) (signals : list Signal) :
  detect_signals thresholds (c v) (g v) (hp v) (avg_lat v) cpu_top mem_top mutex_top
  = Ok signals <->
  exists cpuCutoff gcCutoff heapCutoff latencyCutoff,
    thresholds !! "cpu" = Some cpuCutoff /\
    thresholds !! "gc" = Some gcCutoff /\
    thresholds !! "heap_pct" = Some heapCutoff /\
    thresholds !! "latency_ms" = Some latencyCutoff /\
    signals = Spec.recorded_signals cpuCutoff gcCutoff heapCutoff latencyCutoff
                v cpu_top mem_top mutex_top.
Proof.
  unfold detect_signals, subscript.
  destruct (thresholds !! "cpu") as [tc|]; simpl;
    [|split; [discriminate | intros (?&?&?&?&?&_); discriminate]].
  destruct (thresholds !! "gc") as [tg|]; simpl;
    [|split; [discriminate | intros (?&?&?&?&_&?&_); discriminate]].
  destruct (thresholds !! "heap_pct") as [th|]; simpl;
    [|split; [discriminate | intros (?&?&?&?&_&_&?&_); discriminate]].
  destruct (thresholds !! "latency_ms") as [tl|]; simpl;
    [|split; [discriminate | intros (?&?&?&?&_&_&_&?&_); discriminate]].
  assert (Heq :
    (let signals0 : list Signal := [] in
     let signals1 := if ge (c v) tc then append signals0 ("cpu-bound", c v, cpu_top) else signals0 in
     let signals2 := if ge (g v) tg then append signals1 ("gc-bound", g v, mem_top) else signals1 in
     let signals3 := if ge (hp v) th then append signals2 ("memory-pressure", hp v, mem_top) else signals2 in
     let signals4 := match mutex_top with
                     | f :: _ => if gt (self_pct f) 5%float
                                 then append signals3 ("lock-bound", self_pct f, mutex_top)
                                 else signals3
                     | [] => signals3
                     end in
     if gt (avg_lat v) tl && is_empty signals4
     then append signals4 ("io-bound", avg_lat v, [])
     else signals4)
    = Spec.recorded_signals tc tg th tl v cpu_top mem_top mutex_top).
  { unfold Spec.recorded_signals, Spec.prior_signals, Spec.lock_fires, append.
    destruct (ge (c v) tc), (ge (g v) tg), (ge (hp v) th), mutex_top as [|f fs];
      simpl; try destruct (gt (self_pct f) 5%float); simpl;
      destruct (gt (avg_lat v) tl); reflexivity. }
  simpl in Heq. rewrite Heq. split.
  - intros [= <-]. exists tc, tg, th, tl. repeat split; reflexivity.
  - intros (?&?&?&?& [= <-] & [= <-] & [= <-] & [= <-] & ->). reflexivity.
Qed.

Lemma analyze_service_Ok (q : Snapshots) (pyroscope : string) (pyro_ok : bool)
    (thresholds : gmap string float) (svc : string) (r : Result) :
  analyze_service q pyroscope pyro_ok thresholds svc = Ok r <->
  exists v signals,
    let pyro_name := get SVC_MAP svc svc in
    let cpu_top := _pyro_top pyroscope pyro_ok pyro_name CPU_PROFILE 3 in
    let mem_top := _pyro_top pyroscope pyro_ok pyro_name MEM_PROFILE 3 in
    let mutex_top := _pyro_top pyroscope pyro_ok pyro_name MUTEX_PROFILE 3 in
    service_metrics q svc = Ok v /\
    detect_signals thresholds (c v) (g v) (hp v) (avg_lat v) cpu_top mem_top mutex_top
    = Ok signals /\
    r = make_result svc pyro_name v cpu_top mem_top mutex_top signals.
Proof.
  unfold analyze_service. rewrite bind_Ok. split.
  - intros (v & Hv & Hrest). apply bind_Ok in Hrest as (signals & Hs & [= <-]).
    exists v, signals. simpl. auto.
  - intros (v & signals & Hv & Hs & ->). exists v. split; [exact Hv |].
    apply bind_Ok. exists signals. split; [exact Hs | reflexivity].
Qed.

Lemma make_result_verdict (svc pyro_name : string) (v : Locals)
    (cpu_top mem_top mutex_top : list Hotspot) (signals : list Signal) :
  verdict (make_result svc pyro_name v cpu_top mem_top mutex_top signals)
  = match signals with
    | [] => "healthy"
    | primary :: _ => kind primary
    end.
Proof. unfold make_result. destruct signals; reflexivity. Qed.

Lemma make_result_severity (svc pyro_name : string) (v : Locals)
    (cpu_top mem_top mutex_top : list Hotspot) (signals : list Signal) :
  severity (make_result svc pyro_name v cpu_top mem_top mutex_top signals)
  = match signals with
    | [] => "ok"
    | _ :: _ => Spec.severity v
    end.
Proof. unfold make_result. destruct signals; reflexivity. Qed.

(** The kinds of the recorded signals follow the priority order. *)
Lemma recorded_signals_in_order (tc tg th tl : float) (v : Locals)
    (cpu_top mem_top mutex_top : list Hotspot) :
  sublist (map kind (Spec.recorded_signals tc tg th tl v cpu_top mem_top mutex_top))
    Spec.priority.
Proof.
  unfold Spec.recorded_signals, Spec.prior_signals, Spec.lock_fires, Spec.priority.
  destruct (ge (c v) tc), (ge (g v) tg), (ge (hp v) th), mutex_top as [|f fs];
    simpl; try destruct (gt (self_pct f) 5%float); simpl;
    destruct (gt (avg_lat v) tl); simpl;
    repeat first [apply sublist_nil | apply sublist_skip | apply sublist_cons].
Qed.

(** C1. Signals are recorded in the fixed order cpu-bound, gc-bound,
    memory-pressure, lock-bound, io-bound, and the verdict of a service is
    the kind of the first recorded signal, whatever the magnitudes: as soon
    as the cpu rate reaches the cpu cutoff the verdict is cpu-bound, and when
    the GC rate reaches the gc cutoff too, gc-bound is recorded second and is
    not the verdict. *)
Theorem verdict_is_first_recorded_signal
    (q : Snapshots) (pyroscope : string) (pyro_ok : bool)
    (thresholds : gmap string float) (svc : string) (r : Result) (v : Locals)
    (cpuCutoff gcCutoff : float) :
  analyze_service q pyroscope pyro_ok thresholds svc = Ok r ->
  service_metrics q svc = Ok v ->
  thresholds !! "cpu" = Some cpuCutoff ->
  thresholds !! "gc" = Some gcCutoff ->
  exists signals,
    detect_signals thresholds (c v) (g v) (hp v) (avg_lat v)
      (_pyro_top pyroscope pyro_ok (get SVC_MAP svc svc) CPU_PROFILE 3)
      (_pyro_top pyroscope pyro_ok (get SVC_MAP svc svc) MEM_PROFILE 3)
      (_pyro_top pyroscope pyro_ok (get SVC_MAP svc svc) MUTEX_PROFILE 3)
    = Ok signals /\
    sublist (map kind signals) Spec.priority /\
    verdict r = match signals with [] => "healthy" | first :: _ => kind first end /\
    (ge (c v) cpuCutoff = true -> verdict r = "cpu-bound") /\
    (ge (c v) cpuCutoff = true -> ge (g v) gcCutoff = true ->
     map kind (take 2 signals) = ["cpu-bound"; "gc-bound"]).
Proof.
  intros Hr Hv Hcpu Hgc.
  apply analyze_service_Ok in Hr as (v' & signals & Hv' & Hs & ->).
  simpl in Hv', Hs. rewrite Hv in Hv'. injection Hv' as <-.
  exists signals. split; [exact Hs |].
  apply detect_signals_Ok in Hs as (tc & tg & th & tl & Hc' & Hg' & _ & _ & ->).
  rewrite Hcpu in Hc'. injection Hc' as <-. rewrite Hgc in Hg'. injection Hg' as <-.
  split; [apply recorded_signals_in_order |].
  rewrite make_result_verdict. split; [reflexivity |].
  unfold Spec.recorded_signals, Spec.prior_signals.
  split.
  - intros ->. reflexivity.
  - intros -> ->. reflexivity.
Qed.

(** None of the signals recorded before the latency test is io-bound, and
    there is none exactly when none of the four conditions holds. *)
Lemma prior_signals_spec (cpuCutoff gcCutoff heapCutoff : float) (v : Locals)
    (cpu_top mem_top mutex_top : list Hotspot) :
  let prior :=
    Spec.prior_signals cpuCutoff gcCutoff heapCutoff v cpu_top mem_top mutex_top in
  Forall (fun s => kind s <> "io-bound") prior
  /\ (prior = []
      <-> ge (c v) cpuCutoff || ge (g v) gcCutoff || ge (hp v) heapCutoff
          || Spec.lock_fires mutex_top = false).
Proof.
  cbn zeta. unfold Spec.prior_signals.
  destruct (ge (c v) cpuCutoff), (ge (g v) gcCutoff), (ge (hp v) heapCutoff),
    mutex_top as [|f fs]; cbn [orb app Spec.lock_fires];
    try destruct (gt (self_pct f) 5%float); cbn [app];
    (split; [repeat constructor; discriminate | split; (reflexivity || discriminate)]).
Qed.

(** C2. The io-bound signal is recorded only when no other signal fired: the
    list of recorded signals holds io-bound exactly when it is io-bound
    alone, which is when none of cpu-bound, gc-bound, memory-pressure and
    lock-bound fired and the average latency is strictly greater than its
    cutoff (a latency equal to the cutoff is not enough); the four others
    are recorded whenever they fire. So as soon as one of the four fired,
    io-bound is neither recorded nor the verdict, whatever the latency, and
    the verdict is io-bound exactly when io-bound is recorded. *)
Theorem io_bound_only_without_other_signal
    (q : Snapshots) (pyroscope : string) (pyro_ok : bool)
    (thresholds : gmap string float) (svc : string) (r : Result) (v : Locals)
    (signals : list Signal)
    (cpuCutoff gcCutoff heapCutoff latencyCutoff : float) :
  analyze_service q pyroscope pyro_ok thresholds svc = Ok r ->
  service_metrics q svc = Ok v ->
  detect_signals thresholds (c v) (g v) (hp v) (avg_lat v)
    (_pyro_top pyroscope pyro_ok (get SVC_MAP svc svc) CPU_PROFILE 3)
    (_pyro_top pyroscope pyro_ok (get SVC_MAP svc svc) MEM_PROFILE 3)
    (_pyro_top pyroscope pyro_ok (get SVC_MAP svc svc) MUTEX_PROFILE 3)
  = Ok signals ->
  thresholds !! "cpu" = Some cpuCutoff ->
  thresholds !! "gc" = Some gcCutoff ->
  thresholds !! "heap_pct" = Some heapCutoff ->
  thresholds !! "latency_ms" = Some latencyCutoff ->
  let mutex_top :=
    _pyro_top pyroscope pyro_ok (get SVC_MAP svc svc) MUTEX_PROFILE 3 in
  let fired :=
    ge (c v) cpuCutoff || ge (g v) gcCutoff || ge (hp v) heapCutoff
    || Spec.lock_fires mutex_top in
  let io_bound : Signal := ("io-bound", avg_lat v, []) in
  (In "io-bound" (map kind signals) <-> signals = [io_bound]) /\
  (signals = [io_bound]
   <-> fired = false /\ gt (avg_lat v) latencyCutoff = true) /\
  (fired = true <-> exists s, In s signals /\ kind s <> "io-bound") /\
  (fired = true ->
   ~ In "io-bound" (map kind signals) /\ verdict r <> "io-bound") /\
  (verdict r = "io-bound" <-> In "io-bound" (map kind signals)) /\
  (verdict r = "io-bound"
   <-> fired = false /\ gt (avg_lat v) latencyCutoff = true) /\
  (avg_lat v = latencyCutoff ->
   ~ In "io-bound" (map kind signals) /\ verdict r <> "io-bound").
Proof.
  intros Hr Hv Hs Hcpu Hgc Hheap Hlat mutex_top fired io_bound.
  apply analyze_service_Ok in Hr as (v' & signals' & Hv' & Hs' & ->).
  simpl in Hv', Hs'. rewrite Hv in Hv'. injection Hv' as <-.
  rewrite Hs in Hs'. injection Hs' as <-.
  apply detect_signals_Ok in Hs as (tc & tg & th & tl & Hc' & Hg' & Hh' & Hl' & ->).
  rewrite Hcpu in Hc'. injection Hc' as <-. rewrite Hgc in Hg'. injection Hg' as <-.
  rewrite Hheap in Hh'. injection Hh' as <-. rewrite Hlat in Hl'. injection Hl' as <-.
  rewrite make_result_verdict.
  unfold Spec.recorded_signals. cbn zeta.
  pose proof (prior_signals_spec cpuCutoff gcCutoff heapCutoff v
                (_pyro_top pyroscope pyro_ok (get SVC_MAP svc svc) CPU_PROFILE 3)
                (_pyro_top pyroscope pyro_ok (get SVC_MAP svc svc) MEM_PROFILE 3)
                mutex_top) as [Hkinds Hnil].
  cbn zeta in Hkinds, Hnil. fold mutex_top. fold fired in Hnil.
  set (prior := Spec.prior_signals _ _ _ _ _ _ _) in *.
  assert (Hno : ~ In "io-bound" (map kind prior)).
  { intros Hin. apply in_map_iff in Hin as (s & Hk & Hin).
    exact (proj1 (List.Forall_forall _ _) Hkinds s Hin Hk). }
  assert (Hgt : avg_lat v = latencyCutoff -> gt (avg_lat v) latencyCutoff = false)
    by (intros ->; apply gt_irrefl).
  destruct prior as [|s prior'].
  - assert (Hf : fired = false) by (apply Hnil; reflexivity).
    rewrite Hf. cbn [is_empty andb app].
    destruct (gt (avg_lat v) latencyCutoff) eqn:Hl; cbn [andb app map kind In].
    + split; [split; [reflexivity | intros _; left; reflexivity] |].
      split; [split; [split; reflexivity | reflexivity] |].
      split; [split; [discriminate |] |].
      { intros (s & [<- | []] & Hk). exfalso. apply Hk. reflexivity. }
      split; [discriminate |].
      split; [split; [intros _; left; reflexivity | reflexivity] |].
      split; [split; [split; reflexivity | reflexivity] |].
      intros Heq. specialize (Hgt Heq). discriminate.
    + split; [split; [intros [] | discriminate] |].
      split; [split; [discriminate | intros [_ Hx]; discriminate] |].
      split; [split; [discriminate | intros (s & [] & _)] |].
      split; [discriminate |].
      split; [split; [discriminate | intros []] |].
      split; [split; [discriminate | intros [_ Hx]; discriminate] |].
      intros _. split; [intros [] | discriminate].
  - assert (Hf : fired = true).
    { destruct fired; [reflexivity |]. destruct Hnil as [_ Hnil].
      specialize (Hnil eq_refl). discriminate. }
    rewrite Hf. cbn [is_empty andb]. rewrite andb_false_r, app_nil_r.
    assert (Hs0 : kind s <> "io-bound") by (inversion Hkinds; assumption).
    assert (Hne : s :: prior' <> [io_bound]).
    { intros Heq. injection Heq as -> _. apply Hs0. reflexivity. }
    split; [split; [intros Hin; exfalso; apply Hno, Hin | intros Heq; contradiction] |].
    split; [split; [intros Heq; contradiction | intros [Hx _]; discriminate] |].
    split; [split; [| reflexivity] |].
    { intros _. exists s. split; [left; reflexivity | exact Hs0]. }
    split; [intros _; split; [exact Hno | exact Hs0] |].
    split; [split; [intros Hk; contradiction | intros Hin; exfalso; apply Hno, Hin] |].
    split; [split; [intros Hk; contradiction | intros [Hx _]; discriminate] |].
    intros _. split; [exact Hno | exact Hs0].
Qed.

(** C3. Whenever at least one signal fired, the severity does not depend on
    the signal that won: it is critical exactly when the cpu rate is at least
    0.8, or the heap ratio at least 0.85, or the GC rate at least 0.1, and
    warning otherwise; a cpu rate of at least 0.8 makes it critical whatever
    the verdict, io-bound included. *)
Theorem severity_ignores_the_winning_signal
    (q : Snapshots) (pyroscope : string) (pyro_ok : bool)
    (thresholds : gmap string float) (svc : string) (r : Result) (v : Locals)
    (signals : list Signal) :
  analyze_service q pyroscope pyro_ok thresholds svc = Ok r ->
  service_metrics q svc = Ok v ->
  detect_signals thresholds (c v) (g v) (hp v) (avg_lat v)
    (_pyro_top pyroscope pyro_ok (get SVC_MAP svc svc) CPU_PROFILE 3)
    (_pyro_top pyroscope pyro_ok (get SVC_MAP svc svc) MEM_PROFILE 3)
    (_pyro_top pyroscope pyro_ok (get SVC_MAP svc svc) MUTEX_PROFILE 3)
  = Ok signals ->
  signals <> [] ->
  severity r = Spec.severity v /\
  (severity r = "critical"
   <-> ge (c v) 0.8%float = true \/ ge (hp v) 0.85%float = true
       \/ ge (g v) 0.1%float = true) /\
  (severity r = "warning"
   <-> ge (c v) 0.8%float = false /\ ge (hp v) 0.85%float = false
       /\ ge (g v) 0.1%float = false) /\
  (ge (c v) 0.8%float = true -> severity r = "critical").
Proof.
  intros Hr Hv Hs Hne.
  apply analyze_service_Ok in Hr as (v' & signals' & Hv' & Hs' & ->).
  simpl in Hv', Hs'. rewrite Hv in Hv'. injection Hv' as <-.
  rewrite Hs in Hs'. injection Hs' as <-.
  rewrite make_result_severity. destruct signals as [|s rest]; [congruence |].
  unfold Spec.severity.
  destruct (ge (c v) 0.8%float), (ge (hp v) 0.85%float), (ge (g v) 0.1%float);
    simpl; intuition (auto; discriminate).
Qed.

Lemma analyze_service_healthy_xor_alarm
    (q : Snapshots) (pyroscope : string) (pyro_ok : bool)
    (thresholds : gmap string float) (svc : string) (r : Result) :
  analyze_service q pyroscope pyro_ok thresholds svc = Ok r -> Spec.healthy_xor_alarm r.
Proof.
  intros Hr. apply analyze_service_Ok in Hr as (v & signals & _ & Hs & ->).
  simpl in Hs.
  apply detect_signals_Ok in Hs as (tc & tg & th & tl & _ & _ & _ & _ & Hsig).
  unfold Spec.healthy_xor_alarm. rewrite make_result_verdict, make_result_severity.
  pose proof (recorded_signals_in_order tc tg th tl v
                (_pyro_top pyroscope pyro_ok (get SVC_MAP svc svc) CPU_PROFILE 3)
                (_pyro_top pyroscope pyro_ok (get SVC_MAP svc svc) MEM_PROFILE 3)
                (_pyro_top pyroscope pyro_ok (get SVC_MAP svc svc) MUTEX_PROFILE 3))
    as Hsub.
  rewrite <- Hsig in Hsub. destruct signals as [|s rest]; [left; auto |].
  right. split.
  - assert (Hin : kind s ∈ Spec.priority).
    { eapply elem_of_sublist; [| exact Hsub]. simpl. left. }
    unfold Spec.priority in Hin.
    repeat (apply elem_of_cons in Hin as [-> | Hin]; [discriminate |]).
    inversion Hin.
  - unfold Spec.severity. destruct (_ || _); auto.
Qed.

Lemma count_if_cons {A : Type} (p : A -> bool) (x : A) (l : list A) :
  count_if p (x :: l) = (if p x then 1 else 0) + count_if p l.
Proof.
  unfold count_if. simpl. destruct (p x); simpl length; lia.
Qed.

Lemma counts_add_up (results : list Result) :
  Forall Spec.healthy_xor_alarm results ->
  count_if (fun r => String.eqb (severity r) "critical") results
  + count_if (fun r => String.eqb (severity r) "warning") results
  + count_if (fun r => String.eqb (verdict r) "healthy") results
  = Z.of_nat (length results).
Proof.
  induction 1 as [|r results Hr _ IH].
  - reflexivity.
  - rewrite !count_if_cons. simpl length. rewrite Nat2Z.inj_succ, <- IH.
    destruct Hr as [[-> ->] | [Hv [-> | ->]]]; simpl;
      try (apply String.eqb_neq in Hv; rewrite Hv); lia.
Qed.

Lemma analyze_results (prometheus pyroscope : string) (prom_ok pyro_ok : bool)
    (service_filter : string) (thresholds : gmap string float)
    (results : list Result) (r : Result) :
  analyze prometheus pyroscope prom_ok pyro_ok service_filter thresholds = Ok results ->
  In r results ->
  exists svc,
    analyze_service (snapshots prometheus prom_ok) pyroscope pyro_ok thresholds svc
    = Ok r.
Proof.
  unfold analyze. intros Ha Hin.
  apply bind_Ok in Ha as (results0 & Hfe & [= <-]).
  apply sort_by_In in Hin.
  destruct (for_each_elem _ _ _ _ Hfe Hin) as (svc & _ & Hsvc). eauto.
Qed.

(** The resolver returns a result for a service as soon as the thresholds
    hold the four cutoffs it reads and the thread count is a finite number. *)
Lemma analyze_service_returns (q : Snapshots) (pyroscope : string) (pyro_ok : bool)
    (thresholds : gmap string float) (svc : string) :
  is_Some (thresholds !! "cpu") -> is_Some (thresholds !! "gc") ->
  is_Some (thresholds !! "heap_pct") -> is_Some (thresholds !! "latency_ms") ->
  is_ok (int_of_float (get (threads q) svc 0%float)) = true ->
  exists r, analyze_service q pyroscope pyro_ok thresholds svc = Ok r.
Proof.
  intros [tc Hc] [tg Hg] [th Hh] [tl Hl] Hn.
  destruct (int_of_float (get (threads q) svc 0%float)) as [n|e] eqn:Hint;
    [| discriminate].
  eexists. apply analyze_service_Ok. eexists. eexists. simpl.
  split; [apply service_metrics_Ok; exists n; split; [exact Hint | reflexivity] |].
  split; [| reflexivity].
  apply detect_signals_Ok. exists tc, tg, th, tl. repeat split; assumption.
Qed.

(** C10. In every result of the resolver the verdict is healthy if and only
    if the severity is ok, a fired signal giving warning or critical: the
    result is healthy and ok exactly when the list of recorded signals is
    empty, which is when none of the five conditions holds; with a signal
    recorded the verdict is the kind of the first one, never healthy, and
    the severity is warning or critical. Hence the critical, warning and
    healthy counts of the summary of a report add up to its total. *)
Theorem healthy_iff_ok_and_summary_adds_up :
  (forall q pyroscope pyro_ok thresholds svc r,
     analyze_service q pyroscope pyro_ok thresholds svc = Ok r ->
     (verdict r = "healthy" <-> severity r = "ok")
     /\ (verdict r <> "healthy"
         <-> severity r = "warning" \/ severity r = "critical")) /\
  (forall q pyroscope pyro_ok thresholds svc r v signals
          cpuCutoff gcCutoff heapCutoff latencyCutoff,
     analyze_service q pyroscope pyro_ok thresholds svc = Ok r ->
     service_metrics q svc = Ok v ->
     detect_signals thresholds (c v) (g v) (hp v) (avg_lat v)
       (_pyro_top pyroscope pyro_ok (get SVC_MAP svc svc) CPU_PROFILE 3)
       (_pyro_top pyroscope pyro_ok (get SVC_MAP svc svc) MEM_PROFILE 3)
       (_pyro_top pyroscope pyro_ok (get SVC_MAP svc svc) MUTEX_PROFILE 3)
     = Ok signals ->
     thresholds !! "cpu" = Some cpuCutoff ->
     thresholds !! "gc" = Some gcCutoff ->
     thresholds !! "heap_pct" = Some heapCutoff ->
     thresholds !! "latency_ms" = Some latencyCutoff ->
     (signals = [] <-> verdict r = "healthy")
     /\ (signals = [] <-> severity r = "ok")
     /\ (signals <> []
         <-> ge (c v) cpuCutoff = true \/ ge (g v) gcCutoff = true
             \/ ge (hp v) heapCutoff = true
             \/ Spec.lock_fires
                  (_pyro_top pyroscope pyro_ok (get SVC_MAP svc svc) MUTEX_PROFILE 3)
                = true
             \/ gt (avg_lat v) latencyCutoff = true)
     /\ (forall s rest,
           signals = s :: rest ->
           verdict r = kind s /\ verdict r <> "healthy"
           /\ (severity r = "warning" \/ severity r = "critical"))) /\
  (forall prometheus pyroscope prom_ok pyro_ok service_filter thresholds results r,
     analyze prometheus pyroscope prom_ok pyro_ok service_filter thresholds
     = Ok results ->
     In r results ->
     (verdict r = "healthy" <-> severity r = "ok")) /\
  (forall args report,
     main args = Ok report ->
     total (summary report) = Z.of_nat (length (services report))
     /\ critical (summary report) + warning (summary report)
        + healthy (summary report)
        = total (summary report)).
Proof.
  assert (Hone : forall r, Spec.healthy_xor_alarm r ->
            (verdict r = "healthy" <-> severity r = "ok")
            /\ (verdict r <> "healthy"
                <-> severity r = "warning" \/ severity r = "critical")).
  { intros r [[Hv Hs] | [Hv [Hs | Hs]]]; rewrite Hs; try rewrite Hv;
      intuition (auto; discriminate). }
  split; [| split; [| split]].
  - intros q pyroscope pyro_ok thresholds svc r Hr.
    apply Hone. eapply analyze_service_healthy_xor_alarm, Hr.
  - intros q pyroscope pyro_ok thresholds svc r v signals
      cpuCutoff gcCutoff heapCutoff latencyCutoff Hr Hv Hs Hcpu Hgc Hheap Hlat.
    pose proof (analyze_service_healthy_xor_alarm _ _ _ _ _ _ Hr) as Hx.
    apply analyze_service_Ok in Hr as (v' & signals' & Hv' & Hs' & ->).
    simpl in Hv', Hs'. rewrite Hv in Hv'. injection Hv' as <-.
    rewrite Hs in Hs'. injection Hs' as <-.
    unfold Spec.healthy_xor_alarm in Hx.
    rewrite make_result_verdict, make_result_severity in Hx |- *.
    apply detect_signals_Ok in Hs
      as (tc & tg & th & tl & Hc' & Hg' & Hh' & Hl' & Hsig).
    rewrite Hcpu in Hc'. injection Hc' as <-. rewrite Hgc in Hg'. injection Hg' as <-.
    rewrite Hheap in Hh'. injection Hh' as <-. rewrite Hlat in Hl'. injection Hl' as <-.
    assert (Hfired :
      signals <> []
      <-> ge (c v) cpuCutoff = true \/ ge (g v) gcCutoff = true
          \/ ge (hp v) heapCutoff = true
          \/ Spec.lock_fires
               (_pyro_top pyroscope pyro_ok (get SVC_MAP svc svc) MUTEX_PROFILE 3)
             = true
          \/ gt (avg_lat v) latencyCutoff = true).
    { rewrite Hsig. unfold Spec.recorded_signals, Spec.prior_signals. cbn zeta.
      destruct (ge (c v) cpuCutoff), (ge (g v) gcCutoff), (ge (hp v) heapCutoff),
        (_pyro_top pyroscope pyro_ok (get SVC_MAP svc svc) MUTEX_PROFILE 3)
        as [|f fs]; cbn [app Spec.lock_fires is_empty andb];
        try destruct (gt (self_pct f) 5%float); cbn [app is_empty andb];
        destruct (gt (avg_lat v) latencyCutoff); cbn [app is_empty andb];
        (split; [intros Hne; first [congruence | tauto]
                | intros Hor; first [discriminate
                                    | destruct Hor as [?|[?|[?|[?|?]]]]; discriminate]]). }
    clear Hsig.
    destruct signals as [|s rest].
    + split; [split; reflexivity |]. split; [split; reflexivity |].
      split; [exact Hfired |]. intros s rest Heq. discriminate.
    + assert (Hk : kind s <> "healthy").
      { destruct Hx as [[_ Hs'] | [Hv' _]]; [| exact Hv'].
        unfold Spec.severity in Hs'. destruct (_ || _ || _); discriminate. }
      assert (Hsev : Spec.severity v = "warning" \/ Spec.severity v = "critical").
      { unfold Spec.severity. destruct (_ || _ || _); auto. }
      split; [split; [discriminate | intros Hv'; contradiction] |].
      split; [split; [discriminate |] |].
      { intros Hok. destruct Hsev as [Hw | Hw]; rewrite Hw in Hok; discriminate. }
      split; [exact Hfired |].
      intros s' rest' [= <- <-]. auto.
  - intros prometheus pyroscope prom_ok pyro_ok service_filter thresholds results r
      Ha Hin.
    destruct (analyze_results _ _ _ _ _ _ _ _ Ha Hin) as (svc & Hr).
    apply Hone. eapply analyze_service_healthy_xor_alarm, Hr.
  - intros args report Hm. unfold main in Hm.
    apply bind_Ok in Hm as (thresholds & _ & Hm).
    apply bind_Ok in Hm as (results & Ha & [= <-]). simpl.
    split; [reflexivity |].
    apply counts_add_up. apply Forall_forall. intros r Hin.
    apply list_elem_of_In in Hin.
    destruct (analyze_results _ _ _ _ _ _ _ _ Ha Hin) as (svc & Hr).
    eapply analyze_service_healthy_xor_alarm, Hr.
Qed.

End ResolverFacts.

(** Service [a] of the sample fleet: cpu rate 0.9 against the cutoff 0.3 and
    GC rate 0.95 against 0.03. The GC magnitude is the larger one, and the
    verdict is cpu-bound. *)
Lemma verdict_is_first_recorded_signal_example :
  Py.fmap Bottleneck.verdict
    (Bottleneck.analyze_service Fixture.snapshots "pyroscope" true
       Bottleneck.DEFAULT_THRESHOLDS "a")
  = Py.Ok "cpu-bound".
Proof.
  destruct (Bottleneck.analyze_service Fixture.snapshots "pyroscope" true
              Bottleneck.DEFAULT_THRESHOLDS "a") as [r|e] eqn:Hr;
    [| vm_compute in Hr; discriminate].
  destruct (Bottleneck.service_metrics Fixture.snapshots "a") as [v|e] eqn:Hv;
    [| vm_compute in Hv; discriminate].
  destruct (verdict_is_first_recorded_signal Fixture.snapshots "pyroscope" true
              Bottleneck.DEFAULT_THRESHOLDS "a" r v 0.3%float 0.03%float Hr Hv)
    as (signals & _ & _ & _ & Hcpu & _);
    [vm_compute; reflexivity | vm_compute; reflexivity |].
  simpl. f_equal. apply Hcpu.
  vm_compute in Hv. injection Hv as <-. vm_compute. reflexivity.
Defined.

(** The report of the sample fleet under the default thresholds: three
    services, two critical, one warning, none healthy. *)
Example main_summary_example :
  Py.fmap Bottleneck.summary
    (Bottleneck.main
       {| Bottleneck.prometheus_url := "prometheus";
          Bottleneck.pyroscope_url := "pyroscope";
          Bottleneck.prom_ok := true;
          Bottleneck.pyro_ok := true;
          Bottleneck.json_mode := true;
          Bottleneck.service_filter := "";
          Bottleneck.threshold_str := "" |})
  = Py.Ok {| Bottleneck.total := 3; Bottleneck.critical := 2;
             Bottleneck.warning := 1; Bottleneck.healthy := 0 |}.
Proof. vm_compute. reflexivity. Qed.

(** Service [d] of the sample data under the override [cpu=0.95]: nothing
    but the latency fires (900 ms against 500 ms), so the verdict is
    io-bound. *)
Lemma io_bound_only_without_other_signal_example :
  Py.fmap Bottleneck.verdict
    (Bottleneck.analyze_service Fixture.slow "pyroscope" false
       (<["cpu" := 0.95%float]> Bottleneck.DEFAULT_THRESHOLDS) "d")
  = Py.Ok "io-bound".
Proof.
  destruct (Bottleneck.analyze_service Fixture.slow "pyroscope" false
              (<["cpu" := 0.95%float]> Bottleneck.DEFAULT_THRESHOLDS) "d")
    as [r|e] eqn:Hr; [| vm_compute in Hr; discriminate].
  destruct (Bottleneck.service_metrics Fixture.slow "d") as [v|e] eqn:Hv;
    [| vm_compute in Hv; discriminate].
  destruct (Bottleneck.detect_signals
              (<["cpu" := 0.95%float]> Bottleneck.DEFAULT_THRESHOLDS)
              (Bottleneck.c v) (Bottleneck.g v) (Bottleneck.hp v)
              (Bottleneck.avg_lat v)
              (Bottleneck._pyro_top "pyroscope" false
                 (Py.get Api.SVC_MAP "d" "d") Bottleneck.CPU_PROFILE 3)
              (Bottleneck._pyro_top "pyroscope" false
                 (Py.get Api.SVC_MAP "d" "d") Bottleneck.MEM_PROFILE 3)
              (Bottleneck._pyro_top "pyroscope" false
                 (Py.get Api.SVC_MAP "d" "d") Bottleneck.MUTEX_PROFILE 3))
    as [signals|e] eqn:Hs;
    [| vm_compute in Hv; injection Hv as <-; vm_compute in Hs; discriminate].
  destruct (io_bound_only_without_other_signal Fixture.slow "pyroscope" false
              (<["cpu" := 0.95%float]> Bottleneck.DEFAULT_THRESHOLDS) "d" r v signals
              0.95%float 0.03%float 0.75%float 500%float Hr Hv Hs)
    as (_ & _ & _ & _ & _ & Hio & _); try (vm_compute; reflexivity).
  simpl. f_equal. apply Hio.
  vm_compute in Hv. injection Hv as <-. vm_compute. split; reflexivity.
Defined.

(** The same service: its verdict is io-bound, its cpu rate 0.9 is above 0.8,
    and its severity is critical. *)
Lemma severity_ignores_the_winning_signal_example :
  Py.fmap (fun r => (Bottleneck.verdict r, Bottleneck.severity r))
    (Bottleneck.analyze_service Fixture.slow "pyroscope" false
       (<["cpu" := 0.95%float]> Bottleneck.DEFAULT_THRESHOLDS) "d")
  = Py.Ok ("io-bound", "critical").
Proof.
  destruct (Bottleneck.analyze_service Fixture.slow "pyroscope" false
              (<["cpu" := 0.95%float]> Bottleneck.DEFAULT_THRESHOLDS) "d")
    as [r|e] eqn:Hr; [| vm_compute in Hr; discriminate].
  destruct (Bottleneck.service_metrics Fixture.slow "d") as [v|e] eqn:Hv;
    [| vm_compute in Hv; discriminate].
  destruct (Bottleneck.detect_signals
              (<["cpu" := 0.95%float]> Bottleneck.DEFAULT_THRESHOLDS)
              (Bottleneck.c v) (Bottleneck.g v) (Bottleneck.hp v)
              (Bottleneck.avg_lat v) [] [] []) as [signals|e] eqn:Hs;
    [| vm_compute in Hv; injection Hv as <-; vm_compute in Hs; discriminate].
  destruct (severity_ignores_the_winning_signal Fixture.slow "pyroscope" false
              (<["cpu" := 0.95%float]> Bottleneck.DEFAULT_THRESHOLDS) "d" r v
              signals Hr Hv Hs)
    as (_ & _ & _ & Hcrit).
  - vm_compute in Hv. injection Hv as <-. vm_compute in Hs. injection Hs as <-.
    discriminate.
  - simpl. rewrite Hcrit.
    + vm_compute in Hr. injection Hr as <-. reflexivity.
    + vm_compute in Hv. injection Hv as <-. reflexivity.
Defined.

(** ** The JVM health check *)

Section HealthFacts.
Import Py JvmHealth.
Context `{Builtins} `{Api}.

Lemma heap_pct_step_Ok (heap_max acc : gmap string float) (svc : string) (used : float) :
  heap_pct_step heap_max acc (svc, used)
  = Ok (match heap_max !! svc with
        | Some hm => if gt hm 0%float then <[svc := PrimFloat.div used hm]> acc else acc
        | None => acc
        end).
Proof.
  unfold heap_pct_step, contains_key, subscript. simpl.
  destruct (heap_max !! svc) as [hm|]; simpl; [|reflexivity].
  destruct (gt hm 0%float) eqn:Hm; [|reflexivity].
  now rewrite truediv_guarded.
Qed.

(** What the loop over a list of entries with distinct keys leaves in the dict. *)
Lemma for_fold_heap_pct (heap_max : gmap string float)
    (l : list (string * float)) (acc : gmap string float) :
  NoDup l.*1 ->
  exists m,
    for_fold (heap_pct_step heap_max) l acc = Ok m /\
    forall svc,
      m !! svc
      = match (list_to_map l : gmap string float) !! svc, heap_max !! svc with
        | Some used, Some hm =>
            if gt hm 0%float then Some (PrimFloat.div used hm) else acc !! svc
        | _, _ => acc !! svc
        end.
Proof.
  revert acc. induction l as [|[k u] l IH]; intros acc Hnd.
  - exists acc. split; [reflexivity |]. intros svc.
    change (list_to_map []) with (∅ : gmap string float).
    now rewrite lookup_empty.
  - apply NoDup_cons in Hnd as [Hk Hnd]. simpl for_fold.
    rewrite heap_pct_step_Ok. simpl bind.
    change (list_to_map ((k, u) :: l))
      with (<[k := u]> (list_to_map l : gmap string float)).
    destruct (IH (match heap_max !! k with
                  | Some hm =>
                      if gt hm 0%float then <[k := PrimFloat.div u hm]> acc else acc
                  | None => acc
                  end) Hnd) as (m & Hm & Hlook).
    exists m. split; [exact Hm |]. intros svc. rewrite Hlook.
    destruct (decide (k = svc)) as [<- | Hne].
    + rewrite lookup_insert_eq.
      rewrite (not_elem_of_list_to_map_1 l k Hk).
      destruct (heap_max !! k) as [hm|]; [|reflexivity].
      destruct (gt hm 0%float); [|reflexivity]. now rewrite lookup_insert_eq.
    + rewrite lookup_insert_ne by exact Hne.
      destruct (list_to_map l !! svc) as [used|] eqn:Hl;
        destruct (heap_max !! svc) as [hm'|];
        try destruct (gt hm' 0%float); try reflexivity;
        destruct (heap_max !! k) as [hm|]; try destruct (gt hm 0%float);
        try reflexivity; now rewrite lookup_insert_ne.
Qed.

(** The dict [heap_pct] of [main]: a service has an entry exactly when it has
    a used-heap sample and a maximum greater than zero; building it never
    raises. *)
Lemma build_heap_pct_Ok (heap_used heap_max : gmap string float) :
  exists heap_pct_,
    build_heap_pct heap_used heap_max = Ok heap_pct_ /\
    forall svc,
      heap_pct_ !! svc
      = match heap_used !! svc, heap_max !! svc with
        | Some used, Some hm =>
            if gt hm 0%float then Some (PrimFloat.div used hm) else None
        | _, _ => None
        end.
Proof.
  unfold build_heap_pct.
  destruct (for_fold_heap_pct heap_max (map_to_list heap_used) ∅
              (NoDup_fst_map_to_list heap_used)) as (m & Hm & Hlook).
  exists m. split; [exact Hm |]. intros svc. rewrite Hlook.
  rewrite list_to_map_to_list, lookup_empty.
  destruct (heap_used !! svc), (heap_max !! svc); reflexivity.
Qed.

Lemma check_app (label : string) (v : float) (t : Cutoffs)
    (text limit : float -> string) (issues : list Issue) :
  check label v t text limit issues
  = (issues ++ option_list (Spec.issue label v t text limit))%list.
Proof.
  unfold check, Spec.issue, Spec.crossing, append.
  destruct (ge v (crit t)); [reflexivity |].
  destruct (ge v (warn t)); simpl; [reflexivity | now rewrite app_nil_r].
Qed.

Lemma issue_level (label : string) (v : float) (t : Cutoffs)
    (text limit : float -> string) :
  fst <$> Spec.issue label v t text limit = Spec.crossing v t.
Proof. unfold Spec.issue. destruct (Spec.crossing v t); reflexivity. Qed.

Lemma any_level_existsb (level : string) (issues : list Issue) :
  any_level level issues = existsb (String.eqb level) (map fst issues).
Proof.
  unfold any_level. induction issues as [|i issues IH]; simpl.
  - reflexivity.
  - now rewrite IH, String.eqb_sym.
Qed.

Lemma any_level_status (issues : list Issue) :
  (if any_level "CRITICAL" issues then "CRITICAL"
   else if any_level "WARNING" issues then "WARNING" else "OK")
  = Spec.status (map fst issues).
Proof. unfold Spec.status. now rewrite !any_level_existsb. Qed.

Lemma crossing_levels (v : float) (t : Cutoffs) :
  Forall (fun level => level = "CRITICAL" \/ level = "WARNING")
    (option_list (Spec.crossing v t)).
Proof.
  unfold Spec.crossing. destruct (ge v (crit t)); simpl.
  - constructor; [now left | constructor].
  - destruct (ge v (warn t)); simpl; constructor; [now right | constructor].
Qed.

Lemma status_OK_iff (levels : list string) :
  Forall (fun level => level = "CRITICAL" \/ level = "WARNING") levels ->
  (Spec.status levels = "OK" <-> levels = []).
Proof.
  intros Hl. destruct Hl as [|level levels [-> | ->] _]; unfold Spec.status; simpl.
  - split; reflexivity.
  - split; discriminate.
  - destruct (existsb _ levels); split; discriminate.
Qed.

Lemma evaluate_service_severity
    (cpu_rate_ heap_used heap_max heap_pct_ gc_rate_ threads_ : gmap string float)
    (svc : string) (r : Result) :
  evaluate_service cpu_rate_ heap_used heap_max heap_pct_ gc_rate_ threads_ svc
  = Ok r ->
  severity r = Spec.status (map fst (issues r)).
Proof.
  intros Hr. unfold evaluate_service in Hr.
  apply bind_Ok in Hr as (n & _ & Hr). simpl in Hr. injection Hr as <-. simpl.
  apply any_level_status.
Qed.

(** C7. In the health check each of the four metrics (cpu rate, heap
    percent, GC rate, thread count) is checked on its own and contributes at
    most one issue, in that order: at level CRITICAL when its critical cutoff
    is met (the warning crossing is then not reported separately), else at
    level WARNING when its warning cutoff is met, else none. Every crossed
    metric is reported, and the status is CRITICAL if any issue is CRITICAL,
    else WARNING if any issue is WARNING, else OK. *)
Theorem health_reports_each_crossed_metric_once
    (cpu_rate_ heap_used heap_max heap_pct_ gc_rate_ threads_ : gmap string float)
    (svc : string) (r : Result) :
  evaluate_service cpu_rate_ heap_used heap_max heap_pct_ gc_rate_ threads_ svc
  = Ok r ->
  let cpu := get cpu_rate_ svc 0%float in
  let hp := get heap_pct_ svc 0%float in
  let gc := get gc_rate_ svc 0%float in
  let th := get threads_ svc 0%float in
  (exists n,
     int_of_float th = Ok n /\
     issues r
     = (option_list (Spec.issue "CPU" cpu (cpu_rate THRESHOLDS)
                       (fun x => format x ".1%") (fun x => format x ".0%"))
        ++ option_list (Spec.issue "Heap" hp (heap_pct THRESHOLDS)
                          (fun x => format x ".1%") (fun x => format x ".0%"))
        ++ option_list (Spec.issue "GC" gc (gc_rate THRESHOLDS)
                          (fun x => (format x ".3f" ++ "s/s")%string)
                          (fun x => (format x "" ++ "s/s")%string))
        ++ option_list (Spec.issue "Threads" th (threads THRESHOLDS)
                          (fun _ => str_of_int n) (fun x => format x "")))%list) /\
  map fst (issues r)
  = (option_list (Spec.crossing cpu (cpu_rate THRESHOLDS))
     ++ option_list (Spec.crossing hp (heap_pct THRESHOLDS))
     ++ option_list (Spec.crossing gc (gc_rate THRESHOLDS))
     ++ option_list (Spec.crossing th (threads THRESHOLDS)))%list /\
  severity r = Spec.status (map fst (issues r)) /\
  (severity r = "OK" <-> issues r = []).
Proof.
  intros Hr cpu hp gc th. unfold evaluate_service in Hr.
  apply bind_Ok in Hr as (n & Hn & Hr). simpl in Hr.
  rewrite !check_app in Hr. simpl in Hr. injection Hr as <-. simpl.
  fold cpu hp gc th.
  assert (Hlevels : forall (a b c d : option Issue),
            map fst (option_list a ++ option_list b ++ option_list c ++ option_list d)%list
            = (option_list (fst <$> a) ++ option_list (fst <$> b)
               ++ option_list (fst <$> c) ++ option_list (fst <$> d))%list).
  { intros [?|] [?|] [?|] [?|]; reflexivity. }
  split; [| split; [| split]].
  - exists n. split; [exact Hn |]. now rewrite <- !app_assoc.
  - rewrite <- !app_assoc, Hlevels, !issue_level. reflexivity.
  - apply any_level_status.
  - rewrite any_level_status.
    match goal with |- Spec.status (map fst ?l) = _ <-> _ =>
      assert (Hall : Forall (fun level => level = "CRITICAL" \/ level = "WARNING")
                       (map fst l))
    end.
    { rewrite <- !app_assoc, Hlevels, !issue_level.
      repeat (apply Forall_app; split); apply crossing_levels. }
    apply status_OK_iff in Hall. split.
    + intros Hs. apply Hall in Hs. eapply map_eq_nil, Hs.
    + intros ->. reflexivity.
Qed.

End HealthFacts.

(** Service [e] of the sample data: the cpu rate 0.85 is critical, the heap
    ratio 0.72 and the 60 threads are warnings, the GC rate 0.01 crosses
    nothing. All three crossings are reported and the status is CRITICAL. *)
Lemma health_reports_each_crossed_metric_once_example :
  Py.fmap (fun r => (JvmHealth.severity r, map fst (JvmHealth.issues r)))
    (Py.bind
       (JvmHealth.build_heap_pct Fixture.mixed_heap_used Fixture.mixed_heap_max)
       (fun heap_pct_ =>
          JvmHealth.evaluate_service Fixture.mixed_cpu_rate Fixture.mixed_heap_used
            Fixture.mixed_heap_max heap_pct_ Fixture.mixed_gc_rate
            Fixture.mixed_threads "e"))
  = Py.Ok ("CRITICAL", ["CRITICAL"; "WARNING"; "WARNING"]).
Proof.
  destruct (JvmHealth.build_heap_pct Fixture.mixed_heap_used Fixture.mixed_heap_max)
    as [heap_pct_|e] eqn:Hb; [| vm_compute in Hb; discriminate].
  simpl.
  destruct (JvmHealth.evaluate_service Fixture.mixed_cpu_rate Fixture.mixed_heap_used
              Fixture.mixed_heap_max heap_pct_ Fixture.mixed_gc_rate
              Fixture.mixed_threads "e") as [r|e] eqn:Hr;
    [| vm_compute in Hb; injection Hb as <-; vm_compute in Hr; discriminate].
  destruct (health_reports_each_crossed_metric_once _ _ _ _ _ _ _ _ Hr)
    as (_ & Hlevels & Hstatus & _).
  simpl. rewrite Hstatus, Hlevels.
  vm_compute in Hb. injection Hb as <-. vm_compute. reflexivity.
Defined.

(** ** Guarded divisions *)

Section ZeroDefaults.
Import Py.

Lemma get_absent {V : Type} (d : gmap string V) (k : string) (v : V) :
  d !! k = None -> get d k v = v.
Proof. unfold get. now intros ->. Qed.

(** C4. Every division behind a derived ratio is guarded, and the ratio is
    zero when the guard fails: the heap ratio is 0 when the heap maximum is 0
    or absent (in the resolver and in the health check), the error
    percentage is 0 when the request rate is 0 or absent, and the average
    latency is 0 when the latency count is 0 or absent; none of the three
    computations raises, whatever the operands. *)
Theorem zero_denominator_gives_zero :
  (forall hu hm,
     is_ok (Bottleneck.heap_ratio hu hm) = true
     /\ (gt hm 0%float = false -> Bottleneck.heap_ratio hu hm = Ok 0%float)
     /\ Bottleneck.heap_ratio hu 0%float = Ok 0%float) /\
  (forall er rr,
     is_ok (Bottleneck.error_percent er rr) = true
     /\ (gt rr 0%float = false -> Bottleneck.error_percent er rr = Ok 0%float)
     /\ Bottleneck.error_percent er 0%float = Ok 0%float) /\
  (forall ls lc,
     is_ok (Bottleneck.average_latency_ms ls lc) = true
     /\ (gt lc 0%float = false -> Bottleneck.average_latency_ms ls lc = Ok 0%float)
     /\ Bottleneck.average_latency_ms ls 0%float = Ok 0%float) /\
  (forall q svc v,
     Bottleneck.service_metrics q svc = Ok v ->
     let inst := svc ++ ":8080" in
     let absent (d : gmap string float) := d !! inst = None /\ d !! svc = None in
     let lc := get (Bottleneck.lat_count q) inst
                 (get (Bottleneck.lat_count q) svc 0%float) in
     (Bottleneck.heap_max q !! svc = None -> Bottleneck.hp v = 0%float)
     /\ (get (Bottleneck.heap_max q) svc 0%float = 0%float
         -> Bottleneck.hp v = 0%float)
     /\ (absent (Bottleneck.req_rate q) -> Bottleneck.err_pct v = 0%float)
     /\ (Bottleneck.rr v = 0%float -> Bottleneck.err_pct v = 0%float)
     /\ (absent (Bottleneck.lat_count q) -> Bottleneck.avg_lat v = 0%float)
     /\ (lc = 0%float -> Bottleneck.avg_lat v = 0%float)) /\
  (forall heap_used heap_max,
     exists heap_pct_,
       JvmHealth.build_heap_pct heap_used heap_max = Ok heap_pct_
       /\ forall svc,
            (heap_max !! svc = None -> get heap_pct_ svc 0%float = 0%float)
            /\ (get heap_max svc 0%float = 0%float
                -> get heap_pct_ svc 0%float = 0%float)).
Proof.
  split; [| split; [| split; [| split]]].
  - intros hu hm. rewrite !heap_ratio_Ok. repeat split.
    intros ->. reflexivity.
  - intros er rr. rewrite !error_percent_Ok. repeat split.
    intros ->. reflexivity.
  - intros ls lc. rewrite !average_latency_ms_Ok. repeat split.
    intros ->. reflexivity.
  - intros q svc v Hv inst absent lc.
    apply service_metrics_Ok in Hv as (n & _ & ->). simpl. fold inst.
    repeat split.
    + intros Hm. now rewrite (get_absent _ _ _ Hm).
    + intros ->. reflexivity.
    + intros [Hi Hs]. now rewrite (get_absent _ inst _ Hi), (get_absent _ svc _ Hs).
    + intros ->. reflexivity.
    + intros [Hi Hs]. now rewrite (get_absent _ inst _ Hi), (get_absent _ svc _ Hs).
    + fold lc. intros ->. reflexivity.
  - intros heap_used heap_max.
    destruct (build_heap_pct_Ok heap_used heap_max) as (m & Hm & Hlook).
    exists m. split; [exact Hm |]. intros svc.
    assert (Hguard : gt (get heap_max svc 0%float) 0%float = false ->
                     get m svc 0%float = 0%float).
    { unfold get at 2. rewrite Hlook. unfold get.
      destruct (heap_used !! svc), (heap_max !! svc) as [hm|]; try reflexivity.
      now intros ->. }
    split.
    + intros Hm0. apply Hguard. now rewrite (get_absent _ _ _ Hm0).
    + intros Hz. apply Hguard. now rewrite Hz.
Qed.

End ZeroDefaults.

(** ** The order of a report *)

Section ReportOrder.
Import Py.
Context `{Builtins} `{Api.Api}.

Lemma resolver_sort_key (q : Bottleneck.Snapshots) (pyroscope : string)
    (pyro_ok : bool) (thresholds : gmap string float) (svc : string)
    (r : Bottleneck.Result) :
  Bottleneck.analyze_service q pyroscope pyro_ok thresholds svc = Ok r ->
  Spec.is_sort_key (Bottleneck.severity r) (Bottleneck.service r)
    (Bottleneck.sort_key r).
Proof.
  intros Hr. apply analyze_service_healthy_xor_alarm in Hr.
  unfold Spec.is_sort_key, Bottleneck.sort_key. simpl.
  destruct Hr as [[_ ->] | [_ [-> | ->]]]; split; reflexivity.
Qed.

Lemma health_sort_key
    (cpu_rate_ heap_used heap_max heap_pct_ gc_rate_ threads_ : gmap string float)
    (svc : string) (r : JvmHealth.Result) :
  JvmHealth.evaluate_service cpu_rate_ heap_used heap_max heap_pct_ gc_rate_
    threads_ svc = Ok r ->
  Spec.is_sort_key (JvmHealth.severity r) (JvmHealth.service r)
    (JvmHealth.sort_key r).
Proof.
  intros Hr.
  apply evaluate_service_severity in Hr as Hs.
  unfold Spec.is_sort_key, JvmHealth.sort_key. simpl. rewrite Hs.
  unfold Spec.status.
  destruct (existsb _ _); [split; reflexivity |].
  destruct (existsb _ _); split; reflexivity.
Qed.

(** C6. A report is its list of results sorted stably by the pair
    (severityRank, service) in ascending order, critical before warning
    before ok in either vocabulary and equal ranks in the lexical order of
    the service names: the sorted list is a permutation of the results, in
    ascending order of keys, keeps the order of results of equal key, and
    is the only such list. The results a, b, c of severities critical,
    warning, critical come out as a, c, b. *)
Theorem report_sorted_by_severity_then_service :
  (forall results : list Bottleneck.Result,
     let sorted := sort_by key_lt Bottleneck.sort_key results in
     Permutation sorted results
     /\ StronglySorted (ascending key_lt Bottleneck.sort_key) sorted
     /\ (forall k, filter (fun r => Bottleneck.sort_key r = k) sorted
                   = filter (fun r => Bottleneck.sort_key r = k) results)
     /\ (forall other,
           StronglySorted (ascending key_lt Bottleneck.sort_key) other ->
           (forall k, filter (fun r => Bottleneck.sort_key r = k) other
                      = filter (fun r => Bottleneck.sort_key r = k) results) ->
           other = sorted)) /\
  (forall results : list JvmHealth.Result,
     let sorted := sort_by key_lt JvmHealth.sort_key results in
     Permutation sorted results
     /\ StronglySorted (ascending key_lt JvmHealth.sort_key) sorted
     /\ (forall k, filter (fun r => JvmHealth.sort_key r = k) sorted
                   = filter (fun r => JvmHealth.sort_key r = k) results)
     /\ (forall other,
           StronglySorted (ascending key_lt JvmHealth.sort_key) other ->
           (forall k, filter (fun r => JvmHealth.sort_key r = k) other
                      = filter (fun r => JvmHealth.sort_key r = k) results) ->
           other = sorted)) /\
  (forall prometheus pyroscope prom_ok pyro_ok service_filter thresholds results,
     Bottleneck.analyze prometheus pyroscope prom_ok pyro_ok service_filter
       thresholds = Ok results ->
     StronglySorted (ascending key_lt Bottleneck.sort_key) results
     /\ Forall (fun r => Spec.is_sort_key (Bottleneck.severity r)
                           (Bottleneck.service r) (Bottleneck.sort_key r))
          results) /\
  (forall prometheus pyroscope json_mode results,
     JvmHealth.main prometheus pyroscope json_mode = Ok results ->
     StronglySorted (ascending key_lt JvmHealth.sort_key) results
     /\ Forall (fun r => Spec.is_sort_key (JvmHealth.severity r)
                           (JvmHealth.service r) (JvmHealth.sort_key r))
          results) /\
  (forall x y : Z * string,
     key_le key_lt x y <-> x.1 < y.1 \/ (x.1 = y.1 /\ String.leb x.2 y.2 = true)) /\
  map Bottleneck.service
    (sort_by key_lt Bottleneck.sort_key
       [ Fixture.entry "a" "critical"; Fixture.entry "b" "warning";
         Fixture.entry "c" "critical" ])
  = ["a"; "c"; "b"].
Proof.
  assert (Hsort : forall (A : Type) (key : A -> Z * string) (results : list A),
             let sorted := sort_by key_lt key results in
             Permutation sorted results
             /\ StronglySorted (ascending key_lt key) sorted
             /\ (forall k, filter (fun r => key r = k) sorted
                           = filter (fun r => key r = k) results)
             /\ (forall other,
                   StronglySorted (ascending key_lt key) other ->
                   (forall k, filter (fun r => key r = k) other
                              = filter (fun r => key r = k) results) ->
                   other = sorted)).
  { intros A key results sorted. subst sorted. repeat split.
    - apply sort_by_Permutation.
    - apply sort_by_sorted; [apply key_lt_irrefl | apply key_lt_trans | apply key_lt_total].
    - intros k. apply sort_by_stable, key_lt_irrefl.
    - intros other Hs Hf.
      apply sort_by_unique;
        [apply key_lt_irrefl | apply key_lt_trans | apply key_lt_total | exact Hs | exact Hf]. }
  split; [apply Hsort |]. split; [apply Hsort |].
  split; [| split; [| split]].
  - intros prometheus pyroscope prom_ok pyro_ok service_filter thresholds results Ha.
    unfold Bottleneck.analyze in Ha.
    apply bind_Ok in Ha as (unsorted & Hfe & [= <-]).
    split; [apply Hsort |].
    apply List.Forall_forall. intros r Hin. apply sort_by_In in Hin.
    destruct (for_each_elem _ _ _ _ Hfe Hin) as (svc & _ & Hr).
    eapply resolver_sort_key, Hr.
  - intros prometheus pyroscope json_mode results Hm.
    unfold JvmHealth.main in Hm.
    apply bind_Ok in Hm as (heap_pct_ & _ & Hm).
    destruct (is_empty _); [discriminate |].
    apply bind_Ok in Hm as (unsorted & Hfe & [= <-]).
    split; [apply Hsort |].
    apply List.Forall_forall. intros r Hin. apply sort_by_In in Hin.
    destruct (for_each_elem _ _ _ _ Hfe Hin) as (svc & _ & Hr).
    eapply health_sort_key, Hr.
  - intros [i s] [j u]. unfold key_le, key_lt, String.leb, String.ltb. simpl.
    rewrite orb_false_iff, andb_false_iff, Z.ltb_ge, Z.eqb_neq.
    rewrite (String.compare_antisym u s).
    destruct (String.compare s u); simpl; split;
      try (intros [Hle [Hne | Hc]]; try discriminate; lia);
      try (intros [Hlt | [-> Hc]]; try discriminate; split; [lia | auto; right; lia]).
    all: try (intros [Hlt | [-> Hc]]; split; try lia; try (left; lia); auto).
  - vm_compute. reflexivity.
Qed.

End ReportOrder.

(** ** Threshold overrides *)

Section ThresholdFacts.
Import Py Bottleneck.
Context `{Builtins} `{Api}.

Lemma known_default (k : string) :
  contains_key k DEFAULT_THRESHOLDS = Spec.known k.
Proof.
  unfold contains_key, DEFAULT_THRESHOLDS, Spec.known, Spec.known_keys.
  simpl list_to_map. simpl existsb.
  repeat (rewrite lookup_insert; destruct (decide _) as [<- | Hk];
          [reflexivity |
           apply not_eq_sym, String.eqb_neq in Hk; rewrite Hk; clear Hk; simpl]).
  now rewrite lookup_empty.
Qed.

Lemma same_keys_default : Spec.same_keys DEFAULT_THRESHOLDS.
Proof. intros k. apply known_default. Qed.

Lemma same_keys_insert (thresholds : gmap string float) (k : string) (x : float) :
  Spec.same_keys thresholds -> Spec.known k = true -> Spec.same_keys (<[k := x]> thresholds).
Proof.
  intros Hs Hk k'. unfold contains_key. rewrite lookup_insert.
  case_decide as Hkk; [now subst k' |]. apply Hs.
Qed.

Lemma split1_key_value (tok : string) :
  match Spec.key_value tok with
  | Some (k, v) => contains_char "=" tok = true /\ split1 "=" tok = [k; v]
  | None => contains_char "=" tok = false
  end.
Proof.
  induction tok as [|ch tok IH]; [reflexivity |].
  cbn [Spec.key_value contains_char split1].
  rewrite (Ascii.eqb_sym "=" ch). destruct (Ascii.eqb ch "=").
  - split; reflexivity.
  - destruct (Spec.key_value tok) as [[k v]|].
    + destruct IH as [-> ->]. split; reflexivity.
    + exact IH.
Qed.

Lemma parse_token_spec (thresholds : gmap string float) (tok : string) :
  Spec.same_keys thresholds ->
  parse_token thresholds tok
  = match Spec.override tok with
    | Some (k, v) =>
        match float_of_str v with
        | Some x => Ok (<[k := x]> thresholds)
        | None => Raise ValueError
        end
    | None => Ok thresholds
    end.
Proof.
  intros Hs. unfold parse_token, Spec.override.
  pose proof (split1_key_value tok) as Hkv.
  destruct (Spec.key_value tok) as [[k v]|].
  - destruct Hkv as [-> ->]. rewrite (Hs k).
    destruct (Spec.known k); [| reflexivity].
    unfold float_. destruct (float_of_str v); reflexivity.
  - now rewrite Hkv.
Qed.

Lemma override_known (tok k v : string) :
  Spec.override tok = Some (k, v) -> Spec.known k = true.
Proof.
  unfold Spec.override. destruct (Spec.key_value tok) as [[k' v']|]; [| discriminate].
  destruct (Spec.known k') eqn:Hk; [| discriminate]. now intros [= <- <-].
Qed.

Lemma parse_tokens_Raise (toks : list string) (thresholds : gmap string float)
    (e : exn) :
  Spec.same_keys thresholds ->
  parse_tokens toks thresholds = Raise e <-> e = ValueError /\ Exists Spec.fatal toks.
Proof.
  revert thresholds. induction toks as [|tok toks IH]; intros thresholds Hs; simpl.
  - split; [discriminate | intros [_ Hex]; inversion Hex].
  - rewrite parse_token_spec by exact Hs.
    destruct (Spec.override tok) as [[k v]|] eqn:Ho.
    + destruct (float_of_str v) as [x|] eqn:Hv; simpl.
      * rewrite IH by (apply same_keys_insert; [exact Hs | eapply override_known, Ho]).
        split; intros [He Hex]; (split; [exact He |]).
        -- now right.
        -- inversion Hex as [? ? (k' & v' & Ho' & Hv') | ? ? Hex']; subst;
             [congruence | exact Hex'].
      * split.
        -- intros [= <-]. split; [reflexivity |]. left. exists k, v. auto.
        -- intros [-> _]. reflexivity.
    + simpl. rewrite IH by exact Hs.
      split; intros [He Hex]; (split; [exact He |]).
      * now right.
      * inversion Hex as [? ? (k' & v' & Ho' & Hv') | ? ? Hex']; subst;
          [congruence | exact Hex'].
Qed.

Lemma parse_tokens_Ok (toks : list string) (thresholds m : gmap string float) :
  Spec.same_keys thresholds ->
  parse_tokens toks thresholds = Ok m ->
  Spec.same_keys m /\
  forall k,
    m !! k = match Spec.last_override k toks with
             | Some v => float_of_str v
             | None => thresholds !! k
             end.
Proof.
  revert thresholds. induction toks as [|tok toks IH]; intros thresholds Hs; simpl.
  - intros [= <-]. split; [exact Hs | reflexivity].
  - rewrite parse_token_spec by exact Hs.
    destruct (Spec.override tok) as [[k v]|] eqn:Ho.
    + destruct (float_of_str v) as [x|] eqn:Hv; simpl; [| discriminate].
      intros Hm. apply IH in Hm as [Hsm Hlook];
        [| apply same_keys_insert; [exact Hs | eapply override_known, Ho]].
      split; [exact Hsm |]. intros k'. rewrite Hlook.
      destruct (Spec.last_override k' toks); [reflexivity |].
      rewrite lookup_insert. case_decide as Hk.
      * subst k'. now rewrite String.eqb_refl.
      * apply String.eqb_neq in Hk. now rewrite Hk.
    + simpl. intros Hm. apply IH in Hm as [Hsm Hlook]; [| exact Hs].
      split; [exact Hsm |]. intros k'. rewrite Hlook.
      destruct (Spec.last_override k' toks); reflexivity.
Qed.

Lemma parse_tokens_ignore (toks : list string) (thresholds : gmap string float) :
  Spec.same_keys thresholds ->
  parse_tokens toks thresholds
  = parse_tokens
      (List.filter (fun tok => bool_decide (is_Some (Spec.override tok))) toks)
      thresholds.
Proof.
  revert thresholds. induction toks as [|tok toks IH]; intros thresholds Hs;
    [reflexivity |].
  cbn [parse_tokens List.filter]. destruct (Spec.override tok) as [[k v]|] eqn:Ho.
  - rewrite bool_decide_eq_true_2 by eauto. cbn [parse_tokens].
    rewrite parse_token_spec, Ho by exact Hs.
    destruct (float_of_str v) as [x|]; [| reflexivity]. simpl.
    apply IH, same_keys_insert; [exact Hs | eapply override_known, Ho].
  - rewrite bool_decide_eq_false_2 by (intros [? ?]; discriminate).
    rewrite parse_token_spec, Ho by exact Hs. simpl. now apply IH.
Qed.

Lemma contains_char_app (ch d : ascii) (cur : string) :
  contains_char ch (cur ++ String d "") = contains_char ch cur || Ascii.eqb ch d.
Proof.
  induction cur as [|a cur IH].
  - change ("" ++ String d "") with (String d "").
    cbn [contains_char]. destruct (Ascii.eqb ch d); reflexivity.
  - change (String a cur ++ String d "") with (String a (cur ++ String d "")).
    cbn [contains_char]. now rewrite IH, orb_assoc.
Qed.

Lemma split_from_tokens (cur s : string) :
  (forall ch, contains_char ch cur = true -> isspace ch = false) ->
  Forall Spec.is_token (split_from cur s).
Proof.
  revert cur. induction s as [|d s IH]; intros cur Hcur; cbn [split_from].
  - destruct (String.eqb_spec cur ""); [constructor |].
    constructor; [split; assumption | constructor].
  - destruct (isspace d) eqn:Hd.
    + destruct (String.eqb_spec cur "").
      * apply IH. intros ch. discriminate.
      * constructor; [split; assumption |]. apply IH. intros ch. discriminate.
    + apply IH. intros ch. rewrite contains_char_app, orb_true_iff.
      intros [Hc | Hc]; [now apply Hcur |].
      apply Ascii.eqb_eq in Hc. now subst ch.
Qed.

(** C8. The overrides are the whitespace-separated tokens of the string,
    read as key=value. A token whose key is unknown is ignored, and one
    override whose value is no number fails the whole run with ValueError,
    wherever it stands among the tokens and whatever the others are: the run
    raises exactly when there is such a token, and ValueError is all it can
    raise. *)
Theorem unparsable_override_fails_the_run (threshold_str : string) :
  let toks := split (strip threshold_str) in
  Forall Spec.is_token toks /\
  (forall e,
     parse_thresholds threshold_str = Raise e
     <-> e = ValueError /\ Exists Spec.fatal toks) /\
  (forall tok k v,
     In tok toks -> Spec.key_value tok = Some (k, v) -> Spec.known k = true ->
     float_of_str v = None ->
     parse_thresholds threshold_str = Raise ValueError) /\
  parse_thresholds threshold_str
  = parse_tokens
      (List.filter (fun tok => bool_decide (is_Some (Spec.override tok))) toks)
      DEFAULT_THRESHOLDS.
Proof.
  intros toks. unfold parse_thresholds. fold toks.
  split; [apply split_from_tokens; intros ch; discriminate |].
  split; [intros e; apply parse_tokens_Raise, same_keys_default |].
  split; [| apply parse_tokens_ignore, same_keys_default].
  intros tok k v Hin Hkv Hk Hv.
  apply parse_tokens_Raise; [apply same_keys_default |].
  split; [reflexivity |]. apply List.Exists_exists. exists tok.
  split; [exact Hin |]. exists k, v. unfold Spec.override.
  now rewrite Hkv, Hk.
Qed.

(** C9. A token whose key is none of the six known keys never raises, even
    with a value that is no number, because the value is read only once the
    key is found in the dict; a token without [=] is skipped as well. The
    dict returned has the six known keys, each with the value of its last
    override, or its default when there is none. *)
Theorem unknown_keys_and_bare_tokens_are_skipped :
  (forall k, Spec.known k = true <-> In k Spec.known_keys) /\
  (forall k, contains_key k DEFAULT_THRESHOLDS = Spec.known k) /\
  (forall thresholds tok,
     Spec.same_keys thresholds ->
     (contains_char "=" tok = false -> parse_token thresholds tok = Ok thresholds)
     /\ (forall k v,
           contains_char "=" tok = true -> split1 "=" tok = [k; v] ->
           Spec.known k = false ->
           parse_token thresholds tok = Ok thresholds)) /\
  (forall threshold_str,
     Forall (fun tok => Spec.override tok = None) (split (strip threshold_str)) ->
     parse_thresholds threshold_str = Ok DEFAULT_THRESHOLDS) /\
  (forall threshold_str thresholds,
     parse_thresholds threshold_str = Ok thresholds ->
     Spec.same_keys thresholds
     /\ forall k,
          thresholds !! k
          = match Spec.last_override k (split (strip threshold_str)) with
            | Some v => float_of_str v
            | None => DEFAULT_THRESHOLDS !! k
            end).
Proof.
  split; [| split; [| split; [| split]]].
  - intros k. unfold Spec.known. rewrite existsb_exists. split.
    + intros (k' & Hin & Heq). apply String.eqb_eq in Heq. now subst k'.
    + intros Hin. exists k. split; [exact Hin | apply String.eqb_refl].
  - apply known_default.
  - intros thresholds tok Hs. split.
    + intros Hc. unfold parse_token. now rewrite Hc.
    + intros k v Hc Hsplit Hk. unfold parse_token. rewrite Hc, Hsplit, (Hs k), Hk.
      reflexivity.
  - intros threshold_str Hall. unfold parse_thresholds.
    rewrite parse_tokens_ignore by apply same_keys_default.
    replace (List.filter _ _) with (@nil string); [reflexivity |].
    induction Hall as [|tok toks Ho _ IH]; [reflexivity |].
    cbn [List.filter]. rewrite Ho.
    rewrite bool_decide_eq_false_2 by (intros [? ?]; discriminate). exact IH.
  - intros threshold_str thresholds Hp. unfold parse_thresholds in Hp.
    apply parse_tokens_Ok in Hp; [exact Hp | apply same_keys_default].
Qed.

End ThresholdFacts.

(** With the sample reading of numbers, [oops] is no number: the override of
    [cpu] fails the run although the overrides around it are well formed,
    while the same text under an unknown key, and a token without [=], change
    nothing. *)
Example parse_thresholds_examples :
  Bottleneck.parse_thresholds "gc=0.05 cpu=oops latency_ms=250"
  = Py.Raise Py.ValueError /\
  Bottleneck.parse_thresholds "  color=oops verbose " = Py.Ok Bottleneck.DEFAULT_THRESHOLDS /\
  Py.fmap (fun thresholds => (thresholds !! "gc", thresholds !! "cpu"))
    (Bottleneck.parse_thresholds "gc=0.5 color=oops gc=0.05")
  = Py.Ok (Some 0.05%float, Some 0.3%float).
Proof. repeat split; vm_compute; reflexivity. Qed.

(** ** The flamebearer decoder *)

Section DecoderFacts.
Import Py ParseFlamegraph.

Lemma item_lookup {A : Type} (l : list A) (n : nat) (x : A) :
  l !! n = Some x -> item l (Z.of_nat n) = Ok x.
Proof.
  intros Hl. unfold item, len.
  pose proof (lookup_lt_Some _ _ _ Hl) as Hlt.
  destruct (Z.ltb_spec (Z.of_nat n) 0) as [Hneg|_]; [lia |].
  destruct (Z.leb_spec 0 (Z.of_nat n)) as [_|Hneg]; [| lia].
  destruct (Z.ltb_spec (Z.of_nat n) (Z.of_nat (length l))) as [_|Hge]; [| lia].
  simpl. now rewrite Nat2Z.id, Hl.
Qed.

(** The loop body on a frame that is there, in terms of the frame. *)
Lemma add_frame_at (names : list string) (pre rest : list Z) (o t s n : Z)
    (self_map : gmap string Z) :
  add_frame names (pre ++ o :: t :: s :: n :: rest) (len pre) self_map
  = credit names n s self_map.
Proof.
  unfold add_frame, len.
  replace (Z.of_nat (length pre) + 3) with (Z.of_nat (length pre + 3)) by lia.
  replace (Z.of_nat (length pre) + 2) with (Z.of_nat (length pre + 2)) by lia.
  rewrite (item_lookup _ _ n), (item_lookup _ _ s); [reflexivity | |].
  - rewrite lookup_app_r by lia.
    now replace (length pre + 2 - length pre)%nat with 2%nat by lia.
  - rewrite lookup_app_r by lia.
    now replace (length pre + 3 - length pre)%nat with 3%nat by lia.
Qed.

(** The [while] loop reads the complete groups of 4 from where it stands,
    and its fuel is never what stops it. *)
Lemma while_frames_spec (names : list string) (fuel : nat) (pre rest : list Z)
    (self_map : gmap string Z) :
  (length rest <= fuel)%nat ->
  while_frames fuel names (pre ++ rest) (len pre) self_map
  = Spec.credit_all names (Spec.frames rest) self_map.
Proof.
  revert pre rest self_map. induction fuel as [|fuel IH]; intros pre rest self_map Hf.
  - destruct rest; [reflexivity | simpl in Hf; lia].
  - cbn [while_frames].
    destruct rest as [|o [|t [|s [|n rest]]]];
      try (destruct (Z.ltb_spec (len pre + 3) (len (pre ++ [])))
             as [Hlt|_]; [unfold len in Hlt; rewrite length_app in Hlt; simpl in Hlt; lia | reflexivity]).
    + destruct (Z.ltb_spec (len pre + 3) (len (pre ++ [o]))) as [Hlt|_];
        [unfold len in Hlt; rewrite length_app in Hlt; simpl in Hlt; lia | reflexivity].
    + destruct (Z.ltb_spec (len pre + 3) (len (pre ++ [o; t]))) as [Hlt|_];
        [unfold len in Hlt; rewrite length_app in Hlt; simpl in Hlt; lia | reflexivity].
    + destruct (Z.ltb_spec (len pre + 3) (len (pre ++ [o; t; s]))) as [Hlt|_];
        [unfold len in Hlt; rewrite length_app in Hlt; simpl in Hlt; lia | reflexivity].
    + destruct (Z.ltb_spec (len pre + 3) (len (pre ++ o :: t :: s :: n :: rest)))
        as [_|Hge];
        [| unfold len in Hge; rewrite length_app in Hge; simpl in Hge; lia].
      rewrite add_frame_at. cbn [Spec.frames Spec.credit_all Spec.nameIndex Spec.self].
      destruct (credit names n s self_map) as [self_map'|e]; [| reflexivity].
      cbn [bind].
      replace (pre ++ o :: t :: s :: n :: rest)%list
        with ((pre ++ [o; t; s; n]) ++ rest)%list by now rewrite <- app_assoc.
      replace (len pre + 4) with (len (pre ++ [o; t; s; n])%list)
        by (unfold len; rewrite length_app; simpl; lia).
      apply IH. simpl in Hf. lia.
Qed.

Lemma walk_level_spec (names : list string) (self_map : gmap string Z)
    (level : list Z) :
  walk_level names self_map level = Spec.credit_all names (Spec.frames level) self_map.
Proof.
  unfold walk_level. apply (while_frames_spec names (length level) [] level).
  reflexivity.
Qed.

Lemma credit_all_app (names : list string) (fs1 fs2 : list Spec.Frame)
    (self_map : gmap string Z) :
  Spec.credit_all names (fs1 ++ fs2) self_map
  = bind (Spec.credit_all names fs1 self_map) (Spec.credit_all names fs2).
Proof.
  revert self_map. induction fs1 as [|f fs1 IH]; intros self_map; simpl;
    [reflexivity |].
  destruct (credit names _ _ self_map); simpl; [apply IH | reflexivity].
Qed.

Lemma for_fold_walk_level (names : list string) (levels : list (list Z))
    (self_map : gmap string Z) :
  for_fold (walk_level names) levels self_map
  = Spec.credit_all names (concat (map Spec.frames levels)) self_map.
Proof.
  revert self_map. induction levels as [|level levels IH]; intros self_map; simpl;
    [reflexivity |].
  rewrite credit_all_app, walk_level_spec.
  destruct (Spec.credit_all names (Spec.frames level) self_map); simpl;
    [apply IH | reflexivity].
Qed.

(** On a name index that is not negative, the step credits the function the
    specification names, or nothing. *)
Lemma credit_nonneg (names : list string) (f : Spec.Frame)
    (self_map : gmap string Z) :
  0 <= Spec.nameIndex f ->
  credit names (Spec.nameIndex f) (Spec.self f) self_map
  = Ok (match Spec.credited names f with
        | Some name => <[name := get self_map name 0 + Spec.self f]> self_map
        | None => self_map
        end).
Proof.
  intros Hn. unfold credit, Spec.credited, len.
  destruct (Z.leb_spec 0 (Spec.nameIndex f)) as [_|Hneg]; [| lia].
  cbn [andb].
  destruct (Z.ltb_spec (Spec.nameIndex f) (Z.of_nat (length names))) as [Hlt|Hge];
    [| reflexivity].
  destruct (Spec.self f >? 0); [| reflexivity]. cbn [andb].
  destruct (lookup_lt_is_Some_2 names (Z.to_nat (Spec.nameIndex f))) as [name Hname];
    [lia |].
  rewrite Hname. rewrite <- (Z2Nat.id (Spec.nameIndex f)) at 1 by exact Hn.
  now rewrite (item_lookup _ _ _ Hname).
Qed.

Lemma credit_all_nonneg (names : list string) (fs : list Spec.Frame)
    (self_map : gmap string Z) :
  Forall (fun f => 0 <= Spec.nameIndex f) fs ->
  exists self_map',
    Spec.credit_all names fs self_map = Ok self_map' /\
    forall name,
      get self_map' name 0 = get self_map name 0 + Spec.self_sum names name fs
      /\ (is_Some (self_map' !! name)
          <-> is_Some (self_map !! name)
              \/ Exists (fun f => Spec.credited names f = Some name) fs).
Proof.
  intros Hall. revert self_map.
  induction Hall as [|f fs Hf _ IH]; intros self_map.
  - exists self_map. split; [reflexivity |]. intros name. split; [simpl; lia |].
    split; [auto | intros [Hs | Hex]; [exact Hs | inversion Hex]].
  - cbn [Spec.credit_all]. rewrite (credit_nonneg names f self_map Hf). cbn [bind].
    destruct (IH (match Spec.credited names f with
                  | Some name => <[name := get self_map name 0 + Spec.self f]> self_map
                  | None => self_map
                  end)) as (m & Hm & Hlook).
    exists m. split; [exact Hm |]. intros name.
    destruct (Hlook name) as [Hget Hdom]. rewrite Hget, Hdom.
    cbn [Spec.self_sum]. destruct (Spec.credited names f) as [name'|] eqn:Hc.
    + destruct (decide (name' = name)) as [-> | Hne].
      * rewrite bool_decide_eq_true_2 by reflexivity.
        unfold get at 1. rewrite lookup_insert_eq. split; [lia |].
        split; [intros _; right; now left |]. intros _. left. eauto.
      * rewrite bool_decide_eq_false_2 by congruence.
        unfold get at 1 3. rewrite lookup_insert_ne by exact Hne. split; [lia |].
        split.
        -- intros [Hs | Hex]; [now left | right; now right].
        -- intros [Hs | Hex]; [now left |].
           inversion Hex as [? ? Hhd | ? ? Htl]; subst; [congruence | now right].
    + rewrite bool_decide_eq_false_2 by discriminate. split; [lia |].
      split.
      * intros [Hs | Hex]; [now left | right; now right].
      * intros [Hs | Hex]; [now left |].
        inversion Hex as [? ? Hhd | ? ? Htl]; subst; [congruence | now right].
Qed.

(** The decoder on name indices that are not negative: the self-time of
    every function is the sum of the self values of the complete groups of 4
    of every level that name it with a positive self value and an index into
    [names]; a function has an entry exactly when such a group exists; and a
    trailing partial group is dropped without an error. *)
Theorem decoder_sums_self_values (names : list string) (levels : list (list Z)) :
  Forall (fun f => 0 <= Spec.nameIndex f) (concat (map Spec.frames levels)) ->
  exists self_map,
    self_times names levels = Ok self_map /\
    forall name,
      get self_map name 0 = Spec.self_time names levels name
      /\ (is_Some (self_map !! name)
          <-> Exists (fun f => Spec.credited names f = Some name)
                (concat (map Spec.frames levels))).
Proof.
  intros Hall. unfold self_times. rewrite for_fold_walk_level.
  destruct (credit_all_nonneg names _ ∅ Hall) as (m & Hm & Hlook).
  exists m. split; [exact Hm |]. intros name.
  destruct (Hlook name) as [Hget Hdom]. split.
  - rewrite Hget. unfold Spec.self_time, get. rewrite lookup_empty. lia.
  - rewrite Hdom, lookup_empty. split; [| auto].
    intros [[x Hx] | Hex]; [discriminate | exact Hex].
Qed.

(** Without the assumption on the name indices, the decoder still reads
    exactly the complete groups of 4 of every level, in order. *)
Lemma self_times_frames (names : list string) (levels : list (list Z)) :
  self_times names levels
  = Spec.credit_all names (concat (map Spec.frames levels)) ∅.
Proof. apply for_fold_walk_level. Qed.

End DecoderFacts.

(** A function at two levels with the self values 100 and 50 gets 150; the
    second level has seven entries, and its last three are dropped. *)
Lemma decoder_sums_self_values_example :
  Py.fmap (fun self_map => (self_map !! "a", self_map !! "b"))
    (ParseFlamegraph.self_times ["a"; "b"]
       [[0; 100; 100; 0]; [0; 50; 50; 0; 7; 7; 7]])
  = Py.Ok (Some 150, None).
Proof.
  destruct (decoder_sums_self_values ["a"; "b"]
              [[0; 100; 100; 0]; [0; 50; 50; 0; 7; 7; 7]])
    as (self_map & Hm & Hlook).
  - simpl. repeat constructor; simpl; lia.
  - rewrite Hm. simpl. f_equal.
    destruct (Hlook "a") as [Ha [_ Hsa]]. destruct (Hlook "b") as [_ [Hsb _]].
    f_equal.
    + destruct Hsa as [x Hx]; [left; reflexivity |].
      unfold Py.get in Ha. rewrite Hx in Ha |- *. f_equal. exact Ha.
    + destruct (self_map !! "b") as [x|] eqn:Hb; [| reflexivity].
      exfalso. assert (Hex : is_Some (Some x)) by eauto. apply Hsb in Hex.
      vm_compute in Hex.
      repeat (inversion Hex as [? ? Hhd | ? ? Htl]; subst;
              [discriminate | clear Hex; rename Htl into Hex]).
      inversion Hex.
Defined.

(** C5, where the code departs from it: a name index below zero passes the
    test [name_idx < len(names)]. The decoder then raises IndexError when
    the index is below [-len(names)], and otherwise credits the name counted
    from the end of [names]; the specification has such a frame skipped. *)
Theorem decoder_negative_name_index :
  ParseFlamegraph.decode
    {| ParseFlamegraph.names := ["a"];
       ParseFlamegraph.levels := [[0; 7; 7; -2]];
       ParseFlamegraph.numTicks := 7 |}
  = Py.Raise Py.IndexError /\
  Spec.credited ["a"] {| Spec.offset := 0; Spec.total := 7; Spec.self := 7;
                         Spec.nameIndex := -2 |} = None /\
  Py.fmap (fun self_map => self_map !! "b")
    (ParseFlamegraph.self_times ["a"; "b"] [[0; 5; 5; -1]])
  = Py.Ok (Some 5) /\
  Spec.self_time ["a"; "b"] [[0; 5; 5; -1]] "b" = 0.
Proof. repeat split; vm_compute; reflexivity. Qed.

(** ** Further properties: names and categories of [parse_flamegraph.py] *)

Section ClassifyFacts.
Import Py ParseFlamegraph.

Lemma replace_char_twice (a b : ascii) (s : string) :
  replace_char a b (replace_char b a s) = replace_char a b s.
Proof.
  induction s as [|d s IH]; cbn [replace_char]; [reflexivity |].
  rewrite IH. f_equal.
  destruct (Ascii.eqb_spec b d) as [<- | Hbd].
  - rewrite Ascii.eqb_refl. now destruct (Ascii.eqb a b).
  - reflexivity.
Qed.

Lemma replace_char_absent (a b : ascii) (s : string) :
  a <> b -> contains_char a (replace_char a b s) = false.
Proof.
  intros Hab. induction s as [|d s IH]; cbn [replace_char contains_char];
    [reflexivity |].
  rewrite IH, orb_false_r.
  destruct (Ascii.eqb_spec a d) as [<- | Had].
  - now apply Ascii.eqb_neq.
  - now apply Ascii.eqb_neq.
Qed.

Lemma prefix_contains (ch : ascii) (p s : string) :
  String.prefix p s = true -> contains_char ch p = true -> contains_char ch s = true.
Proof.
  revert s. induction p as [|a p IH]; intros s; cbn [contains_char]; [discriminate |].
  destruct s as [|b s]; cbn [String.prefix contains_char]; [discriminate |].
  destruct (ascii_dec a b) as [<- | Hab]; [| discriminate].
  intros Hp. rewrite !orb_true_iff. intros [Ha | Hc]; [now left |].
  right. now apply IH.
Qed.

(** Cutting a name at its last dot and joining the two parts with a dot
    gives the name back. *)
Lemma rsplit1_join (c : ascii) (s : string) :
  match rsplit1 c s with
  | [a; b] => (a ++ String c b)%string = s
  | l => l = [s]
  end.
Proof.
  induction s as [|d s IH]; cbn [rsplit1]; [reflexivity |].
  destruct (rsplit1 c s) as [|a [|b [|x l]]]; try discriminate.
  - injection IH as <-. destruct (Ascii.eqb_spec c d) as [<- | Hcd]; reflexivity.
  - change (String d a ++ String c b)%string with (String d (a ++ String c b)).
    now rewrite IH.
Qed.

(** The category of a function name: slash-separated and dot-separated
    spellings of a name classify alike; the category is one of four; the
    application prefix is tried first, so the empty prefix makes every name
    application code; and since names are compared in dotted form while the
    prefix is taken as given, a prefix with a slash in it matches no name. *)
Theorem classify_by_dotted_name (name app_prefix : string) :
  classify (replace_char "." "/" name) app_prefix = classify name app_prefix /\
  In (classify name app_prefix) ["app"; "jvm"; "lib"; "other"] /\
  classify name "" = "app" /\
  (classify name app_prefix = "app"
   <-> startswith (normalize name) app_prefix = true) /\
  (contains_char "/" app_prefix = true -> classify name app_prefix <> "app").
Proof.
  assert (Happ : classify name app_prefix = "app"
                 <-> startswith (normalize name) app_prefix = true).
  { unfold classify. destruct (startswith (normalize name) app_prefix).
    - split; reflexivity.
    - destruct (existsb _ JVM_PREFIXES); [split; discriminate |].
      destruct (existsb _ LIB_PREFIXES); split; discriminate. }
  split; [| split; [| split; [| split]]].
  - unfold classify, normalize. now rewrite replace_char_twice.
  - unfold classify. destruct (startswith _ app_prefix); [simpl; auto |].
    destruct (existsb _ JVM_PREFIXES); [simpl; auto |].
    destruct (existsb _ LIB_PREFIXES); simpl; auto.
  - unfold classify, startswith. now destruct (normalize name).
  - exact Happ.
  - intros Hslash Hc. apply Happ in Hc. unfold startswith in Hc.
    pose proof (prefix_contains "/" _ _ Hc Hslash) as Hin.
    unfold normalize in Hin. rewrite replace_char_absent in Hin by discriminate.
    discriminate.
Qed.

(** The name [print_ranked] shows is the function name itself, whether or
    not it has a dot. *)
Lemma display_is_the_name (name : string) : display name = name.
Proof.
  unfold display. pose proof (rsplit1_join "." name) as Hj.
  destruct (rsplit1 "." name) as [|a [|b [|x l]]]; try reflexivity.
  exact Hj.
Qed.

End ClassifyFacts.

(** ** Further properties: the resolver as a whole *)

Section AnalyzeFacts.
Import Py Bottleneck.
Context `{Builtins} `{Api}.

Lemma for_each_ext {A B : Type} (f g : A -> result B) (l : list A) :
  (forall x, In x l -> f x = g x) -> for_each f l = for_each g l.
Proof.
  induction l as [|x l IH]; intros Hfg; [reflexivity |]. cbn [for_each].
  rewrite (Hfg x (or_introl eq_refl)), IH; [reflexivity |].
  intros y Hy. apply Hfg. now right.
Qed.

Lemma for_each_Raise {A B : Type} (body : A -> result B) (l : list A) (e : exn) :
  for_each body l = Raise e -> exists x, In x l /\ body x = Raise e.
Proof.
  induction l as [|x l IH]; cbn [for_each]; [discriminate |].
  destruct (body x) as [y|e'] eqn:Hx; cbn [bind].
  - destruct (for_each body l) as [ys|e'']; cbn [bind]; [discriminate |].
    intros [= <-]. destruct (IH eq_refl) as (x' & Hin & Hb).
    exists x'. split; [now right | exact Hb].
  - intros [= <-]. exists x. split; [now left | exact Hx].
Qed.

Lemma for_each_map {A B C : Type} (body : A -> result B) (f : B -> C) (g : A -> C)
    (l : list A) (ys : list B) :
  (forall x y, body x = Ok y -> f y = g x) ->
  for_each body l = Ok ys -> map f ys = map g l.
Proof.
  intros Hfg Hfe. apply for_each_Ok in Hfe.
  induction Hfe as [|x y l ys Hy _ IH]; [reflexivity |].
  cbn [map]. now rewrite (Hfg x y Hy), IH.
Qed.

(** [sorted(set(d.keys()))] lists every key once. *)
Lemma sorted_keys_spec {V : Type} (d : gmap string V) :
  NoDup (sorted_keys d) /\ forall k, In k (sorted_keys d) <-> is_Some (d !! k).
Proof.
  unfold sorted_keys. split.
  - rewrite sort_by_Permutation. apply NoDup_elements.
  - intros k. rewrite sort_by_In, <- list_elem_of_In, elem_of_elements.
    apply elem_of_dom.
Qed.

Lemma analyze_service_service (q : Snapshots) (pyroscope : string) (pyro_ok : bool)
    (thresholds : gmap string float) (svc : string) (r : Result) :
  analyze_service q pyroscope pyro_ok thresholds svc = Ok r -> service r = svc.
Proof.
  intros Hr. apply analyze_service_Ok in Hr as (v & signals & _ & _ & ->).
  unfold make_result. destruct signals; reflexivity.
Qed.

(** The list of services [analyze] loops over. *)
Lemma listed_services (q : Snapshots) (service_filter : string) :
  let services :=
    if String.eqb service_filter "" then sorted_keys (cpu q)
    else filter (fun s => s = get REVERSE_MAP service_filter service_filter)
           (sorted_keys (cpu q)) in
  NoDup services /\ forall svc, In svc services <-> Spec.listed q service_filter svc.
Proof.
  destruct (sorted_keys_spec (cpu q)) as [Hnd Hin]. unfold Spec.listed.
  destruct (String.eqb_spec service_filter "") as [-> | Hne]; cbn zeta.
  - split; [exact Hnd |]. intros svc. rewrite Hin. intuition.
  - split.
    + apply NoDup_filter, Hnd.
    + intros svc. rewrite <- list_elem_of_In, list_elem_of_filter, list_elem_of_In, Hin.
      intuition.
Qed.

Lemma sorted_keys_empty {V : Type} : sorted_keys (∅ : gmap string V) = [].
Proof. unfold sorted_keys. now rewrite dom_empty_L, elements_empty. Qed.

Lemma NoDup_all_equal {A : Type} (c : A) (l : list A) :
  NoDup l -> (forall x, In x l -> x = c) -> (length l <= 1)%nat.
Proof.
  intros Hnd Hall. destruct l as [|x [|y l]]; simpl; try lia.
  exfalso. apply NoDup_cons in Hnd as [Hx _]. apply Hx.
  rewrite (Hall x), <- (Hall y); simpl; auto. left.
Qed.

(** [analyze] reports on every service with a cpu sample, once each, and on
    no other: a service known only through its heap, GC, thread or HTTP
    samples gets no result. Under a service filter the report has at most
    one result, for the container the filter names; when Prometheus is
    not reachable the report is empty. *)
Theorem analyze_reports_listed_services_once
    (prometheus pyroscope : string) (prom_ok pyro_ok : bool)
    (service_filter : string) (thresholds : gmap string float)
    (results : list Result) :
  analyze prometheus pyroscope prom_ok pyro_ok service_filter thresholds
  = Ok results ->
  NoDup (map service results) /\
  (forall svc,
     In svc (map service results)
     <-> Spec.listed (snapshots prometheus prom_ok) service_filter svc) /\
  (service_filter <> "" -> (length results <= 1)%nat) /\
  (prom_ok = false -> results = []).
Proof.
  intros Ha. unfold analyze in Ha.
  apply bind_Ok in Ha as (unsorted & Hfe & [= <-]).
  pose proof (listed_services (snapshots prometheus prom_ok) service_filter)
    as [Hnd Hin].
  cbn zeta in Hnd, Hin.
  pose proof (for_each_map _ service (fun svc => svc) _ _
                (analyze_service_service _ pyroscope pyro_ok thresholds) Hfe)
    as Hmap.
  rewrite map_id in Hmap.
  assert (Hperm : Permutation (map service (sort_by key_lt sort_key unsorted))
                    (map service unsorted))
    by apply Permutation_map, sort_by_Permutation.
  split; [| split; [| split]].
  - rewrite Hperm, Hmap. exact Hnd.
  - intros svc. rewrite <- Hin, <- Hmap. split; apply Permutation_in;
      [exact Hperm | symmetry; exact Hperm].
  - intros Hf. rewrite sort_by_length, <- (length_map service), Hmap.
    apply String.eqb_neq in Hf. rewrite Hf in Hnd, Hin |- *.
    apply (NoDup_all_equal (get REVERSE_MAP service_filter service_filter));
      [exact Hnd |].
    intros x Hx. apply list_elem_of_In, list_elem_of_filter in Hx as [Hx _].
    exact Hx.
  - intros ->. cbn in Hfe. rewrite sorted_keys_empty in Hfe.
    destruct (String.eqb service_filter ""); cbn in Hfe; injection Hfe as <-;
      reflexivity.
Qed.

Lemma subscript_insert_ne (thresholds : gmap string float) (k k' : string)
    (x : float) :
  k <> k' -> subscript (<[k := x]> thresholds) k' = subscript thresholds k'.
Proof. intros Hne. unfold subscript. now rewrite lookup_insert_ne. Qed.

Lemma detect_signals_unused (thresholds : gmap string float) (k : string)
    (x c g hp avg_lat : float) (cpu_top mem_top mutex_top : list Hotspot) :
  k <> "cpu" -> k <> "gc" -> k <> "heap_pct" -> k <> "latency_ms" ->
  detect_signals (<[k := x]> thresholds) c g hp avg_lat cpu_top mem_top mutex_top
  = detect_signals thresholds c g hp avg_lat cpu_top mem_top mutex_top.
Proof.
  intros H1 H2 H3 H4. unfold detect_signals.
  now rewrite !subscript_insert_ne by assumption.
Qed.

(** The thresholds [threads] and [err_pct] can be overridden like the other
    four, and no value of them changes what [analyze] returns: the resolver
    never reads them. *)
Theorem thread_and_error_thresholds_are_never_read
    (prometheus pyroscope : string) (prom_ok pyro_ok : bool)
    (service_filter : string) (thresholds : gmap string float) (x : float) :
  analyze prometheus pyroscope prom_ok pyro_ok service_filter
    (<["threads" := x]> thresholds)
  = analyze prometheus pyroscope prom_ok pyro_ok service_filter thresholds /\
  analyze prometheus pyroscope prom_ok pyro_ok service_filter
    (<["err_pct" := x]> thresholds)
  = analyze prometheus pyroscope prom_ok pyro_ok service_filter thresholds.
Proof.
  split; unfold analyze; f_equal; apply for_each_ext; intros svc _;
    unfold analyze_service;
    (destruct (service_metrics _ svc) as [v|e]; cbn [bind]; [| reflexivity]);
    rewrite detect_signals_unused by discriminate; reflexivity.
Qed.

Lemma int_of_float_exn (x : float) (e : exn) :
  int_of_float x = Raise e -> e = ValueError \/ e = OverflowError.
Proof.
  unfold int_of_float. destruct (Prim2SF x); intros [= <-]; auto.
Qed.

Lemma service_metrics_Raise (q : Snapshots) (svc : string) (e : exn) :
  service_metrics q svc = Raise e
  <-> int_of_float (get (threads q) svc 0%float) = Raise e.
Proof.
  unfold service_metrics.
  rewrite heap_ratio_Ok, average_latency_ms_Ok, error_percent_Ok. cbn [bind].
  destruct (int_of_float _) as [n|e']; cbn [bind]; split; congruence.
Qed.

Lemma analyze_service_Raise (q : Snapshots) (pyroscope : string) (pyro_ok : bool)
    (thresholds : gmap string float) (svc : string) (e : exn) :
  Spec.same_keys thresholds ->
  analyze_service q pyroscope pyro_ok thresholds svc = Raise e ->
  int_of_float (get (threads q) svc 0%float) = Raise e.
Proof.
  intros Hs Hr.
  destruct (int_of_float (get (threads q) svc 0%float)) as [n|e'] eqn:Hn.
  - destruct (analyze_service_returns q pyroscope pyro_ok thresholds svc)
      as (r & Hok).
    + specialize (Hs "cpu"). unfold contains_key in Hs.
      destruct (thresholds !! "cpu"); [eauto | discriminate].
    + specialize (Hs "gc"). unfold contains_key in Hs.
      destruct (thresholds !! "gc"); [eauto | discriminate].
    + specialize (Hs "heap_pct"). unfold contains_key in Hs.
      destruct (thresholds !! "heap_pct"); [eauto | discriminate].
    + specialize (Hs "latency_ms"). unfold contains_key in Hs.
      destruct (thresholds !! "latency_ms"); [eauto | discriminate].
    + now rewrite Hn.
    + congruence.
  - unfold analyze_service in Hr.
    apply service_metrics_Raise in Hn. rewrite Hn in Hr. cbn [bind] in Hr.
    congruence.
Qed.

(** [main] as a whole: whatever the command line and the samples, it raises
    nothing but ValueError and OverflowError; it returns a report exactly
    when no override of a known key has an unparsable value and every
    listed service has a finite thread count (an absent one counts as 0).
    One NaN or infinite thread sample fails the whole report. *)
Theorem main_fails_only_on_bad_numbers (args : Args) :
  let q := snapshots (prometheus_url args) (prom_ok args) in
  (forall e, main args = Raise e -> e = ValueError \/ e = OverflowError) /\
  (is_ok (main args) = true
   <-> ~ Exists Spec.fatal (split (strip (threshold_str args)))
       /\ forall svc,
            Spec.listed q (service_filter args) svc ->
            is_ok (int_of_float (get (threads q) svc 0%float)) = true).
Proof.
  intros q. unfold main.
  destruct (parse_thresholds (threshold_str args)) as [thresholds|e0] eqn:Hp.
  - assert (Hnf : ~ Exists Spec.fatal (split (strip (threshold_str args)))).
    { intros Hex.
      assert (Hr : parse_thresholds (threshold_str args) = Raise ValueError)
        by (apply parse_tokens_Raise; [apply same_keys_default | auto]).
      congruence. }
    apply parse_tokens_Ok in Hp as [Hs _]; [| apply same_keys_default].
    cbn [bind]. unfold analyze. fold q.
    pose proof (listed_services q (service_filter args)) as [_ Hin].
    cbn zeta in Hin.
    set (services := if String.eqb (service_filter args) "" then sorted_keys (cpu q)
                     else filter _ (sorted_keys (cpu q))) in *.
    destruct (for_each _ services) as [results|e] eqn:Hfe; cbn [bind is_ok].
    + split; [discriminate |]. split; [| intros _; reflexivity]. intros _.
      split; [exact Hnf |]. intros svc Hl. apply Hin in Hl.
      apply for_each_Ok in Hfe.
      assert (Hex : exists r, analyze_service q (pyroscope_url args) (pyro_ok args)
                                thresholds svc = Ok r).
      { clear -Hfe Hl. induction Hfe as [|x y l ys Hy _ IH]; [destruct Hl |].
        destruct Hl as [-> | Hl]; eauto. }
      destruct Hex as (r & Hr).
      apply analyze_service_Ok in Hr as (v & _ & Hv & _). cbn zeta in Hv.
      apply service_metrics_Ok in Hv as (n & -> & _). reflexivity.
    + destruct (for_each_Raise _ _ _ Hfe) as (svc & Hl & Hr).
      apply analyze_service_Raise in Hr; [| exact Hs].
      split; [intros e' [= <-]; eapply int_of_float_exn, Hr |].
      split; [discriminate |]. intros [_ Hall].
      apply Hin, Hall in Hl. rewrite Hr in Hl. discriminate.
  - cbn [bind is_ok].
    apply parse_tokens_Raise in Hp as [-> Hex]; [| apply same_keys_default].
    split; [intros e [= <-]; auto |].
    split; [discriminate | intros [Hnf _]; contradiction].
Qed.

Lemma make_result_primary_function (svc pyro_name : string) (v : Locals)
    (cpu_top mem_top mutex_top : list Hotspot) (signals : list Signal) :
  primary_function (make_result svc pyro_name v cpu_top mem_top mutex_top signals)
  = match signals with
    | [] => None
    | primary :: _ => function <$> head (hotspots primary)
    end.
Proof.
  unfold make_result. destruct signals as [|s rest]; [reflexivity |].
  cbn. now destruct (hotspots s).
Qed.

(** The first recorded signal, with the hotspot list that supports it. *)
Lemma recorded_head (tc tg th tl : float) (v : Locals)
    (cpu_top mem_top mutex_top : list Hotspot) :
  match Spec.recorded_signals tc tg th tl v cpu_top mem_top mutex_top with
  | [] => True
  | s :: _ =>
      (kind s = "cpu-bound" /\ hotspots s = cpu_top)
      \/ (kind s = "gc-bound" /\ hotspots s = mem_top)
      \/ (kind s = "memory-pressure" /\ hotspots s = mem_top)
      \/ (kind s = "lock-bound" /\ hotspots s = mutex_top /\ mutex_top <> [])
      \/ (kind s = "io-bound" /\ hotspots s = [])
  end.
Proof.
  unfold Spec.recorded_signals, Spec.prior_signals, Spec.lock_fires.
  destruct (ge (c v) tc); [left; split; reflexivity |].
  destruct (ge (g v) tg); [right; left; split; reflexivity |].
  destruct (ge (hp v) th); [do 2 right; left; split; reflexivity |].
  destruct mutex_top as [|f fs].
  - destruct (gt (avg_lat v) tl); [do 4 right; split; reflexivity | exact I].
  - destruct (gt (self_pct f) 5%float).
    + do 3 right. left. repeat split. discriminate.
    + destruct (gt (avg_lat v) tl); [do 4 right; split; reflexivity | exact I].
Qed.

(** The function a result names as primary is the first hotspot of the
    profile behind its verdict: the CPU profile for cpu-bound, the
    allocation profile for gc-bound and memory-pressure, the mutex profile
    for lock-bound, and none for io-bound and healthy. Each of the three
    hotspot lists of a result has at most one entry. Without Pyroscope the
    verdict is never lock-bound, no function is named and the three lists
    are empty. *)
Theorem primary_function_follows_verdict
    (q : Snapshots) (pyroscope : string) (pyro_ok : bool)
    (thresholds : gmap string float) (svc : string) (r : Result) :
  analyze_service q pyroscope pyro_ok thresholds svc = Ok r ->
  let top profile_id :=
    _pyro_top pyroscope pyro_ok (get SVC_MAP svc svc) profile_id 3 in
  let first (funcs : list Hotspot) := function <$> head funcs in
  (verdict r = "cpu-bound" -> primary_function r = first (top CPU_PROFILE)) /\
  (verdict r = "gc-bound" \/ verdict r = "memory-pressure" ->
   primary_function r = first (top MEM_PROFILE)) /\
  (verdict r = "lock-bound" -> primary_function r = first (top MUTEX_PROFILE)) /\
  (verdict r = "io-bound" \/ verdict r = "healthy" -> primary_function r = None) /\
  (top_cpu r = take 1 (top CPU_PROFILE)
   /\ top_alloc r = take 1 (top MEM_PROFILE)
   /\ top_mutex r = take 1 (top MUTEX_PROFILE)) /\
  (pyro_ok = false ->
   verdict r <> "lock-bound" /\ primary_function r = None
   /\ top_cpu r = [] /\ top_alloc r = [] /\ top_mutex r = []).
Proof.
  intros Hr top first.
  apply analyze_service_Ok in Hr as (v & signals & _ & Hs & ->). cbn zeta in Hs.
  apply detect_signals_Ok in Hs as (tc & tg & th & tl & _ & _ & _ & _ & ->).
  fold (top CPU_PROFILE) (top MEM_PROFILE) (top MUTEX_PROFILE).
  rewrite make_result_verdict, make_result_primary_function.
  assert (Hempty : pyro_ok = false -> forall p, top p = []).
  { intros -> p. reflexivity. }
  pose proof (recorded_head tc tg th tl v (top CPU_PROFILE) (top MEM_PROFILE)
                (top MUTEX_PROFILE)) as Hhead.
  split; [| split; [| split; [| split; [| split]]]].
  - destruct (Spec.recorded_signals _ _ _ _ _ _ _ _) as [|s rest]; [discriminate |].
    intros Hk. destruct Hhead as [[_ ->] | [[Hk' _] | [[Hk' _] | [[Hk' _] | [Hk' _]]]]];
      [reflexivity | congruence ..].
  - destruct (Spec.recorded_signals _ _ _ _ _ _ _ _) as [|s rest];
      [intros [? | ?]; discriminate |].
    intros Hk.
    destruct Hhead as [[Hk' _] | [[_ ->] | [[_ ->] | [[Hk' _] | [Hk' _]]]]];
      try reflexivity; destruct Hk; congruence.
  - destruct (Spec.recorded_signals _ _ _ _ _ _ _ _) as [|s rest]; [discriminate |].
    intros Hk.
    destruct Hhead as [[Hk' _] | [[Hk' _] | [[Hk' _] | [[_ [-> _]] | [Hk' _]]]]];
      [congruence .. | reflexivity | congruence].
  - destruct (Spec.recorded_signals _ _ _ _ _ _ _ _) as [|s rest]; [reflexivity |].
    intros Hk.
    destruct Hhead as [[Hk' _] | [[Hk' _] | [[Hk' _] | [[Hk' _] | [_ ->]]]]];
      try reflexivity; destruct Hk; congruence.
  - unfold make_result.
    destruct (Spec.recorded_signals _ _ _ _ _ _ _ _); repeat split; reflexivity.
  - intros Hp. specialize (Hempty Hp). split; [| split].
    + destruct (Spec.recorded_signals _ _ _ _ _ _ _ _) as [|s rest]; [discriminate |].
      intros Hk.
      destruct Hhead as [[Hk' _] | [[Hk' _] | [[Hk' _] | [[_ [_ Hne]] | [Hk' _]]]]];
        try congruence; apply Hne, Hempty.
    + destruct (Spec.recorded_signals _ _ _ _ _ _ _ _) as [|s rest]; [reflexivity |].
      destruct Hhead as [[_ ->] | [[_ ->] | [[_ ->] | [[_ [-> _]] | [_ ->]]]]];
        rewrite ?Hempty; reflexivity.
    + unfold make_result.
      destruct (Spec.recorded_signals _ _ _ _ _ _ _ _);
        cbn; rewrite !Hempty; repeat split; reflexivity.
Qed.

(** A hotspot list has the entries of the profile query in their order,
    with their percentages, and no slash is left in a function name; when
    Pyroscope is not reachable the list is empty. *)
Theorem pyro_top_dots_names (pyroscope : string) (pyro_ok : bool)
    (service profile_id : string) (n : Z) :
  let funcs := _pyro_top pyroscope pyro_ok service profile_id n in
  Forall (fun f => contains_char "/" (function f) = false) funcs /\
  (pyro_ok = true ->
   map self_pct funcs
   = map Api.pct (pyro_top_functions pyroscope service profile_id n)
   /\ map function funcs
      = map (fun f => replace_char "/" "." (Api.function f))
          (pyro_top_functions pyroscope service profile_id n)) /\
  (pyro_ok = false -> funcs = []).
Proof.
  unfold _pyro_top. destruct pyro_ok; cbn zeta.
  - split; [| split; [| discriminate]].
    + apply Forall_map, Forall_true. intros f. cbn.
      apply replace_char_absent. discriminate.
    + intros _. rewrite !map_map. split; reflexivity.
  - split; [constructor | split; [discriminate | reflexivity]].
Qed.

End AnalyzeFacts.

(** The sample fleet under the filter [service-a]: one result, for the
    container [a]. *)
Lemma analyze_reports_listed_services_once_example :
  Py.fmap (map Bottleneck.service)
    (Bottleneck.analyze "prometheus" "pyroscope" true true "service-a"
       Bottleneck.DEFAULT_THRESHOLDS)
  = Py.Ok ["a"].
Proof.
  destruct (Bottleneck.analyze "prometheus" "pyroscope" true true "service-a"
              Bottleneck.DEFAULT_THRESHOLDS) as [results|e] eqn:Ha;
    [| vm_compute in Ha; discriminate].
  destruct (analyze_reports_listed_services_once _ _ _ _ _ _ _ Ha)
    as (_ & Hin & Hlen & _).
  specialize (Hlen ltac:(discriminate)).
  assert (Ha' : In "a" (map Bottleneck.service results)).
  { apply Hin. split; [vm_compute; eauto | right; vm_compute; reflexivity]. }
  simpl. f_equal.
  destruct results as [|r [|r' results]]; simpl in *; try lia.
  destruct Ha' as [-> | []]. reflexivity.
Defined.

(** Service [a] of the sample fleet is cpu-bound, and its primary function
    is the first function of the CPU profile, in dotted form. *)
Lemma primary_function_follows_verdict_example :
  Py.fmap Bottleneck.primary_function
    (Bottleneck.analyze_service Fixture.snapshots "pyroscope" true
       Bottleneck.DEFAULT_THRESHOLDS "a")
  = Py.Ok (Some "com.example.Ledger.post").
Proof.
  destruct (Bottleneck.analyze_service Fixture.snapshots "pyroscope" true
              Bottleneck.DEFAULT_THRESHOLDS "a") as [r|e] eqn:Hr;
    [| vm_compute in Hr; discriminate].
  destruct (primary_function_follows_verdict _ _ _ _ _ _ Hr) as (Hcpu & _).
  simpl. f_equal. rewrite Hcpu; [reflexivity |].
  vm_compute in Hr. injection Hr as <-. reflexivity.
Defined.

(** A thread sample that is not a number stops the resolver with
    ValueError, and an infinite one with OverflowError. *)
Example thread_count_not_finite_example :
  let broken x :=
    {| Bottleneck.cpu := list_to_map [("d", 0.1%float)];
       Bottleneck.heap_used := ∅; Bottleneck.heap_max := ∅; Bottleneck.gc := ∅;
       Bottleneck.threads := list_to_map [("d", x)];
       Bottleneck.req_rate := ∅; Bottleneck.err_rate := ∅;
       Bottleneck.lat_sum := ∅; Bottleneck.lat_count := ∅ |} in
  Bottleneck.analyze_service (broken PrimFloat.nan) "pyroscope" false
    Bottleneck.DEFAULT_THRESHOLDS "d" = Py.Raise Py.ValueError /\
  Bottleneck.analyze_service (broken PrimFloat.infinity) "pyroscope" false
    Bottleneck.DEFAULT_THRESHOLDS "d" = Py.Raise Py.OverflowError.
Proof. split; vm_compute; reflexivity. Qed.

(** ** Further properties: the health check as a whole *)

Section HealthMainFacts.
Import Py JvmHealth.
Context `{Builtins} `{Api}.

Lemma evaluate_service_Ok
    (cpu_rate_ heap_used heap_max heap_pct_ gc_rate_ threads_ : gmap string float)
    (svc : string) :
  match int_of_float (get threads_ svc 0%float) with
  | Ok _ =>
      exists r,
        evaluate_service cpu_rate_ heap_used heap_max heap_pct_ gc_rate_ threads_ svc
        = Ok r /\ service r = svc
  | Raise e =>
      evaluate_service cpu_rate_ heap_used heap_max heap_pct_ gc_rate_ threads_ svc
      = Raise e
  end.
Proof.
  unfold evaluate_service.
  destruct (int_of_float (get threads_ svc 0%float)) as [n|e]; cbn [bind];
    [| reflexivity].
  eexists. split; reflexivity.
Qed.

Lemma evaluate_service_service
    (cpu_rate_ heap_used heap_max heap_pct_ gc_rate_ threads_ : gmap string float)
    (svc : string) (r : Result) :
  evaluate_service cpu_rate_ heap_used heap_max heap_pct_ gc_rate_ threads_ svc
  = Ok r -> service r = svc.
Proof.
  intros Hr.
  pose proof (evaluate_service_Ok cpu_rate_ heap_used heap_max heap_pct_ gc_rate_
                threads_ svc) as He.
  destruct (int_of_float _); [| congruence].
  destruct He as (r' & Hr' & Hs). congruence.
Qed.

(** The services [main] loops over. *)
Lemma monitored_services (prometheus : string) (heap_pct_ : gmap string float) :
  build_heap_pct (prom_instant prometheus Api.heap_used_bytes)
    (prom_instant prometheus Api.heap_max_bytes) = Ok heap_pct_ ->
  let all_svcs :=
    sort_by String.ltb (fun s => s)
      (elements (dom (prom_instant prometheus Api.process_cpu_rate)
                 ∪ dom heap_pct_
                 ∪ dom (prom_instant prometheus Api.gc_seconds_rate)
                 ∪ dom (prom_instant prometheus Api.threads_current))) in
  NoDup all_svcs /\ forall svc, In svc all_svcs <-> Spec.monitored prometheus svc.
Proof.
  intros Hb all_svcs. subst all_svcs. split.
  - rewrite sort_by_Permutation. apply NoDup_elements.
  - intros svc. rewrite sort_by_In, <- list_elem_of_In, elem_of_elements.
    rewrite !elem_of_union, !elem_of_dom. unfold Spec.monitored.
    destruct (build_heap_pct_Ok (prom_instant prometheus Api.heap_used_bytes)
                (prom_instant prometheus Api.heap_max_bytes)) as (m & Hm & Hlook).
    rewrite Hb in Hm. injection Hm as <-. rewrite Hlook.
    assert (Hheap :
      is_Some (match prom_instant prometheus Api.heap_used_bytes !! svc,
                     prom_instant prometheus Api.heap_max_bytes !! svc with
               | Some used, Some hm =>
                   if gt hm 0%float then Some (PrimFloat.div used hm) else None
               | _, _ => None
               end)
      <-> is_Some (prom_instant prometheus Api.heap_used_bytes !! svc)
          /\ exists hm, prom_instant prometheus Api.heap_max_bytes !! svc = Some hm
                        /\ gt hm 0%float = true).
    { destruct (prom_instant prometheus Api.heap_used_bytes !! svc) as [used|].
      - destruct (prom_instant prometheus Api.heap_max_bytes !! svc) as [hm|].
        + destruct (gt hm 0%float) eqn:Hgt.
          * split; [intros _; split; eauto | eauto].
          * split; [intros [? ?]; discriminate |].
            intros [_ (hm' & [= <-] & Hgt')]. congruence.
        + split; [intros [? ?]; discriminate | intros [_ (? & ? & _)]; discriminate].
      - split; [intros [? ?]; discriminate | intros [[? ?] _]; discriminate]. }
    rewrite Hheap. tauto.
Qed.

Lemma for_each_Ok_all {A B : Type} (body : A -> result B) (l : list A) (ys : list B)
    (x : A) :
  for_each body l = Ok ys -> In x l -> exists y, body x = Ok y.
Proof.
  intros Hfe. apply for_each_Ok in Hfe.
  induction Hfe as [|x' y l ys Hy _ IH]; [intros [] |].
  intros [<- | Hin]; eauto.
Qed.

(** The health check reports on every monitored service once and on no
    other; a service with a used-heap sample only, or whose heap maximum is
    0 or absent, is not monitored for its heap. It leaves through
    [sys.exit(1)] exactly when no service is monitored, and otherwise returns
    its list unless the thread count of a monitored service is NaN or
    infinite, which raises ValueError or OverflowError for the whole run. *)
Theorem health_check_lists_monitored_services
    (prometheus pyroscope : string) (json_mode : bool) :
  (main prometheus pyroscope json_mode = Raise SystemExit
   <-> forall svc, ~ Spec.monitored prometheus svc) /\
  (forall results,
     main prometheus pyroscope json_mode = Ok results ->
     results <> [] /\ NoDup (map service results)
     /\ forall svc, In svc (map service results) <-> Spec.monitored prometheus svc) /\
  (forall e,
     main prometheus pyroscope json_mode = Raise e ->
     e = SystemExit
     \/ ((e = ValueError \/ e = OverflowError)
         /\ exists svc,
              Spec.monitored prometheus svc
              /\ int_of_float
                   (get (prom_instant prometheus Api.threads_current) svc 0%float)
                 = Raise e)) /\
  (is_ok (main prometheus pyroscope json_mode) = true
   <-> (exists svc, Spec.monitored prometheus svc)
       /\ forall svc,
            Spec.monitored prometheus svc ->
            is_ok (int_of_float
                     (get (prom_instant prometheus Api.threads_current) svc 0%float))
            = true).
Proof.
  unfold main.
  destruct (build_heap_pct_Ok (prom_instant prometheus Api.heap_used_bytes)
              (prom_instant prometheus Api.heap_max_bytes)) as (m & Hm & _).
  rewrite Hm. cbn [bind].
  pose proof (monitored_services prometheus m Hm) as [Hnd Hin]. cbn zeta in Hnd, Hin.
  set (all_svcs := sort_by String.ltb (fun s => s) _) in *.
  set (body := evaluate_service _ _ _ m _ _).
  destruct (is_empty all_svcs) eqn:Hemp.
  - assert (Hnone : forall svc, ~ Spec.monitored prometheus svc).
    { intros svc Hmon. apply Hin in Hmon.
      destruct all_svcs; [destruct Hmon | discriminate]. }
    split; [split; auto |]. split; [discriminate |].
    split; [intros e [= <-]; auto |].
    cbn [is_ok]. split; [discriminate |].
    intros [[svc Hmon] _]. now apply Hnone in Hmon.
  - assert (Hsome : exists svc, Spec.monitored prometheus svc).
    { destruct all_svcs as [|svc0 rest]; [discriminate |].
      exists svc0. apply Hin. now left. }
    destruct (for_each body all_svcs) as [unsorted|e] eqn:Hfe; cbn [bind is_ok].
    + pose proof (for_each_map body service (fun svc => svc) _ _
                    (evaluate_service_service _ _ _ m _ _) Hfe) as Hmap.
      rewrite map_id in Hmap.
      assert (Hperm : Permutation (map service (sort_by key_lt sort_key unsorted))
                        (map service unsorted))
        by apply Permutation_map, sort_by_Permutation.
      split; [split; [discriminate |] |].
      { intros Hnone. destruct Hsome as (svc & Hmon). now apply Hnone in Hmon. }
      split; [| split; [discriminate |]].
      * intros results [= <-]. split; [| split].
        -- intros Heq. apply (f_equal (@length _)) in Heq.
           rewrite sort_by_length, <- (length_map service), Hmap in Heq.
           destruct all_svcs; discriminate.
        -- rewrite Hperm, Hmap. exact Hnd.
        -- intros svc. rewrite <- Hin, <- Hmap. split; apply Permutation_in;
             [exact Hperm | symmetry; exact Hperm].
      * split; [intros _ | reflexivity]. split; [exact Hsome |].
        intros svc Hmon. apply Hin in Hmon.
        destruct (for_each_Ok_all body _ _ svc Hfe Hmon) as (r & Hr).
        subst body. cbn beta in Hr.
        pose proof (evaluate_service_Ok
                      (prom_instant prometheus Api.process_cpu_rate)
                      (prom_instant prometheus Api.heap_used_bytes)
                      (prom_instant prometheus Api.heap_max_bytes) m
                      (prom_instant prometheus Api.gc_seconds_rate)
                      (prom_instant prometheus Api.threads_current) svc) as He.
        destruct (int_of_float _); [reflexivity | congruence].
    + destruct (for_each_Raise _ _ _ Hfe) as (svc & Hl & Hr).
      subst body. cbn beta in Hr.
      pose proof (evaluate_service_Ok
                    (prom_instant prometheus Api.process_cpu_rate)
                    (prom_instant prometheus Api.heap_used_bytes)
                    (prom_instant prometheus Api.heap_max_bytes) m
                    (prom_instant prometheus Api.gc_seconds_rate)
                    (prom_instant prometheus Api.threads_current) svc) as He.
      destruct (int_of_float _) as [n|e'] eqn:Hn;
        [destruct He as (r & Hr' & _); congruence |].
      assert (e' = e) by congruence. subst e'.
      pose proof (int_of_float_exn _ _ Hn) as Hexn.
      split; [split |].
      { intros [= ->]. destruct Hexn; discriminate. }
      { intros Hnone. apply Hin in Hl. now apply Hnone in Hl. }
      split; [discriminate |]. split.
      * intros e'' [= <-]. right. split; [exact Hexn |].
        exists svc. split; [now apply Hin | exact Hn].
      * split; [discriminate |]. intros [_ Hallok].
        apply Hin, Hallok in Hl. rewrite Hn in Hl. discriminate.
Qed.

Lemma health_counts_add_up (results : list Result) :
  Forall (fun r => In (severity r) ["CRITICAL"; "WARNING"; "OK"]) results ->
  Bottleneck.count_if (fun r => String.eqb (severity r) "CRITICAL") results
  + Bottleneck.count_if (fun r => String.eqb (severity r) "WARNING") results
  + Bottleneck.count_if (fun r => String.eqb (severity r) "OK") results
  = Z.of_nat (length results).
Proof.
  induction 1 as [|r results Hr _ IH].
  - reflexivity.
  - rewrite !count_if_cons. simpl length. rewrite Nat2Z.inj_succ, <- IH.
    destruct Hr as [<- | [<- | [<- | []]]]; simpl; lia.
Qed.

(** Every result of the health check has the status CRITICAL, WARNING or OK,
    so the three counts of the summary line add up to the number of
    services listed. *)
Theorem health_summary_adds_up
    (prometheus pyroscope : string) (json_mode : bool) (results : list Result) :
  main prometheus pyroscope json_mode = Ok results ->
  Forall (fun r => In (severity r) ["CRITICAL"; "WARNING"; "OK"]) results /\
  (summary results).1.1 + (summary results).1.2 + (summary results).2
  = Z.of_nat (length results).
Proof.
  intros Hm.
  assert (Hall : Forall (fun r => In (severity r) ["CRITICAL"; "WARNING"; "OK"])
                   results).
  { unfold main in Hm. apply bind_Ok in Hm as (m & _ & Hm).
    destruct (is_empty _); [discriminate |].
    apply bind_Ok in Hm as (unsorted & Hfe & [= <-]).
    apply List.Forall_forall. intros r Hin. apply sort_by_In in Hin.
    destruct (for_each_elem _ _ _ _ Hfe Hin) as (svc & _ & Hr).
    apply evaluate_service_severity in Hr. rewrite Hr. unfold Spec.status.
    destruct (existsb _ _); [simpl; auto |].
    destruct (existsb _ _); simpl; auto. }
  split; [exact Hall |]. now apply health_counts_add_up.
Qed.

End HealthMainFacts.

(** The health check of the sample fleet: [a] and [c] are critical, [b] is
    healthy. *)
Lemma health_summary_adds_up_example :
  Py.fmap JvmHealth.summary (JvmHealth.main "prometheus" "pyroscope" true)
  = Py.Ok (2, 0, 1).
Proof.
  destruct (JvmHealth.main "prometheus" "pyroscope" true) as [results|e] eqn:Hm;
    [| vm_compute in Hm; discriminate].
  pose proof (health_summary_adds_up _ _ _ _ Hm) as [_ Hsum].
  vm_compute in Hm. injection Hm as <-. vm_compute. reflexivity.
Defined.

(** ** Further properties: what the decoder keeps and when it fails *)

Section DecoderMore.
Import Py ParseFlamegraph.

Lemma item_Raise {A : Type} (l : list A) (i : Z) :
  i < len l ->
  match item l i with
  | Ok _ => - len l <= i
  | Raise e => e = IndexError /\ i < - len l
  end.
Proof.
  intros Hlt. unfold item, len in *.
  destruct (Z.ltb_spec i 0) as [Hneg|Hpos].
  - destruct (Z.leb_spec 0 (i + Z.of_nat (length l))) as [Hle|Hgt]; cbn [andb].
    + destruct (Z.ltb_spec (i + Z.of_nat (length l)) (Z.of_nat (length l)))
        as [_|Hge]; [| lia].
      destruct (lookup_lt_is_Some_2 l (Z.to_nat (i + Z.of_nat (length l))))
        as [x ->]; lia.
    + split; [reflexivity | lia].
  - destruct (Z.leb_spec 0 i) as [_|Hgt]; [| lia]. cbn [andb].
    destruct (Z.ltb_spec i (Z.of_nat (length l))) as [_|Hge]; [| lia].
    destruct (lookup_lt_is_Some_2 l (Z.to_nat i)) as [x ->]; lia.
Qed.

Lemma credit_cases (names : list string) (n s : Z) (self_map : gmap string Z) :
  match credit names n s self_map with
  | Ok self_map' =>
      ~ (0 < s /\ n < - len names)
      /\ (self_map' = self_map
          \/ exists name, 0 < s
               /\ self_map' = <[name := get self_map name 0 + s]> self_map)
  | Raise e => e = IndexError /\ 0 < s /\ n < - len names
  end.
Proof.
  unfold credit. pose proof (Nat2Z.is_nonneg (length names)) as Hlen.
  fold (len names) in Hlen.
  destruct (Z.ltb_spec n (len names)) as [Hlt|Hge]; cbn [andb].
  - destruct (Z.gtb_spec s 0) as [Hs|Hs].
    + pose proof (item_Raise names n Hlt) as Hi.
      destruct (item names n) as [name|e]; cbn [bind].
      * split; [lia |]. right. exists name. split; [lia | reflexivity].
      * destruct Hi as [-> Hn]. repeat split; lia.
    + split; [lia | now left].
  - split; [lia | now left].
Qed.

Lemma credit_all_Raise (names : list string) (fs : list Spec.Frame)
    (self_map : gmap string Z) (e : exn) :
  Spec.credit_all names fs self_map = Raise e
  <-> e = IndexError /\ Exists (Spec.breaks names) fs.
Proof.
  revert self_map. induction fs as [|f fs IH]; intros self_map; cbn [Spec.credit_all].
  - split; [discriminate | intros [_ Hex]; inversion Hex].
  - pose proof (credit_cases names (Spec.nameIndex f) (Spec.self f) self_map) as Hc.
    destruct (credit names _ _ self_map) as [self_map'|e']; cbn [bind].
    + destruct Hc as [Hnot _]. rewrite IH. split; intros [-> Hex]; (split; [reflexivity |]).
      * now right.
      * inversion Hex as [? ? Hb | ? ? Hb]; subst; [contradiction | exact Hb].
    + destruct Hc as (-> & Hs & Hn). split.
      * intros [= <-]. split; [reflexivity |]. left. split; assumption.
      * intros [-> _]. reflexivity.
Qed.

Lemma credit_all_positive (names : list string) (fs : list Spec.Frame)
    (self_map self_map' : gmap string Z) :
  map_Forall (fun _ v => 0 < v) self_map ->
  Spec.credit_all names fs self_map = Ok self_map' ->
  map_Forall (fun _ v => 0 < v) self_map'.
Proof.
  revert self_map. induction fs as [|f fs IH]; intros self_map Hpos;
    cbn [Spec.credit_all].
  - now intros [= <-].
  - pose proof (credit_cases names (Spec.nameIndex f) (Spec.self f) self_map) as Hc.
    destruct (credit names _ _ self_map) as [m|e]; cbn [bind]; [| discriminate].
    apply IH. destruct Hc as [_ [-> | (name & Hs & ->)]]; [exact Hpos |].
    apply map_Forall_insert_2; [| exact Hpos].
    unfold get. destruct (self_map !! name) as [v|] eqn:Hv; [| lia].
    apply Hpos in Hv. lia.
Qed.

(** The decoder fails in one way only: with IndexError, and exactly when
    the profile has ticks and some complete group of 4 has a positive self
    value and a name index below [-len(names)]. A name index at or above
    [len(names)], a self value of 0 or less, a trailing partial group and an
    empty level are all passed over; and a profile without ticks is never
    read, so it cannot fail. *)
Theorem decoder_fails_only_on_low_name_index (fb : Flamebearer) (e : exn) :
  decode fb = Raise e
  <-> numTicks fb <> 0 /\ e = IndexError
      /\ Exists (Spec.breaks (names fb)) (concat (map Spec.frames (levels fb))).
Proof.
  unfold decode. destruct (Z.eqb_spec (numTicks fb) 0) as [Hz|Hnz].
  - split; [discriminate | intros [Hne _]; contradiction].
  - rewrite self_times_frames.
    pose proof (credit_all_Raise (names fb) (concat (map Spec.frames (levels fb)))
                  ∅ e) as Hr.
    destruct (Spec.credit_all _ _ ∅) as [m|e']; cbn [bind].
    + split; [discriminate |]. intros (_ & He & Hex).
      assert (Hc : Ok m = Raise e) by (apply Hr; auto). discriminate.
    + split.
      * intros [= <-]. split; [exact Hnz |]. now apply Hr.
      * intros (_ & He & Hex). f_equal. symmetry.
        assert (Hc : Raise e' = Raise e) by (apply Hr; auto). congruence.
Qed.

(** Every total the decoder returns is greater than zero: a function whose
    frames all have a self value of 0 or less has no entry at all. *)
Theorem decoder_totals_are_positive (names : list string) (levels : list (list Z))
    (self_map : gmap string Z) (name : string) (v : Z) :
  self_times names levels = Ok self_map ->
  self_map !! name = Some v ->
  0 < v.
Proof.
  rewrite self_times_frames. intros Hm Hv.
  eapply (credit_all_positive names _ ∅ self_map); [| exact Hm | exact Hv].
  apply map_Forall_empty.
Qed.

End DecoderMore.

(** A frame with self value 0 leaves no entry, and the entry of [a] is the
    positive 7. *)
Lemma decoder_totals_are_positive_example :
  Py.fmap (fun self_map => (self_map !! "a", self_map !! "b"))
    (ParseFlamegraph.self_times ["a"; "b"] [[0; 7; 7; 0; 7; 3; 0; 1]])
  = Py.Ok (Some 7, None).
Proof.
  destruct (ParseFlamegraph.self_times ["a"; "b"] [[0; 7; 7; 0; 7; 3; 0; 1]])
    as [self_map|e] eqn:Hm; [| vm_compute in Hm; discriminate].
  assert (Ha : self_map !! "a" = Some 7)
    by (vm_compute in Hm; injection Hm as <-; reflexivity).
  pose proof (decoder_totals_are_positive _ _ _ "a" 7 Hm Ha) as Hpos.
  simpl. rewrite Ha. vm_compute in Hm. injection Hm as <-. reflexivity.
Defined.

(** ** Further properties: the report of [parse_flamegraph.py] *)

Section ReportFacts.
Import Py ParseFlamegraph.
Context `{Builtins} `{IntFormat}.

Lemma classify_four (name app_prefix : string) :
  In (classify name app_prefix) ["app"; "lib"; "jvm"; "other"].
Proof.
  unfold classify. destruct (startswith _ app_prefix); [simpl; auto |].
  destruct (existsb _ JVM_PREFIXES); [simpl; auto |].
  destruct (existsb _ LIB_PREFIXES); simpl; auto.
Qed.

Lemma cat_totals_fold (app_prefix c : string) (items : list (string * Z))
    (acc : gmap string Z) :
  let mine := List.filter (fun x => String.eqb (classify x.1 app_prefix) c) items in
  fold_left (fun cat_totals x =>
               let cat := classify x.1 app_prefix in
               <[cat := get cat_totals cat 0 + x.2]> cat_totals) items acc !! c
  = if is_empty mine then acc !! c
    else Some (get acc c 0 + foldr Z.add 0 (map snd mine)).
Proof.
  revert acc. induction items as [|x items IH]; intros acc; [reflexivity |].
  cbn [fold_left List.filter]. cbn zeta in IH |- *. rewrite IH.
  destruct (String.eqb_spec (classify x.1 app_prefix) c) as [Hc | Hc].
  - subst c. cbn [is_empty map foldr].
    destruct (List.filter _ items); cbn [is_empty map foldr].
    + rewrite lookup_insert_eq. f_equal. lia.
    + f_equal. unfold get at 1. rewrite lookup_insert_eq. lia.
  - unfold get. rewrite !lookup_insert_ne by exact Hc. reflexivity.
Qed.

Lemma cat_totals_lookup (app_prefix c : string) (items : list (string * Z)) :
  let mine := List.filter (fun x => String.eqb (classify x.1 app_prefix) c) items in
  cat_totals items app_prefix !! c
  = if is_empty mine then None else Some (foldr Z.add 0 (map snd mine)).
Proof.
  cbn zeta. unfold cat_totals. rewrite cat_totals_fold. cbn zeta.
  unfold get. rewrite lookup_empty. reflexivity.
Qed.

Lemma sum_positive (l : list Z) :
  Forall (fun v => 0 < v) l -> l <> [] -> 0 < foldr Z.add 0 l.
Proof.
  intros Hall Hne. destruct Hall as [|v l Hv Hall]; [contradiction |].
  cbn [foldr]. clear Hne.
  assert (0 <= foldr Z.add 0 l); [| lia].
  induction Hall as [|w l Hw _ IH]; cbn [foldr]; lia.
Qed.

Lemma sum_app (l1 l2 : list Z) :
  foldr Z.add 0 (l1 ++ l2)%list = foldr Z.add 0 l1 + foldr Z.add 0 l2.
Proof. induction l1 as [|x l1 IH]; cbn [foldr app]; lia. Qed.

Lemma four_way (w : string * Z -> Z) (app_prefix : string)
    (items : list (string * Z)) :
  let part c :=
    foldr Z.add 0
      (map w (List.filter (fun x => String.eqb (classify x.1 app_prefix) c) items)) in
  part "app" + (part "lib" + (part "jvm" + part "other"))
  = foldr Z.add 0 (map w items).
Proof.
  cbn zeta. induction items as [|x items IH]; [reflexivity |].
  cbn [List.filter map foldr]. rewrite <- IH.
  destruct (classify_four x.1 app_prefix) as [<- | [<- | [<- | [<- | []]]]];
    cbn [map foldr]; simpl String.eqb; cbn [map foldr]; lia.
Qed.

Lemma filter_nonempty_positive (p : string * Z -> bool) (items : list (string * Z)) :
  Forall (fun x => 0 < x.2) items ->
  is_empty (List.filter p items) = false ->
  0 < foldr Z.add 0 (map snd (List.filter p items))
  /\ 0 < len (List.filter p items).
Proof.
  intros Hpos Hne. split.
  - apply sum_positive.
    + apply List.Forall_forall. intros v Hv. apply in_map_iff in Hv as (x & <- & Hx).
      apply filter_In in Hx as [Hx _].
      now apply (proj1 (List.Forall_forall _ _) Hpos).
    + destruct (List.filter p items); [discriminate | discriminate].
  - unfold len. destruct (List.filter p items); [discriminate |]. cbn [length]. lia.
Qed.

Lemma cat_totals_empty_iff (items : list (string * Z)) (app_prefix : string) :
  Forall (fun x => 0 < x.2) items ->
  (sum_values (cat_totals items app_prefix) >? 0) = negb (is_empty items).
Proof.
  intros Hpos. destruct items as [|x items]; [reflexivity |]. cbn [is_empty negb].
  apply Z.gtb_lt. unfold sum_values.
  set (totals := cat_totals (x :: items) app_prefix).
  assert (Hall : forall c v, totals !! c = Some v -> 0 < v).
  { intros c v. unfold totals. rewrite cat_totals_lookup. cbn zeta.
    destruct (is_empty _) eqn:He; [discriminate |]. intros Hv.
    apply (inj Some) in Hv. rewrite <- Hv.
    exact (proj1 (filter_nonempty_positive _ _ Hpos He)). }
  apply sum_positive.
  - apply List.Forall_forall. intros v Hv. apply in_map_iff in Hv as ([c v'] & <- & Hx).
    apply list_elem_of_In, elem_of_map_to_list in Hx. eapply Hall, Hx.
  - intros Hnil. apply map_eq_nil, map_to_list_empty_iff in Hnil.
    assert (Hx : totals !! classify x.1 app_prefix = None) by (rewrite Hnil; apply lookup_empty).
    unfold totals in Hx. rewrite cat_totals_lookup in Hx. cbn zeta in Hx.
    cbn [List.filter] in Hx. rewrite String.eqb_refl in Hx. discriminate.
Qed.

Lemma self_times_positive (names : list string) (levels : list (list Z))
    (self_map : gmap string Z) :
  self_times names levels = Ok self_map ->
  map_Forall (fun _ v => 0 < v) self_map.
Proof.
  rewrite self_times_frames. intros Hm.
  eapply (credit_all_positive names _ ∅ self_map); [| exact Hm].
  apply map_Forall_empty.
Qed.

Lemma slice_to_length {A : Type} (l : list A) (n : Z) :
  len (slice_to l n)
  = if n <? 0 then Z.max 0 (len l + n) else Z.min n (len l).
Proof.
  unfold slice_to, len. rewrite length_take.
  destruct (Z.ltb_spec n 0); lia.
Qed.



Lemma StronglySorted_take {A : Type} (R : A -> A -> Prop) (l : list A) (n : nat) :
  StronglySorted R l -> StronglySorted R (take n l).
Proof.
  intros Hs. revert n. induction Hs as [|x l Hs IH Hx]; intros [|n]; cbn [take];
    try constructor.
  - apply IH.
  - apply List.Forall_forall. intros y Hy.
    apply (proj1 (List.Forall_forall _ _) Hx).
    apply list_elem_of_In. apply list_elem_of_In in Hy.
    apply elem_of_take in Hy as (i & Hi & _). eapply list_elem_of_lookup_2, Hi.
Qed.

Lemma StronglySorted_weaken {A : Type} (R R' : A -> A -> Prop) (l : list A) :
  (forall x y, R x y -> R' x y) -> StronglySorted R l -> StronglySorted R' l.
Proof.
  intros HR. induction 1 as [|x l Hs IH Hx]; constructor; [exact IH |].
  eapply Forall_impl; [exact Hx |]. intros y. apply HR.
Qed.


Lemma skip_then (r : Run) : then_ skip r = r.
Proof. now destruct r. Qed.



Lemma then_raised_second (a b : Run) :
  raised a = None -> raised (then_ a b) = raised b.
Proof. unfold then_. now intros ->. Qed.

Lemma for_print_filter {A : Type} (p : A -> bool) (body : A -> Run) (l : list A) :
  for_print (fun x => if p x then body x else skip) l
  = for_print body (List.filter p l).
Proof.
  induction l as [|x l IH]; [reflexivity |]. cbn [for_print List.filter].
  destruct (p x); cbn [for_print]; rewrite IH; [reflexivity | apply skip_then].
Qed.

(** A loop that prints one line for each element prints the lines of the
    elements before the first one whose line cannot be computed, and ends
    with the exception of that one, if there is one. *)
Lemma for_print_lines {A : Type} (line : A -> result Line) (l : list A) :
  let run := for_print (fun x => print_or_raise (line x)) l in
  exists done rest,
    l = (done ++ rest)%list
    /\ Forall2 (fun x ln => line x = Ok ln) done (printed run)
    /\ match raised run with
       | None => rest = []
       | Some e => exists x rest', rest = x :: rest' /\ line x = Raise e
       end.
Proof.
  cbn zeta. induction l as [|x l IH].
  - exists [], []. cbn. repeat split; constructor.
  - cbn [for_print]. destruct (line x) as [ln|e] eqn:Hx; cbn [print_or_raise].
    + destruct IH as (done & rest & -> & Hall & Hend).
      exists (x :: done), rest. unfold then_, print. cbn [raised printed app].
      split; [reflexivity |]. split; [constructor; assumption | exact Hend].
    + exists [], (x :: l). unfold then_. cbn [raised printed app].
      split; [reflexivity |]. split; [constructor |]. eauto.
Qed.

Lemma enumerate1_lookup {A : Type} (l : list A) (i : nat) (e : Z * A) :
  enumerate1 l !! i = Some e <-> e.1 = Z.of_nat i + 1 /\ l !! i = Some e.2.
Proof.
  unfold enumerate1. rewrite list_lookup_imap. destruct (l !! i) as [x|]; cbn.
  - destruct e as [n y]. cbn. split.
    + intros [= <- <-]. auto.
    + intros [-> [= ->]]. reflexivity.
  - split; [discriminate | intros [_ Hx]; discriminate].
Qed.

Lemma enumerate1_app {A : Type} (l : list A) (done rest : list (Z * A)) :
  enumerate1 l = (done ++ rest)%list ->
  map snd done = take (length done) l
  /\ forall i e, done !! i = Some e -> e.1 = Z.of_nat i + 1 /\ l !! i = Some e.2.
Proof.
  intros Heq.
  assert (Hlook : forall i e, done !! i = Some e ->
            e.1 = Z.of_nat i + 1 /\ l !! i = Some e.2).
  { intros i e Hi. apply enumerate1_lookup. rewrite Heq.
    now apply lookup_app_l_Some. }
  split; [| exact Hlook].
  apply list_eq. intros i. rewrite list_lookup_fmap.
  destruct (done !! i) as [e|] eqn:Hi; cbn.
  - destruct (Hlook i e Hi) as [_ Hl]. rewrite lookup_take_lt; [now rewrite Hl |].
    eapply lookup_lt_Some, Hi.
  - apply lookup_ge_None in Hi. symmetry. apply lookup_ge_None.
    rewrite length_take. lia.
Qed.

Lemma ranked_line_Ok (total : Z) (unit app_prefix : string) (e : Z * (string * Z))
    (ln : Line) :
  ranked_line total unit app_prefix e = Ok ln ->
  exists q amount,
    int_truediv e.2.2 total = Ok q /\ format_val e.2.2 unit = Ok amount
    /\ ln = RankedLine {| rank := e.1; pct := PrimFloat.mul q 100%float;
                          amount := amount; tag := classify e.2.1 app_prefix;
                          shown := e.2.1 |}.
Proof.
  unfold ranked_line. intros Hl.
  apply bind_Ok in Hl as (q & Hq & Hl). apply bind_Ok in Hl as (a & Ha & [= <-]).
  exists q, a. rewrite display_is_the_name. auto.
Qed.

Lemma ranked_line_Raise (total : Z) (unit app_prefix : string) (e : Z * (string * Z))
    (x : exn) :
  ranked_line total unit app_prefix e = Raise x ->
  int_truediv e.2.2 total = Raise x \/ format_val e.2.2 unit = Raise x.
Proof.
  unfold ranked_line. cbv zeta.
  destruct (int_truediv e.2.2 total) as [q|x']; cbn [bind];
    [| intros [= ->]; left; reflexivity].
  destruct (format_val e.2.2 unit) as [a|x']; cbn [bind];
    [discriminate | intros [= ->]; right; reflexivity].
Qed.

Lemma int_truediv_Raise (a b : Z) (e : exn) :
  int_truediv a b = Raise e ->
  (b = 0 /\ e = ZeroDivisionError) \/ (b <> 0 /\ e = OverflowError).
Proof.
  unfold int_truediv. destruct (Z.eqb_spec b 0) as [-> | Hb].
  - intros [= <-]. now left.
  - destruct (SFdiv _ _ _ _); intros [= <-]. now right.
Qed.

Lemma format_val_Raise (val : Z) (unit : string) (e : exn) :
  format_val val unit = Raise e ->
  e = OverflowError \/ (unit = "count" /\ format_int val "," = Raise e).
Proof.
  unfold format_val. destruct (String.eqb_spec unit "bytes") as [-> | Hb].
  - destruct (int_truediv val 1024) as [q|x] eqn:Hq; cbn [bind]; [discriminate |].
    intros [= <-]. left.
    destruct (int_truediv_Raise _ _ _ Hq) as [[Hz _] | [_ ->]];
      [discriminate | reflexivity].
  - destruct (String.eqb_spec unit "count") as [-> | Hc].
    + destruct (format_int val ",") as [s|x]; cbn [bind]; [discriminate |].
      intros [= <-]. now right.
    + destruct (int_truediv val 1000000000) as [q|x] eqn:Hq; cbn [bind];
        [discriminate |].
      intros [= <-]. left.
      destruct (int_truediv_Raise _ _ _ Hq) as [[Hz _] | [_ ->]];
        [discriminate | reflexivity].
Qed.

(** What [print_ranked] prints, whether or not it comes to its end. *)
Lemma print_ranked_lines (items : list (string * Z)) (top_n total : Z)
    (unit app_prefix : string) :
  let first_items := slice_to items top_n in
  let run := print_ranked items top_n total unit app_prefix in
  exists rows,
    printed run = map RankedLine rows
    /\ map shown rows = map fst (take (length rows) first_items)
    /\ (forall i r,
          rows !! i = Some r ->
          rank r = Z.of_nat i + 1 /\ tag r = classify (shown r) app_prefix
          /\ exists val q,
               first_items !! i = Some (shown r, val)
               /\ int_truediv val total = Ok q
               /\ pct r = PrimFloat.mul q 100%float
               /\ format_val val unit = Ok (amount r))
    /\ match raised run with
       | None => length rows = length first_items
       | Some e =>
           exists name val,
             first_items !! length rows = Some (name, val)
             /\ (int_truediv val total = Raise e \/ format_val val unit = Raise e)
       end.
Proof.
  cbn zeta. unfold print_ranked.
  destruct (for_print_lines (ranked_line total unit app_prefix)
              (enumerate1 (slice_to items top_n))) as (done & rest & Heq & Hall & Hend).
  cbn zeta in Hall, Hend.
  set (run := for_print _ _) in *.
  destruct (enumerate1_app _ _ _ Heq) as [Hsnd Hlook].
  pose proof (Forall2_length _ _ _ Hall) as Hlen.
  assert (Hrow : forall i ln, printed run !! i = Some ln ->
            exists e q amount,
              done !! i = Some e
              /\ int_truediv e.2.2 total = Ok q /\ format_val e.2.2 unit = Ok amount
              /\ ln = RankedLine {| rank := e.1; pct := PrimFloat.mul q 100%float;
                                    amount := amount; tag := classify e.2.1 app_prefix;
                                    shown := e.2.1 |}).
  { intros i ln Hi.
    destruct (Forall2_lookup_r _ _ _ _ _ Hall Hi) as (e & He & Hl).
    destruct (ranked_line_Ok _ _ _ _ _ Hl) as (q & a & Hq & Ha & ->).
    exists e, q, a. auto. }
  assert (Hrows : exists rows, printed run = map RankedLine rows).
  { assert (Hall' : Forall (fun ln => exists r, ln = RankedLine r) (printed run)).
    { apply Forall_lookup. intros i ln Hi.
      destruct (Hrow i ln Hi) as (e & q & a & _ & _ & _ & ->). eauto. }
    clear -Hall'. induction Hall' as [|ln lns [r ->] _ [rows ->]].
    - exists []. reflexivity.
    - exists (r :: rows). reflexivity. }
  destruct Hrows as (rows & Hrows). exists rows.
  assert (Hlen' : length rows = length done)
    by (rewrite Hlen, Hrows, length_map; reflexivity).
  assert (Hr : forall i r, rows !! i = Some r ->
            exists e q amount,
              done !! i = Some e
              /\ int_truediv e.2.2 total = Ok q /\ format_val e.2.2 unit = Ok amount
              /\ r = {| rank := e.1; pct := PrimFloat.mul q 100%float;
                        amount := amount; tag := classify e.2.1 app_prefix;
                        shown := e.2.1 |}).
  { intros i r Hi.
    destruct (Hrow i (RankedLine r)) as (e & q & a & He & Hq & Ha & [= ->]).
    - rewrite Hrows, list_lookup_fmap, Hi. reflexivity.
    - exists e, q, a. auto. }
  split; [exact Hrows |]. split; [| split].
  - rewrite Hlen', <- Hsnd. apply list_eq. intros i. rewrite !list_lookup_fmap.
    destruct (rows !! i) as [r|] eqn:Hi; cbn.
    + destruct (Hr i r Hi) as (e & q & a & -> & _ & _ & ->). reflexivity.
    + apply lookup_ge_None in Hi. rewrite Hlen' in Hi.
      apply lookup_ge_None in Hi. now rewrite Hi.
  - intros i r Hi. destruct (Hr i r Hi) as (e & q & a & He & Hq & Ha & ->).
    destruct (Hlook i e He) as [Hrank Hitem]. cbn [rank tag shown pct amount].
    split; [exact Hrank |]. split; [reflexivity |].
    exists e.2.2, q. rewrite Hitem. destruct e as [n [name val]]. auto.
  - destruct (raised run) as [e|].
    + destruct Hend as (x & rest' & -> & Hx).
      assert (Hx' : enumerate1 (slice_to items top_n) !! length rows = Some x).
      { rewrite Heq, Hlen'. rewrite lookup_app_r by lia.
        now rewrite Nat.sub_diag. }
      apply enumerate1_lookup in Hx' as [_ Hitem].
      exists x.2.1, x.2.2. rewrite Hitem. destruct x as [n [name val]].
      split; [reflexivity |]. apply (ranked_line_Raise _ _ _ _ _ Hx).
    + subst rest. rewrite app_nil_r in Heq. rewrite Hlen', <- Heq.
      unfold enumerate1. now rewrite length_imap.
Qed.

(** The ranking. [print_ranked] goes through the first [top_n] items it is
    given, in their order, a negative [top_n] leaving out that many items at
    the end: each line has its rank, counted from 1, the unchanged name, the
    category of the name, and the percentage and the amount computed from
    the value. The lines stop at the first item whose value is too large
    to be divided into a float, or whose amount cannot be written, with
    that exception (OverflowError, or what the formatting of an int
    raised, since [main] never has a total of 0); otherwise every item has
    its line. The list [main]
    ranks holds the items in descending order of self-time, those of equal
    self-time in the order of the dict. *)
Theorem ranking_lists_the_first_items_by_self_time
    (items : list (string * Z)) (top_n total : Z) (unit app_prefix : string) :
  let first_items := slice_to items top_n in
  let run := print_ranked items top_n total unit app_prefix in
  (exists rows,
     printed run = map RankedLine rows
     /\ map shown rows = map fst (take (length rows) first_items)
     /\ (forall i r,
           rows !! i = Some r ->
           rank r = Z.of_nat i + 1 /\ tag r = classify (shown r) app_prefix
           /\ exists val q,
                first_items !! i = Some (shown r, val)
                /\ int_truediv val total = Ok q
                /\ pct r = PrimFloat.mul q 100%float
                /\ format_val val unit = Ok (amount r))
     /\ match raised run with
        | None => length rows = length first_items
        | Some e =>
            exists name val,
              first_items !! length rows = Some (name, val)
              /\ (int_truediv val total = Raise e
                  \/ format_val val unit = Raise e)
        end) /\
  (forall e,
     raised run = Some e -> total <> 0 ->
     e = OverflowError
     \/ (unit = "count" /\ exists val, format_int val "," = Raise e)) /\
  len first_items
  = (if top_n <? 0 then Z.max 0 (len items + top_n) else Z.min top_n (len items)) /\
  Permutation (all_sorted items) items /\
  (forall v, filter (fun x => x.2 = v) (all_sorted items)
             = filter (fun x => x.2 = v) items) /\
  StronglySorted (fun x y => x.2 >= y.2) (all_sorted items).
Proof.
  cbn zeta. split; [apply print_ranked_lines |]. split.
  { intros e He Htotal.
    destruct (print_ranked_lines items top_n total unit app_prefix)
      as (rows & _ & _ & _ & Hend).
    cbn zeta in Hend. rewrite He in Hend.
    destruct Hend as (name & val & _ & [Hq | Hf]).
    - destruct (int_truediv_Raise _ _ _ Hq) as [[Hz _] | [_ ->]];
        [contradiction | now left].
    - destruct (format_val_Raise _ _ _ Hf) as [-> | [-> Hi]]; [now left |].
      right. eauto. }
  split; [apply slice_to_length |]. split; [apply sort_by_Permutation |]. split.
  - intros v. unfold all_sorted.
    pose proof (sort_by_stable Z.ltb (fun x : string * Z => - x.2) Z.ltb_irrefl
                  (- v) items) as Hst.
    rewrite (list_filter_iff (fun x : string * Z => x.2 = v)
               (fun x : string * Z => - x.2 = - v)) by (intros x; lia).
    rewrite Hst. apply list_filter_iff. intros x. lia.
  - eapply StronglySorted_weaken;
      [| apply (sort_by_sorted Z.ltb (fun x : string * Z => - x.2))].
    + intros x y. unfold ascending, key_le. rewrite Z.ltb_ge. lia.
    + apply Z.ltb_irrefl.
    + intros a b c. rewrite !Z.ltb_lt. lia.
    + intros a b. rewrite !Z.ltb_ge. lia.
Qed.




Lemma print_then (l : Line) (b : Run) :
  raised (then_ (print l) b) = raised b
  /\ printed (then_ (print l) b) = l :: printed b.
Proof. split; reflexivity. Qed.

Lemma then_print (a : Run) (l : Line) :
  raised (then_ a (print l)) = raised a
  /\ printed (then_ a (print l))
     = (printed a ++ match raised a with None => [l] | Some _ => [] end)%list.
Proof.
  unfold then_. destruct (raised a) eqn:Ha; cbn [raised printed print].
  - rewrite Ha, app_nil_r. split; reflexivity.
  - split; reflexivity.
Qed.

Lemma sum_filter (p : string -> bool) (f g : string -> Z) (l : list string) :
  (forall c, In c l -> if p c then f c = g c else g c = 0) ->
  foldr Z.add 0 (map f (List.filter p l)) = foldr Z.add 0 (map g l).
Proof.
  induction l as [|c l IH]; intros Hfg; [reflexivity |].
  cbn [List.filter map foldr]. pose proof (Hfg c (or_introl eq_refl)) as Hc.
  destruct (p c); cbn [map foldr]; rewrite IH; try lia;
    intros c' Hc'; apply Hfg; now right.
Qed.

Lemma category_line_spec (items : list (string * Z)) (total : Z)
    (unit app_prefix : string) (totals : gmap string Z) (c : string) (ln : Line) :
  (v <- subscript totals c ;;
   q <- int_truediv v total ;;
   let pct := PrimFloat.mul q 100%float in
   let count :=
     len (List.filter (fun x => String.eqb (classify x.1 app_prefix) c) items) in
   amount <- format_val v unit ;;
   Ok (CategoryLine {| cat := c; cat_amount := amount; cat_pct := pct;
                       count := count |})) = Ok ln ->
  exists v q amount,
    totals !! c = Some v /\ int_truediv v total = Ok q
    /\ format_val v unit = Ok amount
    /\ ln = CategoryLine
              {| cat := c; cat_amount := amount;
                 cat_pct := PrimFloat.mul q 100%float;
                 count := len (List.filter
                                 (fun x => String.eqb (classify x.1 app_prefix) c)
                                 items) |}.
Proof.
  intros Hl. apply bind_Ok in Hl as (v & Hv & Hl).
  apply bind_Ok in Hl as (q & Hq & Hl). cbv zeta in Hl.
  apply bind_Ok in Hl as (a & Ha & [= <-]).
  exists v, q, a. unfold subscript in Hv.
  destruct (totals !! c); [injection Hv as -> | discriminate]. auto.
Qed.

(** The category summary accounts for every function once. The dict of
    the totals has an entry for each of the four categories that has a
    function, and for nothing else, with the sum of the self-times of its
    functions, which is greater than zero; the totals add up to the
    self-time of all functions and the counts to their number. The summary
    is left out exactly when no function has a self-time. Otherwise it
    prints, after its heading, one line for each category of the dict, in
    the order app, lib, jvm, other, with the number of its functions and
    the percentage and the amount computed from its total, then an empty
    line; it stops before the first category whose total is too large to
    be divided into a float, or whose amount cannot be written, with that
    exception. *)
Theorem category_summary_accounts_for_every_function
    (names : list string) (levels : list (list Z)) (self_map : gmap string Z)
    (items : list (string * Z)) (total : Z) (unit app_prefix : string) :
  self_times names levels = Ok self_map ->
  Permutation items (map_to_list self_map) ->
  let totals := cat_totals items app_prefix in
  let mine c :=
    List.filter (fun x => String.eqb (classify x.1 app_prefix) c) items in
  let present :=
    List.filter (fun c => contains_key c totals) ["app"; "lib"; "jvm"; "other"] in
  let run := category_summary items total unit app_prefix in
  (forall c,
     totals !! c
     = if is_empty (mine c) then None else Some (foldr Z.add 0 (map snd (mine c)))) /\
  (forall c v,
     totals !! c = Some v -> In c ["app"; "lib"; "jvm"; "other"] /\ 0 < v) /\
  foldr Z.add 0 (map (fun c => get totals c 0) present)
  = foldr Z.add 0 (map snd items) /\
  foldr Z.add 0 (map (fun c => len (mine c)) present) = Z.of_nat (size self_map) /\
  (self_map = ∅ -> run = skip) /\
  (self_map <> ∅ ->
   exists rows,
     printed run
     = ([Blank; SummaryHeading; SummaryRule] ++ map CategoryLine rows
        ++ match raised run with None => [Blank] | Some _ => [] end)%list
     /\ map cat rows = take (length rows) present
     /\ Forall (fun r =>
                  count r = len (mine (cat r))
                  /\ exists v q,
                       totals !! cat r = Some v
                       /\ int_truediv v total = Ok q
                       /\ cat_pct r = PrimFloat.mul q 100%float
                       /\ format_val v unit = Ok (cat_amount r)) rows
     /\ match raised run with
        | None => length rows = length present
        | Some e =>
            exists c v,
              present !! length rows = Some c /\ totals !! c = Some v
              /\ (int_truediv v total = Raise e \/ format_val v unit = Raise e)
        end).
Proof.
  intros Hm Hperm totals mine present run.
  assert (Hpos : Forall (fun x => 0 < x.2) items).
  { apply List.Forall_forall. intros [name v] Hin.
    apply (Permutation_in _ Hperm), list_elem_of_In, elem_of_map_to_list in Hin.
    exact (self_times_positive _ _ _ Hm _ _ Hin). }
  assert (Hlook : forall c,
            totals !! c
            = if is_empty (mine c) then None
              else Some (foldr Z.add 0 (map snd (mine c))))
    by (intros c; apply cat_totals_lookup).
  assert (Hkey : forall c, contains_key c totals = negb (is_empty (mine c))).
  { intros c. unfold contains_key. rewrite Hlook. now destruct (is_empty (mine c)). }
  assert (Hempty : self_map = ∅ <-> is_empty items = true).
  { split.
    - intros ->. rewrite map_to_list_empty in Hperm.
      symmetry in Hperm. apply Permutation_nil in Hperm. now rewrite Hperm.
    - intros He. destruct items; [| discriminate].
      apply map_to_list_empty_iff. now apply Permutation_nil in Hperm. }
  split; [exact Hlook |]. split; [| split; [| split; [| split]]].
  - intros c v. rewrite Hlook. destruct (is_empty (mine c)) eqn:He; [discriminate |].
    intros [= <-]. split; [| now apply filter_nonempty_positive].
    destruct (mine c) as [|x l] eqn:Hx; [discriminate |].
    assert (Hin : In x (mine c)) by (rewrite Hx; now left).
    apply filter_In in Hin as [_ Hc]. apply String.eqb_eq in Hc. subst c.
    apply classify_four.
  - unfold present.
    rewrite (sum_filter _ _ (fun c => foldr Z.add 0 (map snd (mine c)))).
    + cbn [map foldr]. rewrite Z.add_0_r. apply (four_way snd).
    + intros c _. rewrite Hkey. unfold get. rewrite Hlook.
      destruct (mine c); reflexivity.
  - unfold present.
    rewrite (sum_filter _ _ (fun c => foldr Z.add 0 (map (fun _ => 1) (mine c)))).
    + cbn [map foldr]. rewrite Z.add_0_r.
      transitivity (foldr Z.add 0 (map (fun _ : string * Z => 1) items));
        [exact (four_way (fun _ => 1) app_prefix items) |].
      rewrite <- length_map_to_list, <- (Permutation_length Hperm).
      clear. induction items as [|x items IH]; cbn [map foldr length]; lia.
    + intros c _. rewrite Hkey. unfold len.
      induction (mine c) as [|x l IH]; [reflexivity |].
      cbn [is_empty negb map foldr length] in *.
      destruct l; cbn [is_empty negb map foldr length] in *; lia.
  - intros He. apply Hempty in He. unfold run, category_summary. cbn zeta.
    rewrite (cat_totals_empty_iff _ _ Hpos), He. reflexivity.
  - intros Hne.
    assert (He : is_empty items = false).
    { destruct (is_empty items); [| reflexivity].
      exfalso. apply Hne, Hempty. reflexivity. }
    unfold run, category_summary. cbn zeta.
    rewrite (cat_totals_empty_iff _ _ Hpos), He. cbn [negb]. fold totals.
    set (line c :=
           v <- subscript totals c ;;
           q <- int_truediv v total ;;
           let pct := PrimFloat.mul q 100%float in
           let count :=
             len (List.filter (fun x => String.eqb (classify x.1 app_prefix) c)
                    items) in
           amount <- format_val v unit ;;
           Ok (CategoryLine {| cat := c; cat_amount := amount; cat_pct := pct;
                               count := count |})).
    assert (Hloop : for_print (category_line items total unit app_prefix totals)
                      ["app"; "lib"; "jvm"; "other"]
                    = for_print (fun c => print_or_raise (line c)) present).
    { unfold present. rewrite <- for_print_filter. reflexivity. }
    rewrite Hloop.
    set (loop := for_print (fun c => print_or_raise (line c)) present).
    destruct (for_print_lines line present) as (done & rest & Heq & Hall & Hend).
    cbn zeta in Hall, Hend. fold loop in Hall, Hend.
    destruct (then_print loop Blank) as [Hr Hp].
    rewrite !(proj1 (print_then _ _)), !(proj2 (print_then _ _)), Hr, Hp.
    pose proof (Forall2_length _ _ _ Hall) as Hlen.
    assert (Hrow : forall i ln, printed loop !! i = Some ln ->
              exists c v q amount,
                done !! i = Some c /\ totals !! c = Some v
                /\ int_truediv v total = Ok q /\ format_val v unit = Ok amount
                /\ ln = CategoryLine
                          {| cat := c; cat_amount := amount;
                             cat_pct := PrimFloat.mul q 100%float;
                             count := len (mine c) |}).
    { intros i ln Hi.
      destruct (Forall2_lookup_r _ _ _ _ _ Hall Hi) as (c & Hc & Hl).
      destruct (category_line_spec _ _ _ _ _ _ _ Hl) as (v & q & a & Hv & Hq & Ha & ->).
      exists c, v, q, a. auto. }
    assert (Hrows : exists rows, printed loop = map CategoryLine rows).
    { assert (Hall' : Forall (fun ln => exists r, ln = CategoryLine r) (printed loop)).
      { apply Forall_lookup. intros i ln Hi.
        destruct (Hrow i ln Hi) as (c & v & q & a & _ & _ & _ & _ & ->). eauto. }
      clear -Hall'. induction Hall' as [|ln lns [r ->] _ [rows ->]].
      - exists []. reflexivity.
      - exists (r :: rows). reflexivity. }
    destruct Hrows as (rows & Hrows). exists rows.
    assert (Hlen' : length rows = length done)
      by (rewrite Hlen, Hrows, length_map; reflexivity).
    assert (Hr' : forall i r, rows !! i = Some r ->
              exists c v q amount,
                done !! i = Some c /\ totals !! c = Some v
                /\ int_truediv v total = Ok q /\ format_val v unit = Ok amount
                /\ r = {| cat := c; cat_amount := amount;
                          cat_pct := PrimFloat.mul q 100%float;
                          count := len (mine c) |}).
    { intros i r Hi.
      destruct (Hrow i (CategoryLine r)) as (c & v & q & a & Hc & Hv & Hq & Ha & [= ->]).
      - rewrite Hrows, list_lookup_fmap, Hi. reflexivity.
      - exists c, v, q, a. auto. }
    split; [rewrite Hrows; reflexivity |]. split; [| split].
    + rewrite Heq, Hlen', take_app_length. apply list_eq. intros i.
      rewrite list_lookup_fmap.
      destruct (rows !! i) as [r|] eqn:Hi; cbn.
      * destruct (Hr' i r Hi) as (c & v & q & a & -> & _ & _ & _ & ->). reflexivity.
      * apply lookup_ge_None in Hi. rewrite Hlen' in Hi.
        apply lookup_ge_None in Hi. now rewrite Hi.
    + apply Forall_lookup. intros i r Hi.
      destruct (Hr' i r Hi) as (c & v & q & a & _ & Hv & Hq & Ha & ->).
      cbn [count cat cat_pct cat_amount]. split; [reflexivity |].
      exists v, q. auto.
    + destruct (raised loop) as [e|].
      * destruct Hend as (c & rest' & -> & Hc).
        assert (Hc' : present !! length rows = Some c).
        { rewrite Heq, Hlen', lookup_app_r by lia. now rewrite Nat.sub_diag. }
        unfold line in Hc. unfold subscript in Hc.
        assert (Hin : In c present)
          by (eapply list_elem_of_In, list_elem_of_lookup_2, Hc').
        apply filter_In in Hin as [_ Hk]. unfold contains_key in Hk.
        destruct (totals !! c) as [v|] eqn:Hv; [| discriminate].
        exists c, v. split; [exact Hc' |]. split; [exact Hv |].
        cbn [bind] in Hc.
        destruct (int_truediv v total) as [q|x]; cbn [bind] in Hc;
          [| injection Hc as ->; left; reflexivity].
        cbv zeta in Hc.
        destruct (format_val v unit) as [a|x]; cbn [bind] in Hc;
          [discriminate | injection Hc as ->; right; reflexivity].
      * subst rest. rewrite app_nil_r in Heq. now rewrite Hlen', Heq.
Qed.

End ReportFacts.

(** Two functions, one of the application and one of the JVM, and 10
    ticks: the summary has the two lines app and jvm between its heading
    and an empty line, and comes to its end. *)
Lemma category_summary_accounts_for_every_function_example :
  ParseFlamegraph.self_times ["com/example/Ledger.post"; "java/util/HashMap.get"]
    [[0; 10; 4; 0]; [0; 6; 6; 1]]
  = Py.Ok (list_to_map [("com/example/Ledger.post", 4); ("java/util/HashMap.get", 6)]) /\
  exists rows,
    ParseFlamegraph.printed
      (ParseFlamegraph.category_summary
         [("com/example/Ledger.post", 4); ("java/util/HashMap.get", 6)] 10
         "samples" "com.example.")
    = ([ParseFlamegraph.Blank; ParseFlamegraph.SummaryHeading;
        ParseFlamegraph.SummaryRule]
       ++ map ParseFlamegraph.CategoryLine rows ++ [ParseFlamegraph.Blank])%list
    /\ map (fun r => (ParseFlamegraph.cat r, ParseFlamegraph.cat_pct r,
                      ParseFlamegraph.count r)) rows
       = [("app", 40%float, 1); ("jvm", 60%float, 1)].
Proof.
  assert (Hm : ParseFlamegraph.self_times
                 ["com/example/Ledger.post"; "java/util/HashMap.get"]
                 [[0; 10; 4; 0]; [0; 6; 6; 1]]
               = Py.Ok (list_to_map [("com/example/Ledger.post", 4);
                                     ("java/util/HashMap.get", 6)])).
  { vm_compute. reflexivity. }
  assert (Hp : Permutation [("com/example/Ledger.post", 4); ("java/util/HashMap.get", 6)]
                 (map_to_list
                    (list_to_map [("com/example/Ledger.post", 4);
                                  ("java/util/HashMap.get", 6)] : gmap string Z))).
  { vm_compute. apply perm_swap || reflexivity. }
  destruct (category_summary_accounts_for_every_function _ _ _ _ 10 "samples"
              "com.example." Hm Hp) as (_ & _ & _ & _ & _ & Hrun).
  split; [exact Hm |].
  destruct Hrun as (rows & Hprinted & _).
  { intros Heq.
    apply (f_equal (fun m : gmap string Z => m !! "java/util/HashMap.get")) in Heq.
    vm_compute in Heq. discriminate. }
  exists rows. split.
  - rewrite Hprinted. do 2 f_equal; vm_compute; reflexivity.
  - apply (f_equal (fun l => drop 3 l)) in Hprinted.
    vm_compute in Hprinted.
    destruct rows as [|r1 [|r2 [|r3 rows]]]; try discriminate.
    injection Hprinted as <- <-. vm_compute. reflexivity.
Defined.

(** An item with a self value of 10^400 and one tick: [print_ranked]
    prints the line of the item before it and raises OverflowError; the
    default report dies in its summary, where [--user-code] prints the one
    line of the application. *)
Example report_examples :
  ParseFlamegraph.print_ranked [("a", 7); ("b", 10 ^ 400); ("c", 1)] 15 1
    "samples" "com.example."
  = {| ParseFlamegraph.printed :=
         [ ParseFlamegraph.RankedLine
             {| ParseFlamegraph.rank := 1; ParseFlamegraph.pct := 700%float;
                ParseFlamegraph.amount := "{:.2f}s";
                ParseFlamegraph.tag := "other"; ParseFlamegraph.shown := "a" |} ];
       ParseFlamegraph.raised := Some Py.OverflowError |} /\
  map (fun ln => match ln with
                 | ParseFlamegraph.RankedLine r => ParseFlamegraph.shown r
                 | _ => EmptyString
                 end)
    (ParseFlamegraph.printed
       (ParseFlamegraph.print_ranked
          (ParseFlamegraph.all_sorted
             [("java/util/HashMap.get", 6); ("com/example/Ledger.post", 9);
              ("io/netty/Channel.read", 6)]) (-1) 21 "samples" "com.example."))
  = [ "com/example/Ledger.post"; "java/util/HashMap.get" ] /\
  ParseFlamegraph.report
    {| ParseFlamegraph.top := 15; ParseFlamegraph.unit := "samples";
       ParseFlamegraph.app_prefix := "com.example."; ParseFlamegraph.user_code := false;
       ParseFlamegraph.filter_prefix := "" |} 1
    [("java/util/HashMap.get", 10 ^ 400); ("com/example/Ledger.post", 1)]
  = {| ParseFlamegraph.printed :=
         [ ParseFlamegraph.Blank; ParseFlamegraph.SummaryHeading;
           ParseFlamegraph.SummaryRule;
           ParseFlamegraph.CategoryLine
             {| ParseFlamegraph.cat := "app"; ParseFlamegraph.cat_amount := "{:.2f}s";
                ParseFlamegraph.cat_pct := 100%float; ParseFlamegraph.count := 1 |} ];
       ParseFlamegraph.raised := Some Py.OverflowError |} /\
  ParseFlamegraph.report
    {| ParseFlamegraph.top := 15; ParseFlamegraph.unit := "samples";
       ParseFlamegraph.app_prefix := "com.example."; ParseFlamegraph.user_code := true;
       ParseFlamegraph.filter_prefix := "" |} 1
    [("java/util/HashMap.get", 10 ^ 400); ("com/example/Ledger.post", 1)]
  = {| ParseFlamegraph.printed :=
         [ ParseFlamegraph.RankedLine
             {| ParseFlamegraph.rank := 1; ParseFlamegraph.pct := 100%float;
                ParseFlamegraph.amount := "{:.2f}s";
                ParseFlamegraph.tag := "app";
                ParseFlamegraph.shown := "com/example/Ledger.post" |} ];
       ParseFlamegraph.raised := None |}.
Proof. repeat split; vm_compute; reflexivity. Qed.

(** ** Further properties: the health section of [diagnose.py] *)

Section DiagnoseFacts.
Import Py.
Context `{Builtins} `{Api.Api}.

(** Zero divided by a float greater than zero is zero. *)
Lemma div_zero_positive (x : float) :
  gt x 0%float = true -> PrimFloat.div 0%float x = 0%float.
Proof.
  unfold gt. intros Hx. rewrite FloatAxioms.ltb_spec in Hx.
  rewrite <- (FloatAxioms.SF2Prim_Prim2SF (PrimFloat.div 0%float x)).
  rewrite FloatAxioms.div_spec.
  change (Prim2SF 0%float) with (S754_zero false) in *.
  destruct (Prim2SF x) as [[]|[]| |[] m e]; cbv in Hx; try discriminate;
    reflexivity.
Qed.

(** The heap ratio [collect_health] computes is the one the health check
    reads from its dict [heap_pct]. *)
Lemma diagnose_heap_ratio (heap_used heap_max heap_pct_ : gmap string float)
    (svc : string) :
  JvmHealth.build_heap_pct heap_used heap_max = Ok heap_pct_ ->
  (if gt (get heap_max svc 0%float) 0%float
   then truediv (get heap_used svc 0%float) (get heap_max svc 0%float)
   else Ok 0%float)
  = Ok (get heap_pct_ svc 0%float).
Proof.
  intros Hb.
  destruct (build_heap_pct_Ok heap_used heap_max) as (m & Hm & Hlook).
  rewrite Hb in Hm. injection Hm as <-.
  unfold get at 4. rewrite Hlook. unfold get.
  destruct (heap_max !! svc) as [hm|].
  - destruct (gt hm 0%float) eqn:Hgt.
    + rewrite truediv_guarded by exact Hgt.
      destruct (heap_used !! svc); [reflexivity |].
      now rewrite div_zero_positive.
    + now destruct (heap_used !! svc).
  - now destruct (heap_used !! svc).
Qed.

Lemma max_by_rank_warning :
  Diagnose.max_by_rank "OK" "WARNING" = Ok "WARNING"
  /\ Diagnose.max_by_rank "WARNING" "WARNING" = Ok "WARNING"
  /\ Diagnose.max_by_rank "CRITICAL" "WARNING" = Ok "CRITICAL".
Proof. repeat split; vm_compute; reflexivity. Qed.

Lemma collect_service_status
    (cpu heap_used heap_max gc threads_ heap_pct_ : gmap string float)
    (svc : string) (d : Diagnose.Health) :
  JvmHealth.build_heap_pct heap_used heap_max = Ok heap_pct_ ->
  Diagnose.collect_service cpu heap_used heap_max gc threads_ svc = Ok d ->
  let levels :=
    Spec.three_levels (get cpu svc 0%float) (get heap_pct_ svc 0%float)
      (get gc svc 0%float) in
  Diagnose.service d = svc
  /\ Diagnose.status d = Spec.status levels
  /\ length (Diagnose.issues d) = length levels.
Proof.
  intros Hb Hd levels. subst levels. unfold Diagnose.collect_service in Hd.
  rewrite (diagnose_heap_ratio _ _ _ svc Hb) in Hd. cbn [bind] in Hd.
  destruct (int_of_float _) as [n|e]; cbn [bind] in Hd; [| discriminate].
  destruct max_by_rank_warning as (Hm1 & Hm2 & Hm3).
  unfold Spec.three_levels, Spec.crossing, Spec.status.
  change (JvmHealth.crit (JvmHealth.cpu_rate JvmHealth.THRESHOLDS)) with 0.8%float.
  change (JvmHealth.warn (JvmHealth.cpu_rate JvmHealth.THRESHOLDS)) with 0.5%float.
  change (JvmHealth.crit (JvmHealth.heap_pct JvmHealth.THRESHOLDS)) with 0.85%float.
  change (JvmHealth.warn (JvmHealth.heap_pct JvmHealth.THRESHOLDS)) with 0.7%float.
  change (JvmHealth.crit (JvmHealth.gc_rate JvmHealth.THRESHOLDS)) with 0.1%float.
  change (JvmHealth.warn (JvmHealth.gc_rate JvmHealth.THRESHOLDS)) with 0.03%float.
  destruct (ge (get cpu svc 0%float) 0.8%float);
    [| destruct (ge (get cpu svc 0%float) 0.5%float)];
    (destruct (ge (get heap_pct_ svc 0%float) 0.85%float);
     [| destruct (ge (get heap_pct_ svc 0%float) 0.7%float)]);
    (destruct (ge (get gc svc 0%float) 0.1%float);
     [| destruct (ge (get gc svc 0%float) 0.03%float)]);
    cbn [bind] in Hd; rewrite ?Hm1, ?Hm2, ?Hm3 in Hd; cbn [bind] in Hd;
    rewrite ?Hm1, ?Hm2, ?Hm3 in Hd; cbn [bind] in Hd;
    injection Hd as <-; repeat split; reflexivity.
Qed.

Lemma evaluate_service_levels
    (cpu_rate_ heap_used heap_max heap_pct_ gc_rate_ threads_ : gmap string float)
    (svc : string) (r : JvmHealth.Result) :
  JvmHealth.evaluate_service cpu_rate_ heap_used heap_max heap_pct_ gc_rate_
    threads_ svc = Ok r ->
  map fst (JvmHealth.issues r)
  = (Spec.three_levels (get cpu_rate_ svc 0%float) (get heap_pct_ svc 0%float)
       (get gc_rate_ svc 0%float)
     ++ option_list (Spec.crossing (get threads_ svc 0%float)
                       (JvmHealth.threads JvmHealth.THRESHOLDS)))%list.
Proof.
  intros Hr. unfold JvmHealth.evaluate_service in Hr.
  apply bind_Ok in Hr as (n & _ & Hr). simpl in Hr.
  rewrite !check_app in Hr. simpl in Hr. injection Hr as <-. simpl.
  assert (Hlevels : forall (a b c d : option JvmHealth.Issue),
            map fst (option_list a ++ option_list b ++ option_list c ++ option_list d)%list
            = (option_list (fst <$> a) ++ option_list (fst <$> b)
               ++ option_list (fst <$> c) ++ option_list (fst <$> d))%list).
  { intros [?|] [?|] [?|] [?|]; reflexivity. }
  rewrite <- !app_assoc, Hlevels, !issue_level.
  unfold Spec.three_levels. now rewrite <- !app_assoc.
Qed.

Lemma status_app (l1 l2 : list string) :
  Spec.status (l1 ++ l2)
  = if String.eqb (Spec.status l1) "CRITICAL" then "CRITICAL"
    else if String.eqb (Spec.status l2) "CRITICAL" then "CRITICAL"
    else if String.eqb (Spec.status l1) "WARNING" then "WARNING"
    else Spec.status l2.
Proof.
  unfold Spec.status. rewrite !existsb_app.
  destruct (existsb (String.eqb "CRITICAL") l1), (existsb (String.eqb "CRITICAL") l2),
    (existsb (String.eqb "WARNING") l1), (existsb (String.eqb "WARNING") l2);
    reflexivity.
Qed.

(** The health section of the diagnostic report and the health check agree
    on a service up to its thread count, which the diagnostic report does
    not check: both read the same heap ratio; the status of the report is
    that of the cpu, heap and GC crossings alone, with one issue for each;
    it equals the status of the health check whenever the thread count
    crosses neither of its cutoffs, and is never the more severe of the
    two. *)
Theorem diagnose_agrees_with_health_check_up_to_threads
    (cpu heap_used heap_max gc threads_ heap_pct_ : gmap string float)
    (svc : string) (d : Diagnose.Health) (r : JvmHealth.Result) :
  JvmHealth.build_heap_pct heap_used heap_max = Ok heap_pct_ ->
  Diagnose.collect_service cpu heap_used heap_max gc threads_ svc = Ok d ->
  JvmHealth.evaluate_service cpu heap_used heap_max heap_pct_ gc threads_ svc
  = Ok r ->
  let levels :=
    Spec.three_levels (get cpu svc 0%float) (get heap_pct_ svc 0%float)
      (get gc svc 0%float) in
  Diagnose.status d = Spec.status levels /\
  length (Diagnose.issues d) = length levels /\
  (Spec.crossing (get threads_ svc 0%float) (JvmHealth.threads JvmHealth.THRESHOLDS)
   = None ->
   Diagnose.status d = JvmHealth.severity r
   /\ length (Diagnose.issues d) = length (JvmHealth.issues r)) /\
  (Diagnose.status d = "CRITICAL" -> JvmHealth.severity r = "CRITICAL") /\
  (JvmHealth.severity r = "OK" -> Diagnose.status d = "OK") /\
  (length (Diagnose.issues d) <= length (JvmHealth.issues r))%nat.
Proof.
  intros Hb Hd Hr levels.
  destruct (collect_service_status _ _ _ _ _ _ _ _ Hb Hd) as (_ & Hst & Hlen).
  fold levels in Hst, Hlen.
  pose proof (evaluate_service_severity _ _ _ _ _ _ _ _ Hr) as Hsev.
  pose proof (evaluate_service_levels _ _ _ _ _ _ _ _ Hr) as Hlev.
  fold levels in Hlev. rewrite Hlev in Hsev.
  assert (Hlen' : length (JvmHealth.issues r)
                  = (length levels
                     + length (option_list
                                 (Spec.crossing (get threads_ svc 0%float)
                                    (JvmHealth.threads JvmHealth.THRESHOLDS))))%nat).
  { rewrite <- (length_map (@fst string string)), Hlev, length_app. reflexivity. }
  assert (Hvoc : Spec.status levels = "CRITICAL" \/ Spec.status levels = "WARNING"
                 \/ Spec.status levels = "OK").
  { unfold Spec.status. destruct (existsb _ _); [auto |].
    destruct (existsb _ _); auto. }
  rewrite Hst, Hlen, Hsev, Hlen', status_app.
  split; [reflexivity |]. split; [reflexivity |].
  split; [| split; [| split; [| lia]]].
  - intros ->. cbn [option_list]. rewrite Nat.add_0_r.
    split; [| reflexivity].
    destruct Hvoc as [-> | [-> | ->]]; reflexivity.
  - intros ->. reflexivity.
  - intros Hx. destruct Hvoc as [Hv | [Hv | Hv]]; rewrite Hv in Hx |- *;
      cbn in Hx.
    + discriminate.
    + repeat match type of Hx with
             | context [if ?b then _ else _] => destruct b
             end; discriminate.
    + reflexivity.
Qed.

Lemma collect_service_cases
    (cpu heap_used heap_max gc threads_ : gmap string float) (svc : string) :
  match int_of_float (get threads_ svc 0%float) with
  | Ok t =>
      exists d, Diagnose.collect_service cpu heap_used heap_max gc threads_ svc = Ok d
  | Raise e =>
      Diagnose.collect_service cpu heap_used heap_max gc threads_ svc = Raise e
  end.
Proof.
  destruct (build_heap_pct_Ok heap_used heap_max) as (heap_pct_ & Hb & _).
  unfold Diagnose.collect_service.
  rewrite (diagnose_heap_ratio _ _ _ svc Hb). cbn [bind].
  destruct (int_of_float _) as [t|e]; cbn [bind]; [| reflexivity].
  destruct max_by_rank_warning as (Hm1 & Hm2 & Hm3).
  destruct (ge (get cpu svc 0%float) 0.8%float);
    [| destruct (ge (get cpu svc 0%float) 0.5%float)];
    (destruct (ge (get heap_pct_ svc 0%float) 0.85%float);
     [| destruct (ge (get heap_pct_ svc 0%float) 0.7%float)]);
    (destruct (ge (get gc svc 0%float) 0.1%float);
     [| destruct (ge (get gc svc 0%float) 0.03%float)]);
    cbn [bind]; rewrite ?Hm1, ?Hm2, ?Hm3; cbn [bind];
    rewrite ?Hm1, ?Hm2, ?Hm3; cbn [bind]; eauto.
Qed.

Lemma collect_service_entry
    (cpu heap_used heap_max gc threads_ : gmap string float)
    (svc : string) (d : Diagnose.Health) :
  Diagnose.collect_service cpu heap_used heap_max gc threads_ svc = Ok d ->
  Diagnose.service d = svc
  /\ Spec.is_sort_key (Diagnose.status d) (Diagnose.service d) (Diagnose.sort_key d)
  /\ (cpu !! svc = None -> heap_used !! svc = None -> gc !! svc = None ->
      Diagnose.status d = "OK" /\ Diagnose.issues d = []).
Proof.
  intros Hd.
  destruct (build_heap_pct_Ok heap_used heap_max) as (heap_pct_ & Hb & Hlook).
  destruct (collect_service_status _ _ _ _ _ _ _ _ Hb Hd) as (Hsvc & Hst & Hlen).
  split; [exact Hsvc |]. split.
  - unfold Spec.is_sort_key, Diagnose.sort_key. cbn [fst snd]. rewrite Hst.
    unfold Spec.status.
    destruct (existsb _ _); [split; reflexivity |].
    destruct (existsb _ _); split; reflexivity.
  - intros Hc Hu Hg. rewrite Hst.
    assert (Hl : Spec.three_levels (get cpu svc 0%float) (get heap_pct_ svc 0%float)
                   (get gc svc 0%float) = []).
    { unfold get. rewrite Hc, Hg, Hlook, Hu. vm_compute. reflexivity. }
    rewrite Hl in Hlen |- *. split; [reflexivity |].
    now destruct (Diagnose.issues d).
Qed.

(** [collect_health] reports on exactly the services it is given, one entry
    for each and a repeated name as often as it is given, whether or not
    Prometheus has a sample for it: a service without a cpu, used-heap or GC
    sample is reported OK with no issue. The entries come in ascending order
    of (status rank, service), and every status has a rank. The one way to
    fail is a thread count that is NaN or infinite, which raises ValueError
    or OverflowError for the whole section. *)
Theorem collect_health_reports_each_requested_service
    (prometheus : string) (prom_services : list string) :
  (forall e, Diagnose.collect_health prometheus prom_services = Raise e ->
     e = ValueError \/ e = OverflowError) /\
  (is_ok (Diagnose.collect_health prometheus prom_services) = true
   <-> forall svc,
         In svc prom_services ->
         is_ok (int_of_float
                  (get (Api.prom_instant prometheus Api.threads_current) svc 0%float))
         = true) /\
  (forall hs,
     Diagnose.collect_health prometheus prom_services = Ok hs ->
     Permutation (map Diagnose.service hs) prom_services
     /\ StronglySorted (ascending key_lt Diagnose.sort_key) hs
     /\ Forall (fun h => Spec.is_sort_key (Diagnose.status h) (Diagnose.service h)
                           (Diagnose.sort_key h)) hs
     /\ Forall (fun h =>
                  Api.prom_instant prometheus Api.process_cpu_rate !! Diagnose.service h = None ->
                  Api.prom_instant prometheus Api.heap_used_bytes !! Diagnose.service h = None ->
                  Api.prom_instant prometheus Api.gc_seconds_rate !! Diagnose.service h = None ->
                  Diagnose.status h = "OK" /\ Diagnose.issues h = []) hs).
Proof.
  unfold Diagnose.collect_health.
  set (body := Diagnose.collect_service _ _ _ _ _).
  destruct (for_each body prom_services) as [services|e] eqn:Hfe; cbn [bind is_ok].
  - split; [discriminate |]. split.
    + split; [| reflexivity]. intros _ svc Hin.
      destruct (for_each_Ok_all _ _ _ svc Hfe Hin) as (d & Hd).
      pose proof (collect_service_cases
                    (Api.prom_instant prometheus Api.process_cpu_rate)
                    (Api.prom_instant prometheus Api.heap_used_bytes)
                    (Api.prom_instant prometheus Api.heap_max_bytes)
                    (Api.prom_instant prometheus Api.gc_seconds_rate)
                    (Api.prom_instant prometheus Api.threads_current) svc) as Hc.
      destruct (int_of_float _); [reflexivity |]. fold body in Hc. congruence.
    + intros hs [= <-].
      assert (Hall : forall h, In h (sort_by key_lt Diagnose.sort_key services) ->
                exists svc, body svc = Ok h).
      { intros h Hin. apply sort_by_In in Hin.
        destruct (for_each_elem _ _ _ _ Hfe Hin) as (svc & _ & Hd). eauto. }
      split; [| split; [| split]].
      * rewrite (Permutation_map Diagnose.service
                   (sort_by_Permutation key_lt Diagnose.sort_key services)).
        rewrite (for_each_map body Diagnose.service (fun svc => svc) _ _
                   (fun x y Hy => proj1 (collect_service_entry _ _ _ _ _ _ _ Hy)) Hfe).
        now rewrite map_id.
      * apply sort_by_sorted;
          [apply key_lt_irrefl | apply key_lt_trans | apply key_lt_total].
      * apply List.Forall_forall. intros h Hin.
        destruct (Hall h Hin) as (svc & Hd).
        apply (collect_service_entry _ _ _ _ _ _ _ Hd).
      * apply List.Forall_forall. intros h Hin.
        destruct (Hall h Hin) as (svc & Hd).
        destruct (collect_service_entry _ _ _ _ _ _ _ Hd) as (Hsvc & _ & Hok).
        rewrite Hsvc. exact Hok.
  - destruct (for_each_Raise _ _ _ Hfe) as (svc & Hin & Hr).
    pose proof (collect_service_cases
                  (Api.prom_instant prometheus Api.process_cpu_rate)
                  (Api.prom_instant prometheus Api.heap_used_bytes)
                  (Api.prom_instant prometheus Api.heap_max_bytes)
                  (Api.prom_instant prometheus Api.gc_seconds_rate)
                  (Api.prom_instant prometheus Api.threads_current) svc) as Hc.
    fold body in Hc.
    destruct (int_of_float _) as [t|e'] eqn:Hn.
    + destruct Hc as (d & Hd). congruence.
    + assert (e' = e) as -> by congruence.
      split; [intros e' [= <-]; eapply int_of_float_exn, Hn |].
      split; [| discriminate]. split; [discriminate |]. intros Hall.
      specialize (Hall svc Hin). rewrite Hn in Hall. discriminate.
Qed.

End DiagnoseFacts.

(** The service [e] of the sample data: its cpu rate is critical and its
    heap ratio a warning, which makes two issues in the diagnostic report;
    the health check adds the warning of its 60 threads. *)
Lemma diagnose_agrees_with_health_check_up_to_threads_example :
  Py.fmap (fun d => (Diagnose.status d, length (Diagnose.issues d)))
    (Diagnose.collect_service Fixture.mixed_cpu_rate Fixture.mixed_heap_used
       Fixture.mixed_heap_max Fixture.mixed_gc_rate Fixture.mixed_threads "e")
  = Py.Ok ("CRITICAL", 2%nat).
Proof.
  destruct (JvmHealth.build_heap_pct Fixture.mixed_heap_used Fixture.mixed_heap_max)
    as [heap_pct_|e] eqn:Hb; [| vm_compute in Hb; discriminate].
  destruct (Diagnose.collect_service Fixture.mixed_cpu_rate Fixture.mixed_heap_used
              Fixture.mixed_heap_max Fixture.mixed_gc_rate Fixture.mixed_threads "e")
    as [d|e] eqn:Hd; [| vm_compute in Hd; discriminate].
  destruct (JvmHealth.evaluate_service Fixture.mixed_cpu_rate Fixture.mixed_heap_used
              Fixture.mixed_heap_max heap_pct_ Fixture.mixed_gc_rate
              Fixture.mixed_threads "e") as [r|e] eqn:Hr;
    [| vm_compute in Hb; injection Hb as <-; vm_compute in Hr; discriminate].
  pose proof (diagnose_agrees_with_health_check_up_to_threads _ _ _ _ _ _ _ _ _
                Hb Hd Hr) as Hagree.
  cbv zeta in Hagree. destruct Hagree as (Hst & Hlen & _).
  simpl. rewrite Hst, Hlen.
  vm_compute in Hb. injection Hb as <-. vm_compute. reflexivity.
Defined.

(** The health section for the sample fleet and a service [zz] that
    Prometheus has no sample of: [zz] is listed, and listed as OK. *)
Example collect_health_example :
  Py.fmap (map (fun h => (Diagnose.service h, Diagnose.status h)))
    (Diagnose.collect_health "prometheus" ["zz"; "c"; "b"; "a"; "b"])
  = Py.Ok [("a", "CRITICAL"); ("c", "CRITICAL"); ("b", "OK"); ("b", "OK");
           ("zz", "OK")].
Proof. vm_compute. reflexivity. Qed.

(** ** Further properties: the resolver and the health check on one service *)

Section ToolsAgree.
Import Py.
Context `{Builtins} `{Api.Api}.

Lemma status_three_levels (c hp g : float) :
  Spec.status (Spec.three_levels c hp g) = "CRITICAL"
  <-> ge c 0.8%float || ge hp 0.85%float || ge g 0.1%float = true.
Proof.
  unfold Spec.three_levels, Spec.crossing, Spec.status.
  change (JvmHealth.crit (JvmHealth.cpu_rate JvmHealth.THRESHOLDS)) with 0.8%float.
  change (JvmHealth.warn (JvmHealth.cpu_rate JvmHealth.THRESHOLDS)) with 0.5%float.
  change (JvmHealth.crit (JvmHealth.heap_pct JvmHealth.THRESHOLDS)) with 0.85%float.
  change (JvmHealth.warn (JvmHealth.heap_pct JvmHealth.THRESHOLDS)) with 0.7%float.
  change (JvmHealth.crit (JvmHealth.gc_rate JvmHealth.THRESHOLDS)) with 0.1%float.
  change (JvmHealth.warn (JvmHealth.gc_rate JvmHealth.THRESHOLDS)) with 0.03%float.
  destruct (ge c 0.8%float); [| destruct (ge c 0.5%float)];
    (destruct (ge hp 0.85%float); [| destruct (ge hp 0.7%float)]);
    (destruct (ge g 0.1%float); [| destruct (ge g 0.03%float)]);
    cbn; split; (reflexivity || discriminate).
Qed.

(** The resolver and the health check, given the same samples, report the
    same figures for a service, and a service the resolver calls critical is
    CRITICAL for the health check: once the resolver has a verdict, its
    severity is critical exactly when the cpu rate, the heap ratio or the GC
    rate crosses the critical cutoff of the health check. *)
Theorem resolver_critical_is_health_check_critical
    (q : Bottleneck.Snapshots) (pyroscope : string) (pyro_ok : bool)
    (thresholds heap_pct_ : gmap string float) (svc : string)
    (r : Bottleneck.Result) (h : JvmHealth.Result) :
  Bottleneck.analyze_service q pyroscope pyro_ok thresholds svc = Ok r ->
  JvmHealth.build_heap_pct (Bottleneck.heap_used q) (Bottleneck.heap_max q)
  = Ok heap_pct_ ->
  JvmHealth.evaluate_service (Bottleneck.cpu q) (Bottleneck.heap_used q)
    (Bottleneck.heap_max q) heap_pct_ (Bottleneck.gc q) (Bottleneck.threads q) svc
  = Ok h ->
  (Bottleneck.pyroscope_name r = JvmHealth.pyroscope_name h
   /\ Bottleneck.m_cpu_rate (Bottleneck.metrics r)
      = JvmHealth.m_cpu_rate (JvmHealth.metrics h)
   /\ Bottleneck.m_heap_pct (Bottleneck.metrics r)
      = JvmHealth.m_heap_pct (JvmHealth.metrics h)
   /\ Bottleneck.m_gc_rate (Bottleneck.metrics r)
      = JvmHealth.m_gc_rate (JvmHealth.metrics h)
   /\ Bottleneck.m_threads (Bottleneck.metrics r)
      = JvmHealth.m_threads (JvmHealth.metrics h)) /\
  (Bottleneck.verdict r <> "healthy" ->
   (Bottleneck.severity r = "critical"
    <-> Spec.status
          (Spec.three_levels (get (Bottleneck.cpu q) svc 0%float)
             (get heap_pct_ svc 0%float) (get (Bottleneck.gc q) svc 0%float))
        = "CRITICAL")) /\
  (Bottleneck.severity r = "critical" -> JvmHealth.severity h = "CRITICAL").
Proof.
  intros Hr Hb Hh.
  apply analyze_service_Ok in Hr as (v & signals & Hv & _ & ->). cbn zeta in Hv.
  apply service_metrics_Ok in Hv as (n & Hn & Hv).
  assert (Hhp : Bottleneck.hp v = get heap_pct_ svc 0%float).
  { pose proof (diagnose_heap_ratio _ _ _ svc Hb) as Hd. rewrite Hv.
    cbn [Bottleneck.hp].
    destruct (gt (get (Bottleneck.heap_max q) svc 0%float) 0%float) eqn:Hg.
    - rewrite truediv_guarded in Hd by exact Hg. now injection Hd.
    - now injection Hd. }
  assert (Hc : Bottleneck.c v = get (Bottleneck.cpu q) svc 0%float) by now rewrite Hv.
  assert (Hg : Bottleneck.g v = get (Bottleneck.gc q) svc 0%float) by now rewrite Hv.
  assert (Ht : Bottleneck.t v = n) by now rewrite Hv.
  clear Hv.
  pose proof (evaluate_service_severity _ _ _ _ _ _ _ _ Hh) as Hsev.
  rewrite (evaluate_service_levels _ _ _ _ _ _ _ _ Hh), status_app in Hsev.
  rewrite make_result_severity, make_result_verdict.
  unfold Spec.severity.
  assert (Hcrit : Spec.status
                    (Spec.three_levels (get (Bottleneck.cpu q) svc 0%float)
                       (get heap_pct_ svc 0%float) (get (Bottleneck.gc q) svc 0%float))
                  = "CRITICAL"
                  <-> ge (Bottleneck.c v) 0.8%float || ge (Bottleneck.hp v) 0.85%float
                      || ge (Bottleneck.g v) 0.1%float = true).
  { rewrite status_three_levels, Hc, Hhp, Hg. reflexivity. }
  split; [| split].
  - unfold JvmHealth.evaluate_service in Hh. rewrite Hn in Hh. cbn [bind] in Hh.
    injection Hh as <-. unfold Bottleneck.make_result.
    destruct signals; cbn; rewrite ?Hc, ?Hhp, ?Hg, ?Ht; repeat split; reflexivity.
  - intros Hverdict. destruct signals as [|s signals]; [contradiction |].
    rewrite Hcrit.
    destruct (ge (Bottleneck.c v) 0.8%float || ge (Bottleneck.hp v) 0.85%float
              || ge (Bottleneck.g v) 0.1%float); split; (reflexivity || discriminate).
  - destruct signals as [|s signals]; [discriminate |].
    destruct (ge (Bottleneck.c v) 0.8%float || ge (Bottleneck.hp v) 0.85%float
              || ge (Bottleneck.g v) 0.1%float) eqn:Hany; [| discriminate].
    intros _. rewrite Hsev. rewrite (proj2 Hcrit eq_refl). reflexivity.
Qed.

End ToolsAgree.

(** Service [a] of the sample fleet, with a cpu rate of 0.9: critical for
    the resolver, CRITICAL for the health check. *)
Lemma resolver_critical_is_health_check_critical_example :
  Py.fmap Bottleneck.severity
    (Bottleneck.analyze_service Fixture.snapshots "pyroscope" true
       Bottleneck.DEFAULT_THRESHOLDS "a")
  = Py.Ok "critical" /\
  Py.fmap JvmHealth.severity
    (Py.bind
       (JvmHealth.build_heap_pct (Bottleneck.heap_used Fixture.snapshots)
          (Bottleneck.heap_max Fixture.snapshots))
       (fun heap_pct_ =>
          JvmHealth.evaluate_service (Bottleneck.cpu Fixture.snapshots)
            (Bottleneck.heap_used Fixture.snapshots)
            (Bottleneck.heap_max Fixture.snapshots) heap_pct_
            (Bottleneck.gc Fixture.snapshots) (Bottleneck.threads Fixture.snapshots)
            "a"))
  = Py.Ok "CRITICAL".
Proof.
  destruct (Bottleneck.analyze_service Fixture.snapshots "pyroscope" true
              Bottleneck.DEFAULT_THRESHOLDS "a") as [r|e] eqn:Hr;
    [| vm_compute in Hr; discriminate].
  destruct (JvmHealth.build_heap_pct (Bottleneck.heap_used Fixture.snapshots)
              (Bottleneck.heap_max Fixture.snapshots)) as [heap_pct_|e] eqn:Hb;
    [| vm_compute in Hb; discriminate].
  cbn [Py.bind].
  destruct (JvmHealth.evaluate_service (Bottleneck.cpu Fixture.snapshots)
              (Bottleneck.heap_used Fixture.snapshots)
              (Bottleneck.heap_max Fixture.snapshots) heap_pct_
              (Bottleneck.gc Fixture.snapshots) (Bottleneck.threads Fixture.snapshots)
              "a") as [h|e] eqn:Hh;
    [| vm_compute in Hb; injection Hb as <-; vm_compute in Hh; discriminate].
  destruct (resolver_critical_is_health_check_critical _ _ _ _ _ _ _ _ Hr Hb Hh)
    as (_ & _ & Hcrit).
  assert (Hs : Bottleneck.severity r = "critical")
    by (vm_compute in Hr; injection Hr as <-; reflexivity).
  cbn [Py.fmap]. now rewrite Hs, (Hcrit Hs).
Defined.
